(** * Weather analysis engine: a shallow embedding of [analyzer.py],
      [config.py] and the CSV path of [data_handler.py], followed by
      [weather_api.py], [read_cities_file] and [generate_report]

    Conventions of the embedding.

    - A pandas [DataFrame] is the list of its rows, in index order (the
      index is the default [RangeIndex], as [pd.read_csv] and
      [pd.DataFrame(list_of_dicts)] build it).
    - A finite float is the rational it denotes; a numeric cell is
      [option Q], where [None] is [NaN], the value pandas gives to a missing
      cell; infinities are left out.  Comparisons are exact.  The mean, the
      median and [round(x, 1)] are written twice: in exact arithmetic
      ([pd.mean], [pd.median], [round1]), which is enough for what does not
      depend on their values, and over an arbitrary arithmetic [float_ops]
      of stated accuracy for what does.
    - The typed frame has numbers or [NaN] in its numeric columns and
      strings elsewhere; [untyped] has the analyzer on a frame whose
      numeric cells may hold a string and whose descriptions may be
      missing.
    - A Python [str] is a [string] of 8-bit characters; [str.lower] is
      modelled on the ASCII range (A-Z), other characters are unchanged.
    - A Python [dict] keyed by strings is a [gmap string _] where only
      lookups matter, and an association list where the insertion order is
      observable ([Counter], [most_common]).
    - A raised exception is the [Raise] result. *)

From Stdlib Require Import QArith Qround ZArith Lia Lqa String Ascii.
From stdpp Require Import base option list gmap strings sorting.

Local Open Scope string_scope.
Local Open Scope list_scope.

(** ** Python strings *)

Module Str.

Definition lower_char (c : ascii) : ascii :=
  let n := nat_of_ascii c in
  if (65 <=? n)%nat && (n <=? 90)%nat then ascii_of_nat (n + 32) else c.

(** [s.lower()] *)
Fixpoint lower (s : string) : string :=
  match s with
  | EmptyString => EmptyString
  | String c s' => String (lower_char c) (lower s')
  end.

(** [s.startswith(w)] *)
Fixpoint startswith (w s : string) : bool :=
  match w, s with
  | EmptyString, _ => true
  | String _ _, EmptyString => false
  | String a w', String b s' => if decide (a = b) then startswith w' s' else false
  end.

(** [w in s]: [w] occurs in [s] at some offset. *)
Fixpoint contains (w s : string) : bool :=
  startswith w s ||
  match s with
  | EmptyString => false
  | String _ s' => contains w s'
  end.

(** [any(word in s for word in words)] *)
Definition any_in (words : list string) (s : string) : bool :=
  existsb (fun word => contains word s) words.

(** The mathematical notion the claims speak of. *)
Definition is_substring (w s : string) : Prop :=
  exists pre post, s = String.append pre (String.append w post).

End Str.

(** ** Floats, cells and exceptions *)

(** A numeric cell of a column; [None] is [NaN]. *)
Definition cell : Type := option Q.

(** [x > y] on floats; any comparison with [NaN] is [False]. *)
Definition float_gt (x : cell) (y : Q) : bool :=
  match x with
  | Some q => if Qlt_le_dec y q then true else false
  | None => false
  end.

Inductive exn : Type := KeyError | ValueError | TypeError | AttributeError.

Inductive result (A : Type) : Type :=
| Ok (a : A)
| Raise (e : exn).
Arguments Ok {A} a.
Arguments Raise {A} e.

Global Instance result_ret : MRet result := fun A a => Ok a.

Global Instance result_bind : MBind result := fun A B k r =>
  match r with
  | Ok a => k a
  | Raise e => Raise e
  end.

(** ** Data model *)

(** One row of the frame the analyzer is built on: the seven columns of a
    weather record. *)
Record Row : Type := mkRow {
  city : string;
  temperature : cell;
  humidity : cell;
  description : string;
  wind_speed : cell;
  country : string;
  timestamp : string
}.

Abbreviation DataFrame := (list Row).

(** [df.empty] *)
Definition empty (df : DataFrame) : bool :=
  match df with [] => true | _ => false end.

(** ** The records of a RecordSet

    The dictionary the fetcher builds for one city: every field is present,
    the numeric ones are numbers. *)

Module WeatherRecord.
Record t : Type := mk {
  city : string;
  temperature : Q;
  humidity : Z;
  description : string;
  wind_speed : Q;
  country : string;
  timestamp : string
}.
End WeatherRecord.

Definition to_row (r : WeatherRecord.t) : Row :=
  {| city := WeatherRecord.city r;
     temperature := Some (WeatherRecord.temperature r);
     humidity := Some (inject_Z (WeatherRecord.humidity r));
     description := WeatherRecord.description r;
     wind_speed := Some (WeatherRecord.wind_speed r);
     country := WeatherRecord.country r;
     timestamp := WeatherRecord.timestamp r |}.

(** [pd.DataFrame(weather_data)] *)
Definition frame_of (rs : list WeatherRecord.t) : DataFrame := to_row <$> rs.

(** ** config.py *)

Record TempRanges : Type := mkTempRanges {
  very_hot : Q;
  hot : Q;
  warm : Q;
  moderate : Q;
  cool : Q
}.

Definition TEMP_RANGES : TempRanges :=
  {| very_hot := 35; hot := 30; warm := 25; moderate := 15; cool := 10 |}.

(** ** analyzer.py: categorize_weather *)

Inductive category : Type := clear | rain | clouds | snow | other.

Global Instance category_eq_dec : EqDecision category.
Proof. solve_decision. Defined.

Definition category_key (c : category) : string :=
  match c with
  | clear => "clear"
  | rain => "rain"
  | clouds => "clouds"
  | snow => "snow"
  | other => "other"
  end.

(** The [if]/[elif] cascade of the loop body, on the lower-cased
    description. *)
Definition weather_branch (d : string) : category :=
  if Str.any_in ["clear"; "sunny"] d then clear
  else if Str.any_in ["rain"; "drizzle"; "shower"] d then rain
  else if Str.any_in ["cloud"; "overcast"] d then clouds
  else if Str.any_in ["snow"; "blizzard"] d then snow
  else other.

(** [d[key].append(c)]; every key used by the loops is present in the
    dictionary literal, so the lookup never fails. *)
Definition append_to (key c : string) (d : gmap string (list string))
  : gmap string (list string) :=
  alter (fun l => l ++ [c]) key d.

Definition weather_categories_init : gmap string (list string) :=
  <["clear" := []]> (<["rain" := []]> (<["clouds" := []]>
    (<["snow" := []]> (<["other" := []]> ∅)))).

Definition categorize_step (acc : gmap string (list string)) (row : Row)
  : gmap string (list string) :=
  let d := Str.lower (description row) in
  append_to (category_key (weather_branch d)) (city row) acc.

Definition categorize_weather (df : DataFrame) : gmap string (list string) :=
  if empty df then ∅
  else fold_left categorize_step df weather_categories_init.

(** ** analyzer.py: get_temperature_ranges *)

Inductive bucket : Type :=
  b_very_hot | b_hot | b_warm | b_moderate | b_cool | b_cold.

Global Instance bucket_eq_dec : EqDecision bucket.
Proof. solve_decision. Defined.

Definition bucket_key (b : bucket) : string :=
  match b with
  | b_very_hot => "very_hot"
  | b_hot => "hot"
  | b_warm => "warm"
  | b_moderate => "moderate"
  | b_cool => "cool"
  | b_cold => "cold"
  end.

Definition range_branch (cfg : TempRanges) (temp : cell) : bucket :=
  if float_gt temp (very_hot cfg) then b_very_hot
  else if float_gt temp (hot cfg) then b_hot
  else if float_gt temp (warm cfg) then b_warm
  else if float_gt temp (moderate cfg) then b_moderate
  else if float_gt temp (cool cfg) then b_cool
  else b_cold.

Definition temp_ranges_init : gmap string (list string) :=
  <["very_hot" := []]> (<["hot" := []]> (<["warm" := []]>
    (<["moderate" := []]> (<["cool" := []]> (<["cold" := []]> ∅))))).

Definition ranges_step (cfg : TempRanges) (acc : gmap string (list string))
  (row : Row) : gmap string (list string) :=
  append_to (bucket_key (range_branch cfg (temperature row))) (city row) acc.

(** [cfg] is the module-level [TEMP_RANGES] the method reads. *)
Definition get_temperature_ranges (cfg : TempRanges) (df : DataFrame)
  : gmap string (list string) :=
  if empty df then ∅
  else fold_left (ranges_step cfg) df temp_ranges_init.

(** ** The pandas reductions the analyzer calls

    All of them skip [NaN] cells ([skipna=True] is the default). *)

Module pd.

(** The non-[NaN] values of a column, in index order. *)
Definition dropna (col : list cell) : list Q := omap id col.

(** One left-to-right scan keeping the best (index, value) seen so far;
    the best is replaced only by a strictly better value, which is how
    [argmax]/[argmin] return the first occurrence. *)
Fixpoint scan (better : Q -> Q -> bool) (i : nat) (best : option (nat * Q))
  (col : list cell) : option (nat * Q) :=
  match col with
  | [] => best
  | None :: col' => scan better (S i) best col'
  | Some x :: col' =>
      match best with
      | None => scan better (S i) (Some (i, x)) col'
      | Some (j, b) =>
          if better x b then scan better (S i) (Some (i, x)) col'
          else scan better (S i) best col'
      end
  end.

Definition gt (x b : Q) : bool := if Qlt_le_dec b x then true else false.
Definition lt (x b : Q) : bool := if Qlt_le_dec x b then true else false.

(** [Series.max()], [Series.min()]: [NaN] when every cell is [NaN]. *)
Definition max (col : list cell) : cell := snd <$> scan gt 0 None col.
Definition min (col : list cell) : cell := snd <$> scan lt 0 None col.

(** [Series.idxmax()], [Series.idxmin()]: the label of the first
    occurrence of the extremum; [None] is the [NaN] that pandas (before
    3.0) returns when every cell is [NaN]. *)
Definition idxmax (col : list cell) : option nat := fst <$> scan gt 0 None col.
Definition idxmin (col : list cell) : option nat := fst <$> scan lt 0 None col.

Definition sum (xs : list Q) : Q := fold_right Qplus 0%Q xs.

(** [Series.mean()] *)
Definition mean (col : list cell) : cell :=
  match dropna col with
  | [] => None
  | xs => Some (sum xs / inject_Z (Z.of_nat (length xs)))%Q
  end.

Fixpoint insert_sorted (x : Q) (l : list Q) : list Q :=
  match l with
  | [] => [x]
  | y :: l' => if Qle_bool x y then x :: l else y :: insert_sorted x l'
  end.

Definition sort_values (l : list Q) : list Q := fold_right insert_sorted [] l.

(** [Series.median()]: the middle value, or the mean of the two middle
    values of an even-length column. *)
Definition median (col : list cell) : cell :=
  let xs := sort_values (dropna col) in
  let n := length xs in
  match xs with
  | [] => None
  | _ =>
      if Nat.odd n then Some (nth (n / 2) xs 0%Q)
      else Some ((nth (n / 2 - 1) xs 0 + nth (n / 2) xs 0) / 2)%Q
  end.

(** [df.loc[label, 'city']]; a [NaN] label is not in the index. *)
Definition loc_city (df : DataFrame) (label : option nat) : result string :=
  match label with
  | None => Raise KeyError
  | Some i =>
      match df !! i with
      | Some row => Ok (city row)
      | None => Raise KeyError
      end
  end.

End pd.

(** Round half to even to the nearest integer. *)
Definition rint (y : Q) : Z :=
  let f := Qfloor y in
  match (y - inject_Z f ?= 1 # 2)%Q with
  | Lt => f
  | Gt => (f + 1)%Z
  | Eq => if Z.even f then f else (f + 1)%Z
  end.

(** [round(x, 1)]; [round(nan, 1)] is [nan]. *)
Definition round1 (x : cell) : cell :=
  (fun q => inject_Z (rint (q * 10)) / 10)%Q <$> x.

(** ** analyzer.py: the three statistics *)

(** A value of a statistics dictionary. *)
Inductive value : Type :=
| VFloat (x : cell)
| VStr (s : string).

Definition get_temperature_stats (df : DataFrame) : result (gmap string value) :=
  if empty df then Ok ∅
  else
    let col := temperature <$> df in
    let temp_stats : gmap string value :=
      <["highest_temp" := VFloat (pd.max col)]>
      (<["lowest_temp" := VFloat (pd.min col)]>
      (<["average_temp" := VFloat (round1 (pd.mean col))]>
      (<["median_temp" := VFloat (round1 (pd.median col))]> ∅))) in
    highest_city ← pd.loc_city df (pd.idxmax col);
    lowest_city ← pd.loc_city df (pd.idxmin col);
    Ok (<["lowest_temp_city" := VStr lowest_city]>
        (<["highest_temp_city" := VStr highest_city]> temp_stats)).

Definition get_humidity_stats (df : DataFrame) : result (gmap string value) :=
  if empty df then Ok ∅
  else
    let col := humidity <$> df in
    highest_city ← pd.loc_city df (pd.idxmax col);
    lowest_city ← pd.loc_city df (pd.idxmin col);
    Ok (<["highest_humidity" := VFloat (pd.max col)]>
        (<["lowest_humidity" := VFloat (pd.min col)]>
        (<["average_humidity" := VFloat (round1 (pd.mean col))]>
        (<["highest_humidity_city" := VStr highest_city]>
        (<["lowest_humidity_city" := VStr lowest_city]> ∅))))).

Definition get_wind_stats (df : DataFrame) : result (gmap string value) :=
  if empty df then Ok ∅
  else
    let col := wind_speed <$> df in
    highest_city ← pd.loc_city df (pd.idxmax col);
    lowest_city ← pd.loc_city df (pd.idxmin col);
    Ok (<["highest_wind" := VFloat (pd.max col)]>
        (<["lowest_wind" := VFloat (pd.min col)]>
        (<["average_wind" := VFloat (round1 (pd.mean col))]>
        (<["highest_wind_city" := VStr highest_city]>
        (<["lowest_wind_city" := VStr lowest_city]> ∅))))).


(** ** Binary floating point

    A finite float is the rational number it denotes.  Comparisons, and so
    [max], [min], [idxmax] and [idxmin], are exact on floats.  The
    operations whose result depends on how binary64 rounds are gathered in
    a record, and the statistics and the fetcher are written over an
    arbitrary such arithmetic.  [get_temperature_stats] and
    [get_wind_stats] above are the instance at the arithmetic that does not
    round, [exact_ops]. *)
Record float_ops : Type := mkFloatOps {
  fl : Q -> Q;
  series_mean : list Q -> Q;
  series_median : list Q -> Q;
  np_round1 : Q -> Q;
  py_round1 : Q -> Q
}.

(** [fl x] is the float nearest to the real [x]; [series_mean] and
    [series_median] are [Series.mean()] and [Series.median()] of the
    non-[NaN] values of a column; [np_round1] is [round(x, 1)] of a numpy
    float and [py_round1] is [round(x, 1)] of a Python number. *)

Definition exact_mean (xs : list Q) : Q :=
  (pd.sum xs / inject_Z (Z.of_nat (length xs)))%Q.

Definition exact_median (xs : list Q) : Q :=
  let s := pd.sort_values xs in
  let n := length s in
  if Nat.odd n then nth (n / 2) s 0%Q
  else ((nth (n / 2 - 1) s 0 + nth (n / 2) s 0) / 2)%Q.

Definition exact_round1 (q : Q) : Q := (inject_Z (rint (q * 10)) / 10)%Q.

Definition exact_ops : float_ops :=
  mkFloatOps (fun x => x) exact_mean exact_median exact_round1 exact_round1.

(** An arithmetic whose mean and median come out a little low, as the
    binary64 mean of 15.2 and 17.9 does. *)
Definition low_ops : float_ops :=
  mkFloatOps (fun x => x) (fun xs => exact_mean xs - (1 # 1000000))%Q
    (fun xs => exact_median xs - (1 # 1000000))%Q exact_round1 exact_round1.

(** The error every operation is allowed. *)
Definition eps : Q := 1 # 100.

(** How accurate the arithmetic is on numbers of magnitude at most [B] and
    columns of at most [N] values: rounding to a float is monotone and off
    by at most [eps]; the mean and the median of values between two bounds
    are between them up to [eps]; [round(y, 1)] is the float of a multiple
    [j / 10] of one tenth that is within [1/20 + eps] of [y].  Binary64
    with its relative error of [2^-53] meets this for [B] and [N] up to a
    million. *)
Record accurate (ops : float_ops) (B : Q) (N : nat) : Prop := mkAccurate {
  fl_monotone : forall x y, (x <= y)%Q -> (fl ops x <= fl ops y)%Q;
  fl_near : forall x, (- B <= x <= B)%Q -> (x - eps <= fl ops x <= x + eps)%Q;
  series_mean_near : forall xs lo hi,
    xs <> [] -> (length xs <= N)%nat -> (- B <= lo)%Q -> (hi <= B)%Q ->
    (forall x, x ∈ xs -> (lo <= x <= hi)%Q) ->
    (lo - eps <= series_mean ops xs <= hi + eps)%Q;
  series_median_near : forall xs lo hi,
    xs <> [] -> (length xs <= N)%nat -> (- B <= lo)%Q -> (hi <= B)%Q ->
    (forall x, x ∈ xs -> (lo <= x <= hi)%Q) ->
    (lo - eps <= series_median ops xs <= hi + eps)%Q;
  np_round1_near : forall y, (- B <= y <= B)%Q ->
    exists j : Z, (np_round1 ops y == fl ops (inject_Z j / 10))%Q /\
      (y - (1 # 20) - eps <= inject_Z j / 10 <= y + (1 # 20) + eps)%Q;
  py_round1_near : forall y, (- B <= y <= B)%Q ->
    exists j : Z, (py_round1 ops y == fl ops (inject_Z j / 10))%Q /\
      (y - (1 # 20) - eps <= inject_Z j / 10 <= y + (1 # 20) + eps)%Q
}.

(** The float is the one of a number with one decimal place, of magnitude
    at most [B - 1]. *)
Definition one_decimal_float (ops : float_ops) (B : Q) (q : Q) : Prop :=
  exists k : Z, (q == fl ops (inject_Z k / 10))%Q /\
    (- (B - 1) <= inject_Z k / 10 <= B - 1)%Q.

(** [Series.mean()], [Series.median()] and [round(x, 1)] in the arithmetic
    [ops]. *)
Definition mean_with (ops : float_ops) (col : list cell) : cell :=
  match pd.dropna col with
  | [] => None
  | xs => Some (series_mean ops xs)
  end.

Definition median_with (ops : float_ops) (col : list cell) : cell :=
  match pd.dropna col with
  | [] => None
  | xs => Some (series_median ops xs)
  end.

Definition round1_with (ops : float_ops) (x : cell) : cell := np_round1 ops <$> x.

Definition get_temperature_stats_with (ops : float_ops) (df : DataFrame)
  : result (gmap string value) :=
  if empty df then Ok ∅
  else
    let col := temperature <$> df in
    let temp_stats : gmap string value :=
      <["highest_temp" := VFloat (pd.max col)]>
      (<["lowest_temp" := VFloat (pd.min col)]>
      (<["average_temp" := VFloat (round1_with ops (mean_with ops col))]>
      (<["median_temp" := VFloat (round1_with ops (median_with ops col))]> ∅))) in
    highest_city ← pd.loc_city df (pd.idxmax col);
    lowest_city ← pd.loc_city df (pd.idxmin col);
    Ok (<["lowest_temp_city" := VStr lowest_city]>
        (<["highest_temp_city" := VStr highest_city]> temp_stats)).

Definition get_wind_stats_with (ops : float_ops) (df : DataFrame)
  : result (gmap string value) :=
  if empty df then Ok ∅
  else
    let col := wind_speed <$> df in
    highest_city ← pd.loc_city df (pd.idxmax col);
    lowest_city ← pd.loc_city df (pd.idxmin col);
    Ok (<["highest_wind" := VFloat (pd.max col)]>
        (<["lowest_wind" := VFloat (pd.min col)]>
        (<["average_wind" := VFloat (round1_with ops (mean_with ops col))]>
        (<["highest_wind_city" := VStr highest_city]>
        (<["lowest_wind_city" := VStr lowest_city]> ∅))))).

(** The temperature statistics call succeeded with these four numbers. *)
Definition temperature_stats_with_of (ops : float_ops) (df : DataFrame)
  (hi lo avg med : Q) : Prop :=
  exists m, get_temperature_stats_with ops df = Ok m /\
    m !! "highest_temp" = Some (VFloat (Some hi)) /\
    m !! "lowest_temp" = Some (VFloat (Some lo)) /\
    m !! "average_temp" = Some (VFloat (Some avg)) /\
    m !! "median_temp" = Some (VFloat (Some med)).

(** The wind statistics call succeeded with these three numbers. *)
Definition wind_stats_with_of (ops : float_ops) (df : DataFrame)
  (hi lo avg : Q) : Prop :=
  exists m, get_wind_stats_with ops df = Ok m /\
    m !! "highest_wind" = Some (VFloat (Some hi)) /\
    m !! "lowest_wind" = Some (VFloat (Some lo)) /\
    m !! "average_wind" = Some (VFloat (Some avg)).

(** Two readings whose binary64 mean is a little below 16.55. *)
Definition two_readings : list WeatherRecord.t :=
  [ WeatherRecord.mk "Bergen" 15.2 80 "Light Rain" 5.2 "NO" "2024-05-01 10:00:00";
    WeatherRecord.mk "Porto" 17.9 64 "Clear Sky" 3.3 "PT" "2024-05-01 10:00:01" ].

(** ** analyzer.py: get_weather_distribution *)

(** [Counter(iterable)]: a dictionary in first-insertion order. *)
Fixpoint counter_add (k : string) (c : list (string * nat)) : list (string * nat) :=
  match c with
  | [] => [(k, 1)]
  | (k', n) :: c' =>
      if decide (k = k') then (k', S n) :: c' else (k', n) :: counter_add k c'
  end.

Definition Counter (l : list string) : list (string * nat) :=
  fold_left (fun c k => counter_add k c) l [].

(** [most_common()] is [sorted(items, key=itemgetter(1), reverse=True)]:
    a stable sort, so items of equal count keep their relative order. *)
Fixpoint insert_desc (x : string * nat) (l : list (string * nat))
  : list (string * nat) :=
  match l with
  | [] => [x]
  | y :: l' => if (x.2 <? y.2)%nat then y :: insert_desc x l' else x :: l
  end.

Definition most_common (c : list (string * nat)) : list (string * nat) :=
  fold_right insert_desc [] c.

(** The result dictionary, as its items in insertion order. *)
Definition get_weather_distribution (df : DataFrame) : list (string * nat) :=
  if empty df then []
  else most_common (Counter (description <$> df)).

(** ** analyzer.py: get_comprehensive_analysis *)

Record Analysis : Type := mkAnalysis {
  temperature_stats : gmap string value;
  humidity_stats : gmap string value;
  wind_stats : gmap string value;
  weather_categories : gmap string (list string);
  weather_distribution : list (string * nat);
  temperature_ranges : gmap string (list string);
  total_cities : nat
}.

Definition get_comprehensive_analysis (cfg : TempRanges) (df : DataFrame)
  : result Analysis :=
  ts ← get_temperature_stats df;
  hs ← get_humidity_stats df;
  ws ← get_wind_stats df;
  Ok {| temperature_stats := ts;
        humidity_stats := hs;
        wind_stats := ws;
        weather_categories := categorize_weather df;
        weather_distribution := get_weather_distribution df;
        temperature_ranges := get_temperature_ranges cfg df;
        total_cities := length df |}.


(** ** The analyzer on a frame whose cells are of any type

    A frame loaded from a file can hold a string in a numeric column and a
    description that is not a string ([NaN] for an empty field).  On such
    cells the analyzer fails where pandas or Python do: a reduction over a
    column that holds a string raises [TypeError] ([max] and [min] when
    they compare a string with a number, [mean] when it converts the sum of
    a column of strings), and [row['description'].lower()] raises
    [AttributeError] when the description is not a string.  Otherwise the
    methods are the ones above, on the typed frame [as_frame].  The cells of
    the city column are strings. *)

Module untyped.

Inductive cell : Type :=
| Number (q : Q)
| NaN
| Text (s : string).

Record row : Type := mk {
  city : string;
  temperature : cell;
  humidity : cell;
  description : option string;
  wind_speed : cell;
  country : string;
  timestamp : string
}.

Definition is_text (c : cell) : bool :=
  match c with Text _ => true | _ => false end.

Definition number (c : cell) : option Q :=
  match c with Number q => Some q | _ => None end.

(** Some cell of the column read by [g] is a string. *)
Definition has_text (g : row -> cell) (df : list row) : bool :=
  existsb (fun r => is_text (g r)) df.

(** Some description is not a string. *)
Definition lacks_description (df : list row) : bool :=
  existsb (fun r => match description r with Some _ => false | None => true end)
    df.

Definition as_row (r : row) : Row :=
  mkRow (city r) (number (temperature r)) (number (humidity r))
    (default EmptyString (description r)) (number (wind_speed r)) (country r)
    (timestamp r).

Definition as_frame (df : list row) : DataFrame := as_row <$> df.

Definition get_temperature_stats (df : list row) : result (gmap string value) :=
  if has_text temperature df then Raise TypeError
  else get_temperature_stats (as_frame df).

Definition get_humidity_stats (df : list row) : result (gmap string value) :=
  if has_text humidity df then Raise TypeError
  else get_humidity_stats (as_frame df).

Definition get_wind_stats (df : list row) : result (gmap string value) :=
  if has_text wind_speed df then Raise TypeError
  else get_wind_stats (as_frame df).

Definition categorize_weather (df : list row)
  : result (gmap string (list string)) :=
  if lacks_description df then Raise AttributeError
  else Ok (categorize_weather (as_frame df)).

Definition get_comprehensive_analysis (cfg : TempRanges) (df : list row)
  : result Analysis :=
  ts ← get_temperature_stats df;
  hs ← get_humidity_stats df;
  ws ← get_wind_stats df;
  wc ← categorize_weather df;
  Ok {| temperature_stats := ts;
        humidity_stats := hs;
        wind_stats := ws;
        weather_categories := wc;
        weather_distribution := get_weather_distribution (as_frame df);
        temperature_ranges := get_temperature_ranges cfg (as_frame df);
        total_cities := length df |}.

(** Every numeric cell is a number or [NaN] and every description is a
    string. *)
Definition well_typed (df : list row) : Prop :=
  has_text temperature df = false /\ has_text humidity df = false /\
  has_text wind_speed df = false /\ lacks_description df = false.

End untyped.

(** ** The two classifications as the specification words them *)

Definition keywords (c : category) : list string :=
  match c with
  | clear => ["clear"; "sunny"]
  | rain => ["rain"; "drizzle"; "shower"]
  | clouds => ["cloud"; "overcast"]
  | snow => ["snow"; "blizzard"]
  | other => []
  end.

(** Position in the priority order clear, rain, clouds, snow, other. *)
Definition category_rank (c : category) : nat :=
  match c with clear => 0 | rain => 1 | clouds => 2 | snow => 3 | other => 4 end.

(** A category matches a description when the description contains one of
    its keywords; [other] is the catch-all. *)
Definition category_matches (c : category) (d : string) : Prop :=
  c = other \/ exists w, w ∈ keywords c /\ Str.is_substring w d.

Definition first_match (d : string) (c : category) : Prop :=
  category_matches c d /\
  forall c', (category_rank c' < category_rank c)%nat -> ~ category_matches c' d.

(** The lower bound of a bucket; [cold] has none. *)
Definition threshold (cfg : TempRanges) (b : bucket) : option Q :=
  match b with
  | b_very_hot => Some (very_hot cfg)
  | b_hot => Some (hot cfg)
  | b_warm => Some (warm cfg)
  | b_moderate => Some (moderate cfg)
  | b_cool => Some (cool cfg)
  | b_cold => None
  end.

(** Position in the order very_hot, hot, warm, moderate, cool, cold. *)
Definition bucket_rank (b : bucket) : nat :=
  match b with
  | b_very_hot => 0 | b_hot => 1 | b_warm => 2
  | b_moderate => 3 | b_cool => 4 | b_cold => 5
  end.

(** The temperature strictly exceeds the bucket's threshold. *)
Definition exceeds (cfg : TempRanges) (temp : cell) (b : bucket) : Prop :=
  match threshold cfg b with
  | Some th => exists q, temp = Some q /\ (th < q)%Q
  | None => True
  end.

Definition first_exceeded (cfg : TempRanges) (temp : cell) (b : bucket) : Prop :=
  exceeds cfg temp b /\
  forall b', (bucket_rank b' < bucket_rank b)%nat -> ~ exceeds cfg temp b'.

(** The category, and the bucket, of a row. *)
Definition row_category (row : Row) : category :=
  weather_branch (Str.lower (description row)).

Definition row_bucket (cfg : TempRanges) (row : Row) : bucket :=
  range_branch cfg (temperature row).

(** One pass of a filling loop: the city [val a] goes to the list under
    [key a]. *)
Definition fill_step {A : Type} (key val : A -> string)
  (acc : gmap string (list string)) (a : A) : gmap string (list string) :=
  append_to (key a) (val a) acc.

(** The booleans the two cascades test. *)
Definition matchesb (c : category) (d : string) : bool :=
  match c with
  | other => true
  | _ => Str.any_in (keywords c) d
  end.

Definition exceedsb (cfg : TempRanges) (temp : cell) (b : bucket) : bool :=
  match threshold cfg b with
  | Some th => float_gt temp th
  | None => true
  end.

(** Position [j] holds [v], no value of the column is better than [v],
    and every value before [j] is strictly worse. *)
Definition first_best (better : Q -> Q -> bool) (col : list cell) (j : nat)
  (v : Q) : Prop :=
  col !! j = Some (Some v) /\
  (forall k x, col !! k = Some (Some x) -> better x v = false) /\
  (forall k x, (k < j)%nat -> col !! k = Some (Some x) -> better v x = true).

(** The lists of the five categories, in priority order (an absent key
    contributes no city). *)
Definition category_lists (df : DataFrame) : list (list string) :=
  (fun c => default [] (categorize_weather df !! category_key c))
    <$> [clear; rain; clouds; snow; other].

(** City [x] is listed under category [c]. *)
Definition in_category (df : DataFrame) (x : string) (c : category) : Prop :=
  exists l, categorize_weather df !! category_key c = Some l /\ x ∈ l.

(** Every input city is listed under exactly one category. *)
Definition exactly_one_category (df : DataFrame) : Prop :=
  forall x, x ∈ city <$> df ->
    exists c, in_category df x c /\ forall c', in_category df x c' -> c' = c.

(** The scan of [pd.scan] carried out on the rows themselves: it keeps the
    best row where [pd.scan] keeps its label. *)
Fixpoint scan_rows (better : Q -> Q -> bool) (g : Row -> cell)
  (best : option (Row * Q)) (rows : list Row) : option (Row * Q) :=
  match rows with
  | [] => best
  | r :: rows' =>
      match g r with
      | None => scan_rows better g best rows'
      | Some x =>
          match best with
          | None => scan_rows better g (Some (r, x)) rows'
          | Some (_, b) =>
              if better x b then scan_rows better g (Some (r, x)) rows'
              else scan_rows better g best rows'
          end
      end
  end.

(** The rows that carry the field read by [g]. *)
Definition carrying (g : Row -> cell) (df : DataFrame) : DataFrame :=
  filter (fun r => is_Some (g r)) df.

(** [c] is the city of the first record, in input order, whose field [f]
    attains the extremum; [sense x y] reads "[y] is at least as extreme
    as [x]". *)
Definition first_attaining (sense : Q -> Q -> Prop) (f : WeatherRecord.t -> Q)
  (rs : list WeatherRecord.t) (c : string) : Prop :=
  exists j r, rs !! j = Some r /\ WeatherRecord.city r = c /\
    (forall r', r' ∈ rs -> sense (f r') (f r)) /\
    (forall k r', (k < j)%nat -> rs !! k = Some r' -> ~ (f r' == f r)%Q).

(** The statistics call succeeded and stores city [c] under [key]. *)
Definition stat_city (res : result (gmap string value)) (key c : string) : Prop :=
  exists m, res = Ok m /\ m !! key = Some (VStr c).

(** The temperature statistics call succeeded with these four numbers. *)
Definition temperature_stats_of (df : DataFrame) (hi lo avg med : Q) : Prop :=
  exists m, get_temperature_stats df = Ok m /\
    m !! "highest_temp" = Some (VFloat (Some hi)) /\
    m !! "lowest_temp" = Some (VFloat (Some lo)) /\
    m !! "average_temp" = Some (VFloat (Some avg)) /\
    m !! "median_temp" = Some (VFloat (Some med)).

(** The temperature is given to one decimal place. *)
Definition one_decimal (q : Q) : Prop := exists k : Z, (q == inject_Z k / 10)%Q.

(** ** data_handler.py: saving to and loading from CSV

    A CSV file is modelled as the table of its field texts: a header line
    and one line per record.  The quoting and escaping of fields is left
    out: the writer and the reader agree on it for fields without a
    carriage return (a field that holds one can be written unquoted and is
    then read as the end of a line).  The way floats are printed and parsed
    is left out too: [repr_float], [repr_int] and [parse_number] are
    parameters.  What is modelled is what [pd.read_csv] does with the text
    of a field under its default arguments: a field whose text is one of
    the default NA markers is read as [NaN]; a column is numeric when
    every other field of it parses as a number, boolean when every other
    field of it is one of the literals of true and false, and a column of
    strings otherwise. *)

Module csv.

Record file : Type := mkFile {
  header : list string;
  lines : list (list string)
}.

(** A cell of a loaded frame. *)
Inductive loaded : Type :=
| LNum (q : Q)
| LStr (s : string)
| LBool (b : bool)
| LNaN.

Record frame : Type := mkFrame {
  columns : list string;
  rows : list (list loaded)
}.

(** The markers [pd.read_csv] reads as [NaN] by default
    ([keep_default_na=True], [na_filter=True]). *)
Definition na_values : list string :=
  [""; "#N/A"; "#N/A N/A"; "#NA"; "-1.#IND"; "-1.#QNAN"; "-NaN"; "-nan";
   "1.#IND"; "1.#QNAN"; "<NA>"; "N/A"; "NA"; "NULL"; "NaN"; "None"; "n/a";
   "nan"; "null"].

Definition is_na (t : string) : bool := bool_decide (t ∈ na_values).

(** The literals [pd.read_csv] reads as booleans by default. *)
Definition true_values : list string := ["True"; "TRUE"; "true"].
Definition false_values : list string := ["False"; "FALSE"; "false"].

Definition parse_bool (t : string) : option bool :=
  if bool_decide (t ∈ true_values) then Some true
  else if bool_decide (t ∈ false_values) then Some false
  else None.

(** The text holds a carriage return. *)
Fixpoint has_cr (t : string) : bool :=
  match t with
  | EmptyString => false
  | String c t' => (nat_of_ascii c =? 13)%nat || has_cr t'
  end.

Section io.
Variable repr_float : Q -> string.
Variable repr_int : Z -> string.
Variable parse_number : string -> option Q.

(** [pd.DataFrame(weather_data).to_csv(path, index=False)]: the columns
    are the keys of the dictionaries, in their insertion order. *)
Definition to_csv (weather_data : list WeatherRecord.t) : file :=
  {| header := ["city"; "temperature"; "humidity"; "description";
                "wind_speed"; "country"; "timestamp"];
     lines := (fun r =>
                 [ WeatherRecord.city r;
                   repr_float (WeatherRecord.temperature r);
                   repr_int (WeatherRecord.humidity r);
                   WeatherRecord.description r;
                   repr_float (WeatherRecord.wind_speed r);
                   WeatherRecord.country r;
                   WeatherRecord.timestamp r ]) <$> weather_data |}.

(** The type inference of one column. *)
Definition infer_column (texts : list string) : list loaded :=
  let present := List.filter (fun t => negb (is_na t)) texts in
  if forallb (fun t => bool_decide (is_Some (parse_number t))) present
  then (fun t => if is_na t then LNaN
                 else match parse_number t with
                      | Some q => LNum q
                      | None => LNaN
                      end) <$> texts
  else if forallb (fun t => bool_decide (is_Some (parse_bool t))) present
  then (fun t => if is_na t then LNaN
                 else match parse_bool t with
                      | Some b => LBool b
                      | None => LNaN
                      end) <$> texts
  else (fun t => if is_na t then LNaN else LStr t) <$> texts.

Definition column (j : nat) (ls : list (list string)) : list string :=
  (fun l => default "" (l !! j)) <$> ls.

(** [pd.read_csv(path)] *)
Definition read_csv (f : file) : frame :=
  let cols := (fun j => infer_column (column j (lines f)))
                <$> seq 0 (length (header f)) in
  {| columns := header f;
     rows := (fun i => (fun c => default LNaN (c !! i)) <$> cols)
               <$> seq 0 (length (lines f)) |}.

(** [DataHandler.save_to_csv]: nothing is written for an empty list. *)
Definition save_to_csv (data_file : string) (weather_data : list WeatherRecord.t)
  (fs : gmap string file) : bool * gmap string file :=
  match weather_data with
  | [] => (false, fs)
  | _ => (true, <[data_file := to_csv weather_data]> fs)
  end.

(** [DataHandler.load_from_csv]: [None] when the file does not exist. *)
Definition load_from_csv (data_file : string) (fs : gmap string file)
  : option frame :=
  match fs !! data_file with
  | None => None
  | Some f => Some (read_csv f)
  end.

(** The frame a lossless round trip would give back. *)
Definition expected (weather_data : list WeatherRecord.t) : frame :=
  {| columns := ["city"; "temperature"; "humidity"; "description";
                 "wind_speed"; "country"; "timestamp"];
     rows := (fun r =>
                [ LStr (WeatherRecord.city r);
                  LNum (WeatherRecord.temperature r);
                  LNum (inject_Z (WeatherRecord.humidity r));
                  LStr (WeatherRecord.description r);
                  LNum (WeatherRecord.wind_speed r);
                  LStr (WeatherRecord.country r);
                  LStr (WeatherRecord.timestamp r) ]) <$> weather_data |}.

(** Saving then loading gives every field back. *)
Definition round_trip (data_file : string) (weather_data : list WeatherRecord.t)
  : Prop :=
  forall fs, load_from_csv data_file (save_to_csv data_file weather_data fs).2
             = Some (expected weather_data).

End io.
End csv.

(** A reading from Windhoek; the country code of Namibia is NA. *)
Definition windhoek : WeatherRecord.t :=
  WeatherRecord.mk "Windhoek" 24.3 18 "Clear Sky" 3.1 "NA" "2024-05-01 10:00:00".

(** ** Sample inputs *)

Definition sample_records : list WeatherRecord.t :=
  [ WeatherRecord.mk "London" 18.5 72 "Light Rain" 4.1 "GB" "2024-05-01 10:00:00";
    WeatherRecord.mk "Cairo" 35.1 20 "Clear Sky" 3.6 "EG" "2024-05-01 10:00:01";
    WeatherRecord.mk "Oslo" 9.3 72 "Overcast Clouds" 4.1 "NO" "2024-05-01 10:00:02" ].

(** The same city fetched twice, under two different skies. *)
Definition dup_frame : DataFrame :=
  [ mkRow "A" (Some 20%Q) (Some 50%Q) "Clear Sky" (Some 3%Q) "GB" "2024-05-01 10:00:00";
    mkRow "A" (Some 18%Q) (Some 80%Q) "Light Rain" (Some 4%Q) "GB" "2024-05-01 16:00:00" ].

(** The four numbers of the temperature statistics are ordered as the
    max, the mean and the median, and the min of a sample are. *)
Definition temperature_stats_ordered (df : DataFrame) : Prop :=
  forall hi lo avg med, temperature_stats_of df hi lo avg med ->
    (lo <= avg <= hi)%Q /\ (lo <= med <= hi)%Q.

(** A single reading with two decimals. *)
Definition two_decimal_records : list WeatherRecord.t :=
  [ WeatherRecord.mk "Pune" 20.26 48 "Clear Sky" 2.1 "IN" "2024-05-01 10:00:00" ].

(** The label kept by [pd.scan] and the row kept by [scan_rows] agree. *)
Definition linked (pre : list Row) (best : option (nat * Q))
  (bestr : option (Row * Q)) : Prop :=
  match best, bestr with
  | None, None => True
  | Some (j, b), Some (r, b') => b = b' /\ pre !! j = Some r
  | _, _ => False
  end.

(** A call raised. *)
Definition fails {A : Type} (r : result A) : Prop := exists e, r = Raise e.

(** Some record of the frame lacks the field read by [g]. *)
Definition lacks (g : Row -> cell) (df : DataFrame) : Prop :=
  exists r, r ∈ df /\ g r = None.

(** No [NaN] is stored in a statistics dictionary. *)
Definition no_NaN (m : gmap string value) : Prop :=
  forall k x, m !! k = Some (VFloat x) -> is_Some x.

(** A frame as [pd.read_csv] loads it when the first line has empty numeric
    fields. *)
Definition gap_frame : DataFrame :=
  [ mkRow "Lima" None None "Mist" None "PE" "2024-05-01 10:00:00";
    mkRow "Quito" (Some 14.2%Q) (Some 81%Q) "Light Rain" (Some 2.6%Q) "EC"
      "2024-05-01 10:00:01" ].

(** The number of records carrying description [d], compared exactly. *)
Definition count (d : string) (ds : list string) : nat :=
  length (filter (fun x => d = x) ds).

(** [a] stands before [b] in the list. *)
Definition before {A : Type} (l : list A) (a b : A) : Prop :=
  exists i j, (i < j)%nat /\ l !! i = Some a /\ l !! j = Some b.

(** [d1] occurs in [ds] before the first occurrence of [d2]. *)
Definition first_seen_before (ds : list string) (d1 d2 : string) : Prop :=
  exists i, ds !! i = Some d1 /\ forall k, (k <= i)%nat -> ds !! k <> Some d2.

(** The keys of a counter after one more element is counted. *)
Definition keys_add (k : string) (K : list string) : list string :=
  if decide (k ∈ K) then K else K ++ [k].

(** The order [most_common] puts the items of counter [c] in: larger
    counts first, and among equal counts the order of [c]. *)
Definition ranked (c : list (string * nat)) (a b : string * nat) : Prop :=
  (b.2 < a.2)%nat \/ (b.2 = a.2 /\ before c a b).

(** A row with the given city and description. *)
Definition observed (c d : string) : Row :=
  mkRow c (Some 20%Q) (Some 50%Q) d (Some 3%Q) "GB" "2024-05-01 10:00:00".

(** ** Further notions used in the properties of the remaining code *)

(** The lists of the six ranges, in the order of the dictionary literal (an
    absent key contributes no city). *)
Definition range_lists (cfg : TempRanges) (df : DataFrame) : list (list string) :=
  (fun b => default [] (get_temperature_ranges cfg df !! bucket_key b))
    <$> [b_very_hot; b_hot; b_warm; b_moderate; b_cool; b_cold].

(** The thresholds go down from very_hot to cool, as the defaults do. *)
Definition descending (cfg : TempRanges) : Prop :=
  (cool cfg <= moderate cfg)%Q /\ (moderate cfg <= warm cfg)%Q /\
  (warm cfg <= hot cfg)%Q /\ (hot cfg <= very_hot cfg)%Q.


(** The humidity statistics call succeeded with these three numbers. *)
Definition humidity_stats_of (df : DataFrame) (hi lo avg : Q) : Prop :=
  exists m, get_humidity_stats df = Ok m /\
    m !! "highest_humidity" = Some (VFloat (Some hi)) /\
    m !! "lowest_humidity" = Some (VFloat (Some lo)) /\
    m !! "average_humidity" = Some (VFloat (Some avg)).


(** Every numeric column of the frame has at least one value. *)
Definition columns_carried (df : DataFrame) : Prop :=
  carrying temperature df <> [] /\ carrying humidity df <> [] /\
  carrying wind_speed df <> [].


(** ** More string methods

    As for [Str.lower], the methods are modelled on the ASCII range: the
    cased characters are A-Z and a-z, the whitespace characters are the
    ASCII ones of [str.isspace] (codes 9 to 13 and 28 to 32). *)

Module PyStr.

Definition is_upper (c : ascii) : bool :=
  let n := nat_of_ascii c in (65 <=? n)%nat && (n <=? 90)%nat.

Definition is_lower (c : ascii) : bool :=
  let n := nat_of_ascii c in (97 <=? n)%nat && (n <=? 122)%nat.

Definition is_cased (c : ascii) : bool := is_upper c || is_lower c.

Definition upper_char (c : ascii) : ascii :=
  if is_lower c then ascii_of_nat (nat_of_ascii c - 32) else c.

(** [s.title()]: a cased character is upper-cased when the character before
    it is not cased, and lower-cased otherwise. *)
Fixpoint title_from (previous_is_cased : bool) (s : string) : string :=
  match s with
  | EmptyString => EmptyString
  | String c s' =>
      String (if previous_is_cased then Str.lower_char c else upper_char c)
             (title_from (is_cased c) s')
  end.

Definition title (s : string) : string := title_from false s.

Definition is_space (c : ascii) : bool :=
  let n := nat_of_ascii c in
  ((9 <=? n)%nat && (n <=? 13)%nat) || ((28 <=? n)%nat && (n <=? 32)%nat).

(** [s.lstrip()] *)
Fixpoint lstrip (s : string) : string :=
  match s with
  | EmptyString => EmptyString
  | String c s' => if is_space c then lstrip s' else s
  end.

(** [s.rstrip()] *)
Fixpoint rstrip (s : string) : string :=
  match s with
  | EmptyString => EmptyString
  | String c s' =>
      match rstrip s' with
      | EmptyString => if is_space c then EmptyString else String c EmptyString
      | t => String c t
      end
  end.

(** [s.strip()] *)
Definition strip (s : string) : string := rstrip (lstrip s).

(** The first character of the string, if any, is not a whitespace
    character. *)
Definition head_not_space (s : string) : Prop :=
  match s with
  | EmptyString => True
  | String c _ => is_space c = false
  end.

(** The last character of the string, if any, is not a whitespace
    character. *)
Fixpoint last_not_space (s : string) : Prop :=
  match s with
  | EmptyString => True
  | String c EmptyString => is_space c = false
  | String _ s' => last_not_space s'
  end.

(** Every character of the string is a whitespace character: the line is
    blank. *)
Fixpoint all_space (s : string) : bool :=
  match s with
  | EmptyString => true
  | String c s' => is_space c && all_space s'
  end.

End PyStr.

(** ** weather_api.py *)

Module weather_api.

(** The JSON body of a response, read along the paths that
    [_parse_weather_data] follows: [data['main']['temp']],
    [data['main']['humidity']], [data['weather'][0]['description']],
    [data['wind']['speed']] and [data['sys']['country']].  A leaf is [None]
    when a key or index on its path is missing, in which case the lookup
    raises. *)
Record payload : Type := mkPayload {
  main_temp : option Q;
  main_humidity : option Z;
  weather_0_description : option string;
  wind_dot_speed : option Q;
  sys_country : option string
}.

(** The outcome of [requests.get]: an exception, or a response with its
    status code and its body ([None] when [response.json()] raises). *)
Inductive http_result : Type :=
| RequestException
| Response (status_code : Z) (json : option payload).

(** [_parse_weather_data]; [None] stands for the exception a missing leaf
    raises, [now] for [time.strftime('%Y-%m-%d %H:%M:%S')], and
    [py_round1 ops] is [round(x, 1)]. *)
Definition _parse_weather_data (ops : float_ops) (now : string) (data : payload)
  (city : string) : option WeatherRecord.t :=
  temp ← main_temp data;
  hum ← main_humidity data;
  desc ← weather_0_description data;
  speed ← wind_dot_speed data;
  ctry ← sys_country data;
  Some (WeatherRecord.mk city (py_round1 ops temp) hum (PyStr.title desc)
                         (py_round1 ops speed) ctry now).

(** [fetch_weather_data]: the record for a 200 response that parses, and
    [None] for any other status code and for any exception. *)
Definition fetch_weather_data (ops : float_ops) (got : http_result)
  (now : string) (city : string) : option WeatherRecord.t :=
  match got with
  | Response 200 (Some data) => _parse_weather_data ops now data city
  | _ => None
  end.

(** What [fetch_multiple_cities] does besides building its list. *)
Inductive event : Type :=
| Request (city : string)
| Sleep.

Section fetch.
Variable ops : float_ops.
(** The outcome of the [i]-th request and the clock at that time. *)
Variable net : nat -> string -> http_result.
Variable clock : nat -> string.

(** The loop of [fetch_multiple_cities] from index [i] on: the records
    appended and the events, in order. *)
Fixpoint fetch_loop (i total_cities : nat) (cities : list string)
  : list WeatherRecord.t * list event :=
  match cities with
  | [] => ([], [])
  | city :: rest =>
      let c := PyStr.strip city in
      let data := fetch_weather_data ops (net i c) (clock i) c in
      let appended := match data with Some d => [d] | None => [] end in
      let slept := if (i <? total_cities)%nat then [Sleep] else [] in
      let '(weather_data, events) := fetch_loop (S i) total_cities rest in
      (appended ++ weather_data, Request c :: slept ++ events)
  end.

Definition fetch_multiple_cities (cities : list string)
  : list WeatherRecord.t * list event :=
  fetch_loop 1 (length cities) cities.

End fetch.
End weather_api.

(** ** data_handler.py: read_cities_file *)

(** A text file is the list of its lines.  [None] from the lookup is a file
    that does not exist. *)
Definition read_cities_file (cities_file : string)
  (fs : gmap string (list string)) : list string :=
  match fs !! cities_file with
  | None => []
  | Some lines =>
      omap (fun line =>
              if decide (PyStr.strip line = EmptyString) then None
              else Some (PyStr.strip line)) lines
  end.

(** The number of [Sleep] events and the cities requested, in order. *)
Definition sleeps (events : list weather_api.event) : nat :=
  length (List.filter (fun e => match e with weather_api.Sleep => true | _ => false end)
            events).

Definition requests (events : list weather_api.event) : list string :=
  omap (fun e => match e with weather_api.Request c => Some c | _ => None end)
       events.


(** The request was answered with status 200 and a body that holds the five
    values [_parse_weather_data] reads. *)
Definition answered (got : weather_api.http_result) : bool :=
  match got with
  | weather_api.RequestException => false
  | weather_api.Response status_code json =>
      bool_decide (status_code = 200%Z) &&
      match json with
      | None => false
      | Some data =>
          bool_decide (is_Some (weather_api.main_temp data)) &&
          bool_decide (is_Some (weather_api.main_humidity data)) &&
          bool_decide (is_Some (weather_api.weather_0_description data)) &&
          bool_decide (is_Some (weather_api.wind_dot_speed data)) &&
          bool_decide (is_Some (weather_api.sys_country data))
      end
  end.

(** The list with [sep] put between every two consecutive elements. *)
Fixpoint between {A : Type} (sep : A) (l : list A) : list A :=
  match l with
  | [] => []
  | x :: l' =>
      match l' with
      | [] => [x]
      | _ => x :: sep :: between sep l'
      end
  end.

(** Every temperature the network answers has magnitude at most [B - 2]. *)
Definition bounded_net (B : Q) (net : nat -> string -> weather_api.http_result)
  : Prop :=
  forall i c data t,
    net i c = weather_api.Response 200 (Some data) ->
    weather_api.main_temp data = Some t ->
    (- (B - 2) <= t <= B - 2)%Q.

(** A response body, and a network where every city answers with it. *)
Definition steady_body : weather_api.payload :=
  weather_api.mkPayload (Some 18.53%Q) (Some 72%Z) (Some "light rain")
    (Some 4.12%Q) (Some "GB").

Definition steady_net (i : nat) (c : string) : weather_api.http_result :=
  weather_api.Response 200 (Some steady_body).

Definition steady_clock (i : nat) : string := "2024-05-01 10:00:00".


(** ** Records that survive the CSV round trip *)

(** The text is read back as the string it is: it is not an NA marker, it
    reads neither as a number nor as a boolean, and it holds no carriage
    return. *)
Definition text_safe (parse_number : string -> option Q) (s : string) : Prop :=
  csv.is_na s = false /\ parse_number s = None /\ csv.parse_bool s = None /\
  csv.has_cr s = false.

(** The printed number is read back as the number [q]. *)
Definition number_safe (parse_number : string -> option Q) (t : string) (q : Q)
  : Prop :=
  csv.is_na t = false /\ parse_number t = Some q.

Definition record_safe (repr_float : Q -> string) (repr_int : Z -> string)
  (parse_number : string -> option Q) (r : WeatherRecord.t) : Prop :=
  text_safe parse_number (WeatherRecord.city r) /\
  number_safe parse_number (repr_float (WeatherRecord.temperature r))
    (WeatherRecord.temperature r) /\
  number_safe parse_number (repr_int (WeatherRecord.humidity r))
    (inject_Z (WeatherRecord.humidity r)) /\
  text_safe parse_number (WeatherRecord.description r) /\
  number_safe parse_number (repr_float (WeatherRecord.wind_speed r))
    (WeatherRecord.wind_speed r) /\
  text_safe parse_number (WeatherRecord.country r) /\
  text_safe parse_number (WeatherRecord.timestamp r).

(** A printer and a parser that agree on the numbers of [sample_records]. *)
Definition sample_repr_float (q : Q) : string :=
  if Qeq_bool q 18.5 then "18.5" else if Qeq_bool q 35.1 then "35.1"
  else if Qeq_bool q 9.3 then "9.3" else if Qeq_bool q 4.1 then "4.1"
  else if Qeq_bool q 3.6 then "3.6" else "0.0".

Definition sample_repr_int (z : Z) : string :=
  if (z =? 72)%Z then "72" else if (z =? 20)%Z then "20" else "0".

Definition sample_parse_number (s : string) : option Q :=
  if decide (s = "18.5") then Some 18.5%Q
  else if decide (s = "35.1") then Some 35.1%Q
  else if decide (s = "9.3") then Some 9.3%Q
  else if decide (s = "4.1") then Some 4.1%Q
  else if decide (s = "3.6") then Some 3.6%Q
  else if decide (s = "72") then Some 72%Q
  else if decide (s = "20") then Some 20%Q
  else if decide (s = "0.0") then Some 0%Q
  else if decide (s = "0") then Some 0%Q
  else None.


(** ** report_generator.py: generate_report

    The report is built as the list [report_lines] and joined with newlines.
    What an f-string prints for a number, the clock and [tabulate] are
    parameters.  The analysis is the record [get_comprehensive_analysis]
    returns, so every [analysis.get(key, default)] finds its key; the keys of
    the ranges dictionary are the six of the analyzer's literal, visited in
    its order. *)

Module report.

(** [s * n] *)
Definition times (n : nat) (s : string) : string :=
  fold_right String.append EmptyString (replicate n s).

(** The line of one city under a heading. *)
Definition bullet (city : string) : string := "  • " +:+ city.

Definition is_bullet (line : string) : bool := Str.startswith "  • " line.

Definition range_label (b : bucket) : string :=
  match b with
  | b_very_hot => "Very Hot (>35°C)"
  | b_hot => "Hot (30-35°C)"
  | b_warm => "Warm (25-30°C)"
  | b_moderate => "Moderate (15-25°C)"
  | b_cool => "Cool (10-15°C)"
  | b_cold => "Cold (<10°C)"
  end.

Section generate.
Variable str_value : value -> string.
Variable str_cell : cell -> string.
Variable str_int : nat -> string.
Variable now : string.
Variable tabulate : list (list string) -> string.

(** [{d.get(key, 'N/A')}] inside an f-string. *)
Definition get_str (d : gmap string value) (key : string) : string :=
  match d !! key with
  | Some v => str_value v
  | None => "N/A"
  end.

(** A heading with its count, one bullet per city and a blank line; nothing
    when the list is empty. *)
Definition city_block (heading : nat -> string) (cities : list string)
  : list string :=
  match cities with
  | [] => []
  | _ => heading (length cities) :: (bullet <$> cities) ++ [EmptyString]
  end.

Definition header_lines (total : nat) : list string :=
  [ times 60 "="; "WEATHER ANALYSIS REPORT"; times 60 "=";
    "Generated on: " +:+ now;
    "Total cities analyzed: " +:+ str_int total;
    EmptyString ].

Definition temperature_lines (temp_stats : gmap string value) : list string :=
  if decide (temp_stats = ∅) then []
  else
    [ "TEMPERATURE ANALYSIS"; times 30 "-";
      "Highest Temperature: " +:+ get_str temp_stats "highest_temp" +:+ "°C - "
        +:+ get_str temp_stats "highest_temp_city";
      "Lowest Temperature: " +:+ get_str temp_stats "lowest_temp" +:+ "°C - "
        +:+ get_str temp_stats "lowest_temp_city";
      "Average Temperature: " +:+ get_str temp_stats "average_temp" +:+ "°C";
      "Median Temperature: " +:+ get_str temp_stats "median_temp" +:+ "°C";
      EmptyString ].

Definition weather_lines (weather_cats : gmap string (list string))
  : list string :=
  if decide (weather_cats = ∅) then []
  else
    [ "WEATHER CONDITIONS"; times 30 "-" ]
    ++ city_block (fun n => "Clear Weather Cities: " +:+ str_int n)
         (default [] (weather_cats !! "clear"))
    ++ city_block (fun n => "Rain in Cities: " +:+ str_int n)
         (default [] (weather_cats !! "rain"))
    ++ city_block (fun n => "Cloudy Cities: " +:+ str_int n)
         (default [] (weather_cats !! "clouds")).

Definition range_block (temp_ranges : gmap string (list string)) (b : bucket)
  : list string :=
  match temp_ranges !! bucket_key b with
  | Some cities =>
      city_block (fun n => range_label b +:+ ": " +:+ str_int n +:+ " cities")
        cities
  | None => []
  end.

Definition ranges_lines (temp_ranges : gmap string (list string))
  : list string :=
  if decide (temp_ranges = ∅) then []
  else
    [ "TEMPERATURE RANGES"; times 30 "-" ]
    ++ concat (range_block temp_ranges
                 <$> [b_very_hot; b_hot; b_warm; b_moderate; b_cool; b_cold]).

Definition metrics_lines (humidity_stats wind_stats : gmap string value)
  : list string :=
  if decide (humidity_stats = ∅ /\ wind_stats = ∅) then []
  else
    [ "ADDITIONAL METRICS"; times 30 "-" ]
    ++ (if decide (humidity_stats = ∅) then []
        else
          [ "Humidity:";
            "  Highest: " +:+ get_str humidity_stats "highest_humidity" +:+ "% - "
              +:+ get_str humidity_stats "highest_humidity_city";
            "  Lowest: " +:+ get_str humidity_stats "lowest_humidity" +:+ "% - "
              +:+ get_str humidity_stats "lowest_humidity_city";
            "  Average: " +:+ get_str humidity_stats "average_humidity" +:+ "%";
            EmptyString ])
    ++ (if decide (wind_stats = ∅) then []
        else
          [ "Wind Speed:";
            "  Highest: " +:+ get_str wind_stats "highest_wind" +:+ " m/s - "
              +:+ get_str wind_stats "highest_wind_city";
            "  Lowest: " +:+ get_str wind_stats "lowest_wind" +:+ " m/s - "
              +:+ get_str wind_stats "lowest_wind_city";
            "  Average: " +:+ get_str wind_stats "average_wind" +:+ " m/s";
            EmptyString ]).

Definition table_row (item : Row) : list string :=
  [ city item; str_cell (temperature item) +:+ "°C";
    str_cell (humidity item) +:+ "%"; description item;
    str_cell (wind_speed item) +:+ " m/s" ].

(** [raw_data] is [None] when the caller passes none. *)
Definition table_lines (raw_data : option (list Row)) : list string :=
  match raw_data with
  | Some (item :: items) =>
      [ "DETAILED WEATHER DATA"; times 30 "-";
        tabulate (table_row <$> item :: items); EmptyString ]
  | _ => []
  end.

Definition footer_lines : list string :=
  [ times 60 "="; "End of Report"; times 60 "=" ].

Definition report_lines (analysis : Analysis) (raw_data : option (list Row))
  : list string :=
  header_lines (total_cities analysis)
  ++ temperature_lines (temperature_stats analysis)
  ++ weather_lines (weather_categories analysis)
  ++ ranges_lines (temperature_ranges analysis)
  ++ metrics_lines (humidity_stats analysis) (wind_stats analysis)
  ++ table_lines raw_data
  ++ footer_lines.

(** ["\n".join(report_lines)] *)
Definition generate_report (analysis : Analysis) (raw_data : option (list Row))
  : string :=
  String.concat (String "010"%char EmptyString) (report_lines analysis raw_data).

End generate.
End report.

(** The analysis with other lists under the snow and other categories. *)
Definition with_snow_other (snow_cities other_cities : list string)
  (a : Analysis) : Analysis :=
  {| temperature_stats := temperature_stats a;
     humidity_stats := humidity_stats a;
     wind_stats := wind_stats a;
     weather_categories :=
       <["snow" := snow_cities]> (<["other" := other_cities]> (weather_categories a));
     weather_distribution := weather_distribution a;
     temperature_ranges := temperature_ranges a;
     total_cities := total_cities a |}.


(** ** Matching regardless of case, stated on the description as it is *)

(** The two characters are the same, or the same ASCII letter in the two
    cases. *)
Definition same_letter (a b : ascii) : Prop :=
  let n := nat_of_ascii a in
  let m := nat_of_ascii b in
  n = m \/ ((65 <= n <= 90)%nat /\ m = (n + 32)%nat)
        \/ ((65 <= m <= 90)%nat /\ n = (m + 32)%nat).

Fixpoint same_ignoring_case (a b : string) : Prop :=
  match a, b with
  | EmptyString, EmptyString => True
  | String x a', String y b' => same_letter x y /\ same_ignoring_case a' b'
  | _, _ => False
  end.

(** The description contains the keyword in some mixture of cases. *)
Definition is_substring_ci (w d : string) : Prop :=
  exists pre w0 post,
    d = String.append pre (String.append w0 post) /\ same_ignoring_case w0 w.

Definition category_matches_ci (c : category) (d : string) : Prop :=
  c = other \/ exists w, w ∈ keywords c /\ is_substring_ci w d.

Definition first_match_ci (d : string) (c : category) : Prop :=
  category_matches_ci c d /\
  forall c', (category_rank c' < category_rank c)%nat -> ~ category_matches_ci c' d.

(** Every character is a lower-case ASCII letter. *)
Fixpoint lowercase (w : string) : Prop :=
  match w with
  | EmptyString => True
  | String c w' => (97 <= nat_of_ascii c <= 122)%nat /\ lowercase w'
  end.


(** ** Frames with cells of other types *)

(** [gap_frame] as an untyped frame. *)
Definition raw_gap_frame : list untyped.row :=
  [ untyped.mk "Lima" untyped.NaN untyped.NaN (Some "Mist") untyped.NaN "PE"
      "2024-05-01 10:00:00";
    untyped.mk "Quito" (untyped.Number 14.2) (untyped.Number 81)
      (Some "Light Rain") (untyped.Number 2.6) "EC" "2024-05-01 10:00:01" ].

(** A frame whose first record holds a word where the three numbers should
    be. *)
Definition text_frame : list untyped.row :=
  [ untyped.mk "Lima" (untyped.Text "mild") (untyped.Text "high")
      (Some "Mist") (untyped.Text "calm") "PE" "2024-05-01 10:00:00";
    untyped.mk "Quito" (untyped.Number 14.2) (untyped.Number 81)
      (Some "Light Rain") (untyped.Number 2.6) "EC" "2024-05-01 10:00:01" ].

(** A frame whose second record has no description. *)
Definition no_description_frame : list untyped.row :=
  [ untyped.mk "Lima" (untyped.Number 19.4) (untyped.Number 77) (Some "Mist")
      (untyped.Number 3.1) "PE" "2024-05-01 10:00:00";
    untyped.mk "Quito" (untyped.Number 14.2) (untyped.Number 81) None
      (untyped.Number 2.6) "EC" "2024-05-01 10:00:01" ].


(** A cities file with blank lines, a line of blanks and names with blanks
    around them; every line ends with its newline character. *)
Definition sample_cities_lines : list string :=
  [ String " " (String " " ("London " +:+ String "010" EmptyString));
    String "010" EmptyString;
    String "009" (String " " (String "010" EmptyString));
    "New York" +:+ String "010" EmptyString;
    "Oslo" ].

(** * Properties *)

(** ** Substring test *)

Lemma append_String (b : ascii) (w post : string) :
  String.append (String b w) post = String b (String.append w post).
Proof. reflexivity. Qed.

Lemma startswith_spec (w s : string) :
  Str.startswith w s = true <-> exists post, s = String.append w post.
Proof.
  revert s; induction w as [|a w IH]; intros s; simpl.
  - split; [intros _; by exists s | done].
  - destruct s as [|b s].
    + split; [done | intros [post H]; discriminate].
    + destruct (decide (a = b)) as [->|Hne].
      * rewrite IH. split; intros [post H]; exists post;
          rewrite ?append_String in *; congruence.
      * split; [done | intros [post H]; rewrite append_String in H; congruence].
Qed.

Lemma contains_spec (w s : string) :
  Str.contains w s = true <-> Str.is_substring w s.
Proof.
  unfold Str.is_substring. induction s as [|b s IH].
  - simpl. rewrite orb_false_r, startswith_spec. split.
    + intros [post H]. by exists EmptyString, post.
    + intros [[|c pre] [post H]]; [by exists post | discriminate].
  - cbn [Str.contains]. rewrite orb_true_iff, startswith_spec, IH. split.
    + intros [[post H] | (pre & post & H)].
      * by exists EmptyString, post.
      * exists (String b pre), post. by rewrite append_String, H.
    + intros [[|c pre] [post H]].
      * left. by exists post.
      * right. exists pre, post. rewrite append_String in H. congruence.
Qed.

Lemma any_in_spec (ws : list string) (s : string) :
  Str.any_in ws s = true <-> exists w, w ∈ ws /\ Str.is_substring w s.
Proof.
  unfold Str.any_in. rewrite existsb_exists. split.
  - intros (w & Hin & Hc). exists w. by rewrite list_elem_of_In, <- contains_spec.
  - intros (w & Hin & Hc). exists w. by rewrite <- list_elem_of_In, contains_spec.
Qed.

(** ** The filling loops *)

Section fill.
Context {A : Type} (key val : A -> string).

Lemma fill_lookup (rows : list A) (m : gmap string (list string)) (k : string) :
  fold_left (fill_step key val) rows m !! k
  = (fun l => l ++ (val <$> filter (fun a => key a = k) rows)) <$> (m !! k).
Proof.
  revert m; induction rows as [|a rows IH]; intros m; simpl.
  - destruct (m !! k); simpl; [by rewrite app_nil_r | done].
  - rewrite IH. unfold fill_step, append_to. rewrite lookup_alter.
    rewrite filter_cons. destruct (decide (key a = k)) as [->|Hne].
    + destruct (m !! k); simpl; [|done].
      by rewrite <- app_assoc.
    + done.
Qed.

Lemma fill_dom (rows : list A) (m : gmap string (list string)) :
  dom (fold_left (fill_step key val) rows m) = dom m.
Proof.
  revert m; induction rows as [|a rows IH]; intros m; simpl; [done|].
  rewrite IH. unfold fill_step, append_to. by rewrite dom_alter_L.
Qed.
End fill.

(** ** The two cascades *)

Lemma matchesb_spec (c : category) (d : string) :
  matchesb c d = true <-> category_matches c d.
Proof.
  unfold category_matches. destruct c; cbn [matchesb]; rewrite ?any_in_spec;
    (split; [intros H; first [by right | by left] | intros [?|?]; done]).
Qed.

Lemma weather_branch_cascade (d : string) :
  weather_branch d =
  if matchesb clear d then clear else if matchesb rain d then rain
  else if matchesb clouds d then clouds else if matchesb snow d then snow
  else other.
Proof. reflexivity. Qed.

Lemma weather_branch_first_match (d : string) (c : category) :
  weather_branch d = c <-> first_match d c.
Proof.
  unfold first_match. rewrite <- matchesb_spec.
  setoid_rewrite <- matchesb_spec. rewrite weather_branch_cascade.
  destruct (matchesb clear d) eqn:E1, (matchesb rain d) eqn:E2,
    (matchesb clouds d) eqn:E3, (matchesb snow d) eqn:E4;
    (split;
     [ intros <-; split; [done|];
       intros c' Hlt; destruct c'; simpl in Hlt; try lia; congruence
     | intros [H1 H2];
       pose proof (H2 clear) as Hc; pose proof (H2 rain) as Hr;
       pose proof (H2 clouds) as Hl; pose proof (H2 snow) as Hs;
       destruct c; simpl in *; try done; try congruence;
       first [ by (exfalso; apply Hc; [lia | done])
             | by (exfalso; apply Hr; [lia | done])
             | by (exfalso; apply Hl; [lia | done])
             | by (exfalso; apply Hs; [lia | done]) ] ]).
Qed.

Lemma float_gt_spec (temp : cell) (th : Q) :
  float_gt temp th = true <-> exists q, temp = Some q /\ (th < q)%Q.
Proof.
  unfold float_gt. destruct temp as [q|].
  - destruct (Qlt_le_dec th q) as [Hlt|Hle].
    + split; [intros _; by exists q | done].
    + split; [done | intros (q' & [= <-] & Hlt)].
      exfalso. by apply (Qlt_not_le th q).
  - split; [done | intros (q & [=] & _)].
Qed.

Lemma exceedsb_spec (cfg : TempRanges) (temp : cell) (b : bucket) :
  exceedsb cfg temp b = true <-> exceeds cfg temp b.
Proof.
  unfold exceedsb, exceeds. destruct (threshold cfg b); [apply float_gt_spec | done].
Qed.

Lemma range_branch_cascade (cfg : TempRanges) (temp : cell) :
  range_branch cfg temp =
  if exceedsb cfg temp b_very_hot then b_very_hot
  else if exceedsb cfg temp b_hot then b_hot
  else if exceedsb cfg temp b_warm then b_warm
  else if exceedsb cfg temp b_moderate then b_moderate
  else if exceedsb cfg temp b_cool then b_cool
  else b_cold.
Proof. reflexivity. Qed.

Lemma range_branch_first_exceeded (cfg : TempRanges) (temp : cell) (b : bucket) :
  range_branch cfg temp = b <-> first_exceeded cfg temp b.
Proof.
  unfold first_exceeded. rewrite <- exceedsb_spec.
  setoid_rewrite <- exceedsb_spec. rewrite range_branch_cascade.
  assert (Hcold : exceedsb cfg temp b_cold = true) by reflexivity.
  destruct (exceedsb cfg temp b_very_hot) eqn:E1, (exceedsb cfg temp b_hot) eqn:E2,
    (exceedsb cfg temp b_warm) eqn:E3, (exceedsb cfg temp b_moderate) eqn:E4,
    (exceedsb cfg temp b_cool) eqn:E5;
    (split;
     [ intros <-; split; [done|];
       intros b' Hlt; destruct b'; simpl in Hlt; try lia; congruence
     | intros [H1 H2];
       pose proof (H2 b_very_hot) as Hv; pose proof (H2 b_hot) as Hh;
       pose proof (H2 b_warm) as Hw; pose proof (H2 b_moderate) as Hm;
       pose proof (H2 b_cool) as Hc;
       destruct b; simpl in *; try done; try congruence;
       first [ by (exfalso; apply Hv; [lia | done])
             | by (exfalso; apply Hh; [lia | done])
             | by (exfalso; apply Hw; [lia | done])
             | by (exfalso; apply Hm; [lia | done])
             | by (exfalso; apply Hc; [lia | done]) ] ]).
Qed.

(** ** What the two loops return *)

Lemma category_key_inj (c1 c2 : category) :
  category_key c1 = category_key c2 <-> c1 = c2.
Proof. split; [|by intros ->]. by destruct c1, c2. Qed.

Lemma bucket_key_inj (b1 b2 : bucket) :
  bucket_key b1 = bucket_key b2 <-> b1 = b2.
Proof. split; [|by intros ->]. by destruct b1, b2. Qed.

Lemma categorize_weather_lookup (df : DataFrame) (c : category) :
  df <> [] ->
  categorize_weather df !! category_key c
  = Some (city <$> filter (fun r => row_category r = c) df).
Proof.
  intros Hne. unfold categorize_weather. destruct df as [|r0 df]; [done|].
  cbn [empty].
  change categorize_step
    with (fill_step (fun r => category_key (row_category r)) city).
  rewrite fill_lookup.
  rewrite (list_filter_iff _ (fun r => row_category r = c))
    by (intros r; apply category_key_inj).
  by destruct c.
Qed.

Lemma get_temperature_ranges_lookup (cfg : TempRanges) (df : DataFrame) (b : bucket) :
  df <> [] ->
  get_temperature_ranges cfg df !! bucket_key b
  = Some (city <$> filter (fun r => row_bucket cfg r = b) df).
Proof.
  intros Hne. unfold get_temperature_ranges. destruct df as [|r0 df]; [done|].
  cbn [empty].
  change (ranges_step cfg)
    with (fill_step (fun r => bucket_key (row_bucket cfg r)) city).
  rewrite fill_lookup.
  rewrite (list_filter_iff _ (fun r => row_bucket cfg r = b))
    by (intros r; apply bucket_key_inj).
  by destruct b.
Qed.

Lemma categorize_weather_dom (df : DataFrame) :
  df <> [] ->
  dom (categorize_weather df)
  = list_to_set ["clear"; "rain"; "clouds"; "snow"; "other"].
Proof.
  intros Hne. unfold categorize_weather. destruct df as [|r0 df]; [done|].
  cbn [empty].
  change categorize_step
    with (fill_step (fun r => category_key (row_category r)) city).
  rewrite fill_dom. unfold weather_categories_init.
  rewrite !dom_insert_L, dom_empty_L. simpl. set_solver.
Qed.

Lemma get_temperature_ranges_dom (cfg : TempRanges) (df : DataFrame) :
  df <> [] ->
  dom (get_temperature_ranges cfg df)
  = list_to_set ["very_hot"; "hot"; "warm"; "moderate"; "cool"; "cold"].
Proof.
  intros Hne. unfold get_temperature_ranges. destruct df as [|r0 df]; [done|].
  cbn [empty].
  change (ranges_step cfg)
    with (fill_step (fun r => bucket_key (row_bucket cfg r)) city).
  rewrite fill_dom. unfold temp_ranges_init.
  rewrite !dom_insert_L, dom_empty_L. simpl. set_solver.
Qed.

Lemma categorize_weather_list (df : DataFrame) (c : category) :
  default [] (categorize_weather df !! category_key c)
  = city <$> filter (fun r => row_category r = c) df.
Proof.
  destruct df as [|r0 df]; [done|].
  by rewrite categorize_weather_lookup.
Qed.

Lemma five_way_split (f : Row -> category) (l : list Row) :
  (city <$> filter (fun r => f r = clear) l)
  ++ (city <$> filter (fun r => f r = rain) l)
  ++ (city <$> filter (fun r => f r = clouds) l)
  ++ (city <$> filter (fun r => f r = snow) l)
  ++ (city <$> filter (fun r => f r = other) l)
  ≡ₚ city <$> l.
Proof.
  induction l as [|a l IH]; [done|].
  rewrite !filter_cons. symmetry.
  destruct (f a) eqn:E; repeat case_decide; try done; cbn [fmap list_fmap];
    rewrite <- ?app_comm_cons.
  - by constructor.
  - apply Permutation_cons_app. by symmetry.
  - rewrite (app_assoc _ _ (city a :: _)).
    apply Permutation_cons_app. rewrite <- app_assoc. by symmetry.
  - rewrite (app_assoc _ _ (city a :: _)), (app_assoc _ _ (city a :: _)).
    apply Permutation_cons_app. rewrite <- !app_assoc. by symmetry.
  - rewrite (app_assoc _ _ (city a :: _)), (app_assoc _ _ (city a :: _)),
      (app_assoc _ _ (city a :: _)).
    apply Permutation_cons_app. rewrite <- !app_assoc. by symmetry.
Qed.

Lemma category_lists_perm (df : DataFrame) :
  concat (category_lists df) ≡ₚ city <$> df.
Proof.
  unfold category_lists. cbn [fmap list_fmap concat].
  rewrite !categorize_weather_list, app_nil_r.
  apply five_way_split.
Qed.

Lemma NoDup_fmap_elem_inj {A B : Type} (f : A -> B) (l : list A) (x y : A) :
  NoDup (f <$> l) -> x ∈ l -> y ∈ l -> f x = f y -> x = y.
Proof.
  induction l as [|a l IH]; intros Hnd Hx Hy Heq; [by apply elem_of_nil in Hx|].
  rewrite fmap_cons in Hnd. apply NoDup_cons in Hnd as [Hnotin Hnd].
  apply elem_of_cons in Hx as [->|Hx], Hy as [->|Hy]; try done.
  - exfalso. apply Hnotin. rewrite Heq. by apply list_elem_of_fmap_2.
  - exfalso. apply Hnotin. rewrite <- Heq. by apply list_elem_of_fmap_2.
  - by apply IH.
Qed.

Lemma in_category_iff (df : DataFrame) (x : string) (c : category) :
  in_category df x c <-> exists r, r ∈ df /\ city r = x /\ row_category r = c.
Proof.
  unfold in_category. split.
  - intros (l & Hl & Hx). destruct df as [|r0 df]; [done|].
    rewrite categorize_weather_lookup in Hl by done. injection Hl as <-.
    apply list_elem_of_fmap in Hx as (r & -> & Hr).
    apply list_elem_of_filter in Hr as [Hc Hr]. by exists r.
  - intros (r & Hr & <- & <-). eexists. split.
    + apply categorize_weather_lookup. intros ->. by apply elem_of_nil in Hr.
    + apply list_elem_of_fmap_2. by apply list_elem_of_filter.
Qed.

(** ** The extremum scan *)

Section scan.
Variable better : Q -> Q -> bool.
Hypothesis better_irrefl : forall x, better x x = false.
Hypothesis better_asym : forall x v, better v x = true -> better x v = false.
Hypothesis better_trans :
  forall b x v, better x b = true -> better v x = true -> better v b = true.
Hypothesis not_better_trans :
  forall x b v, better x b = false -> better v b = true -> better v x = true.

Lemma scan_inv (col : list cell) :
  forall (i : nat) (best : option (nat * Q)),
    match pd.scan better i best col with
    | Some (j, v) =>
        (forall k x, col !! k = Some (Some x) -> better x v = false) /\
        (best = Some (j, v) \/
         exists k, j = (i + k)%nat /\ col !! k = Some (Some v) /\
           (forall k' x, (k' < k)%nat -> col !! k' = Some (Some x) ->
                         better v x = true) /\
           (forall j' b, best = Some (j', b) -> better v b = true))
    | None => best = None /\ forall k x, col !! k <> Some (Some x)
    end.
Proof.
  induction col as [|[x|] col IH]; intros i best; cbn [pd.scan].
  - destruct best as [[j v]|]; [|done].
    split; [intros k x Hk; by rewrite lookup_nil in Hk | by left].
  - assert (Hnew :
      (forall j' b, best = Some (j', b) -> better x b = true) ->
      match pd.scan better (S i) (Some (i, x)) col with
      | Some (j, v) =>
          (forall k y, (Some x :: col) !! k = Some (Some y) -> better y v = false) /\
          (best = Some (j, v) \/
           exists k, j = (i + k)%nat /\ (Some x :: col) !! k = Some (Some v) /\
             (forall k' y, (k' < k)%nat -> (Some x :: col) !! k' = Some (Some y) ->
                           better v y = true) /\
             (forall j' b, best = Some (j', b) -> better v b = true))
      | None => best = None /\ forall k y, (Some x :: col) !! k <> Some (Some y)
      end).
    { intros Hb. specialize (IH (S i) (Some (i, x))).
      destruct (pd.scan better (S i) (Some (i, x)) col) as [[j v]|];
        [|by destruct IH].
      destruct IH as [Hall [[= <- <-] | (k & -> & Hk & Hbefore & Hbest)]].
      - split.
        + intros [|k] y Hk; [injection Hk as <-; apply better_irrefl|].
          by apply (Hall k).
        + right. exists 0%nat. repeat split; [lia | | done].
          intros k' y Hlt; lia.
      - assert (Hvx : better v x = true) by by apply (Hbest i).
        split.
        + intros [|k'] y Hk'; [injection Hk' as <-; by apply better_asym|].
          by apply (Hall k').
        + right. exists (S k). repeat split; [lia | done | |].
          * intros [|k'] y Hlt Hk'; [by injection Hk' as <-|].
            apply (Hbefore k'); [lia | done].
          * intros j' b Hjb. eapply better_trans; [by eapply Hb | done]. }
    destruct best as [[j0 b]|].
    + destruct (better x b) eqn:Hxb.
      * apply Hnew. by intros j' b' [= <- <-].
      * specialize (IH (S i) (Some (j0, b))).
        destruct (pd.scan better (S i) (Some (j0, b)) col) as [[j v]|];
          [|by destruct IH].
        destruct IH as [Hall [[= <- <-] | (k & -> & Hk & Hbefore & Hbest)]].
        -- split; [|by left].
           intros [|k] y Hk; [by injection Hk as <-|]. by apply (Hall k).
        -- assert (Hvb : better v b = true) by by apply (Hbest j0).
           assert (Hvx : better v x = true) by by eapply not_better_trans.
           split.
           ++ intros [|k'] y Hk'; [injection Hk' as <-; by apply better_asym|].
              by apply (Hall k').
           ++ right. exists (S k). repeat split; [lia | done | |].
              ** intros [|k'] y Hlt Hk'; [by injection Hk' as <-|].
                 apply (Hbefore k'); [lia | done].
              ** by intros j' b' [= <- <-].
    + apply Hnew. by intros j' b [=].
  - specialize (IH (S i) best).
    destruct (pd.scan better (S i) best col) as [[j v]|].
    + destruct IH as [Hall [-> | (k & -> & Hk & Hbefore & Hbest)]].
      * split; [|by left].
        intros [|k] y Hk; [done|]. by apply (Hall k).
      * split.
        -- intros [|k'] y Hk'; [done|]. by apply (Hall k').
        -- right. exists (S k). repeat split; [lia | done | | done].
           intros [|k'] y Hlt Hk'; [done|].
           apply (Hbefore k'); [lia | done].
    + destruct IH as [-> Hnone]. split; [done|].
      intros [|k] y Hk; [done|]. by apply (Hnone k y).
Qed.

Lemma scan_first_best (col : list cell) (j : nat) (v : Q) :
  pd.scan better 0 None col = Some (j, v) -> first_best better col j v.
Proof.
  intros Hs. pose proof (scan_inv col 0 None) as H. rewrite Hs in H.
  destruct H as [Hall [[=] | (k & -> & Hk & Hbefore & _)]].
  by repeat split.
Qed.

Lemma scan_None (col : list cell) :
  pd.scan better 0 None col = None -> forall k x, col !! k <> Some (Some x).
Proof.
  intros Hs. pose proof (scan_inv col 0 None) as H. rewrite Hs in H.
  by destruct H.
Qed.
End scan.

(** ** The two orders of the scan *)

Lemma gt_true (x b : Q) : pd.gt x b = true <-> (b < x)%Q.
Proof.
  unfold pd.gt. destruct (Qlt_le_dec b x) as [H|H]; [done|].
  split; [done | intros H'; exfalso; by apply (Qlt_not_le b x)].
Qed.

Lemma gt_false (x b : Q) : pd.gt x b = false <-> (x <= b)%Q.
Proof.
  unfold pd.gt. destruct (Qlt_le_dec b x) as [H|H]; [|done].
  split; [done | intros H'; exfalso; by apply (Qlt_not_le b x)].
Qed.

Lemma lt_true (x b : Q) : pd.lt x b = true <-> (x < b)%Q.
Proof.
  unfold pd.lt. destruct (Qlt_le_dec x b) as [H|H]; [done|].
  split; [done | intros H'; exfalso; by apply (Qlt_not_le x b)].
Qed.

Lemma lt_false (x b : Q) : pd.lt x b = false <-> (b <= x)%Q.
Proof.
  unfold pd.lt. destruct (Qlt_le_dec x b) as [H|H]; [|done].
  split; [done | intros H'; exfalso; by apply (Qlt_not_le x b)].
Qed.

Lemma gt_irrefl (x : Q) : pd.gt x x = false.
Proof. apply gt_false, Qle_refl. Qed.

Lemma gt_asym (x v : Q) : pd.gt v x = true -> pd.gt x v = false.
Proof. rewrite gt_true, gt_false. apply Qlt_le_weak. Qed.

Lemma gt_trans (b x v : Q) :
  pd.gt x b = true -> pd.gt v x = true -> pd.gt v b = true.
Proof. rewrite !gt_true. apply Qlt_trans. Qed.

Lemma gt_not_trans (x b v : Q) :
  pd.gt x b = false -> pd.gt v b = true -> pd.gt v x = true.
Proof. rewrite gt_false, !gt_true. apply Qle_lt_trans. Qed.

Lemma lt_irrefl (x : Q) : pd.lt x x = false.
Proof. apply lt_false, Qle_refl. Qed.

Lemma lt_asym (x v : Q) : pd.lt v x = true -> pd.lt x v = false.
Proof. rewrite lt_true, lt_false. apply Qlt_le_weak. Qed.

Lemma lt_trans (b x v : Q) :
  pd.lt x b = true -> pd.lt v x = true -> pd.lt v b = true.
Proof. rewrite !lt_true. intros H1 H2. by apply (Qlt_trans v x b). Qed.

Lemma lt_not_trans (x b v : Q) :
  pd.lt x b = false -> pd.lt v b = true -> pd.lt v x = true.
Proof. rewrite lt_false, !lt_true. intros H1 H2. by apply (Qlt_le_trans v b x). Qed.

Lemma scan_gt_first_best (col : list cell) (j : nat) (v : Q) :
  pd.scan pd.gt 0 None col = Some (j, v) -> first_best pd.gt col j v.
Proof.
  apply scan_first_best;
    eauto using gt_irrefl, gt_asym, gt_trans, gt_not_trans.
Qed.

Lemma scan_lt_first_best (col : list cell) (j : nat) (v : Q) :
  pd.scan pd.lt 0 None col = Some (j, v) -> first_best pd.lt col j v.
Proof.
  apply scan_first_best;
    eauto using lt_irrefl, lt_asym, lt_trans, lt_not_trans.
Qed.

Lemma scan_is_Some (better : Q -> Q -> bool) (col : list cell) (i : nat)
  (best : option (nat * Q)) :
  (is_Some best \/ exists x, Some x ∈ col) ->
  is_Some (pd.scan better i best col).
Proof.
  revert i best; induction col as [|[x|] col IH]; intros i best H; cbn [pd.scan].
  - destruct H as [H | [x H]]; [done | by apply elem_of_nil in H].
  - destruct best as [[j b]|]; [destruct (better x b)|]; apply IH; left; done.
  - apply IH. destruct H as [H | [x H]]; [by left|].
    right. exists x. by apply elem_of_cons in H as [|].
Qed.

(** ** Mean, median and rounding stay between the bounds *)

Lemma sum_lower (lo : Q) (xs : list Q) :
  (forall x, x ∈ xs -> (lo <= x)%Q) ->
  (lo * inject_Z (Z.of_nat (length xs)) <= pd.sum xs)%Q.
Proof.
  induction xs as [|x xs IH]; intros H.
  - change (lo * 0 <= 0)%Q. lra.
  - cbn [length pd.sum fold_right].
    rewrite Nat2Z.inj_succ. unfold Z.succ. rewrite inject_Z_plus.
    assert (lo <= x)%Q by (apply H; left).
    assert (lo * inject_Z (Z.of_nat (length xs)) <= pd.sum xs)%Q
      by (apply IH; intros y Hy; apply H; by right).
    unfold pd.sum in *. change (inject_Z 1) with 1%Q. lra.
Qed.

Lemma sum_upper (hi : Q) (xs : list Q) :
  (forall x, x ∈ xs -> (x <= hi)%Q) ->
  (pd.sum xs <= hi * inject_Z (Z.of_nat (length xs)))%Q.
Proof.
  induction xs as [|x xs IH]; intros H.
  - change (0 <= hi * 0)%Q. lra.
  - cbn [length pd.sum fold_right].
    rewrite Nat2Z.inj_succ. unfold Z.succ. rewrite inject_Z_plus.
    assert (x <= hi)%Q by (apply H; left).
    assert (pd.sum xs <= hi * inject_Z (Z.of_nat (length xs)))%Q
      by (apply IH; intros y Hy; apply H; by right).
    unfold pd.sum in *. change (inject_Z 1) with 1%Q. lra.
Qed.

Lemma length_pos_Q {A : Type} (xs : list A) :
  xs <> [] -> (0 < inject_Z (Z.of_nat (length xs)))%Q.
Proof.
  intros H. destruct xs as [|x xs]; [done|].
  change 0%Q with (inject_Z 0). rewrite <- Zlt_Qlt. simpl. lia.
Qed.

Lemma mean_between (lo hi : Q) (col : list cell) :
  pd.dropna col <> [] ->
  (forall x, x ∈ pd.dropna col -> (lo <= x <= hi)%Q) ->
  exists m, pd.mean col = Some m /\ (lo <= m <= hi)%Q.
Proof.
  intros Hne Hb. unfold pd.mean.
  destruct (pd.dropna col) as [|x xs] eqn:E; [done|].
  eexists. split; [done|]. split.
  - apply Qle_shift_div_l; [by apply length_pos_Q|].
    apply sum_lower. intros y Hy. by apply Hb.
  - apply Qle_shift_div_r; [by apply length_pos_Q|].
    apply sum_upper. intros y Hy. by apply Hb.
Qed.

Lemma insert_sorted_perm (x : Q) (l : list Q) :
  pd.insert_sorted x l ≡ₚ x :: l.
Proof.
  induction l as [|y l IH]; [done|]. simpl.
  destruct (Qle_bool x y); [done|].
  rewrite IH. apply perm_swap.
Qed.

Lemma sort_values_perm (l : list Q) : pd.sort_values l ≡ₚ l.
Proof.
  induction l as [|x l IH]; [done|]. simpl.
  by rewrite insert_sorted_perm, IH.
Qed.

Lemma nth_elem_of (l : list Q) (n : nat) :
  (n < length l)%nat -> nth n l 0%Q ∈ l.
Proof.
  intros H. destruct (lookup_lt_is_Some_2 l n H) as [x Hx].
  rewrite (nth_lookup_Some l n 0%Q x Hx).
  apply list_elem_of_lookup. by exists n.
Qed.

Lemma half_between (a b lo hi : Q) :
  (lo <= a <= hi)%Q -> (lo <= b <= hi)%Q -> (lo <= (a + b) / 2 <= hi)%Q.
Proof.
  intros [? ?] [? ?].
  assert ((a + b) / 2 == (a + b) * (1 # 2))%Q as -> by field.
  split; lra.
Qed.

Lemma median_between (lo hi : Q) (col : list cell) :
  pd.dropna col <> [] ->
  (forall x, x ∈ pd.dropna col -> (lo <= x <= hi)%Q) ->
  exists m, pd.median col = Some m /\ (lo <= m <= hi)%Q.
Proof.
  intros Hne Hb. unfold pd.median.
  pose proof (sort_values_perm (pd.dropna col)) as Hp.
  set (xs := pd.sort_values (pd.dropna col)) in *.
  assert (Hb' : forall x, x ∈ xs -> (lo <= x <= hi)%Q).
  { intros x Hx. apply Hb. by rewrite <- Hp. }
  assert (Hlen : (0 < length xs)%nat).
  { rewrite Hp. destruct (pd.dropna col); [done | simpl; lia]. }
  destruct xs as [|x0 xs'] eqn:E; [simpl in Hlen; lia|]. rewrite <- E in *.
  clear E. destruct (Nat.odd (length xs)) eqn:Hodd.
  - eexists. split; [done|]. apply Hb', nth_elem_of.
    apply Nat.div_lt; lia.
  - eexists. split; [done|].
    assert (Hhalf : (length xs / 2 < length xs)%nat) by (apply Nat.div_lt; lia).
    apply half_between; apply Hb', nth_elem_of; lia.
Qed.

Lemma rint_ge (k : Z) (y : Q) : (inject_Z k <= y)%Q -> (k <= rint y)%Z.
Proof.
  intros H. apply Qfloor_resp_le in H. rewrite Qfloor_Z in H.
  unfold rint. destruct (_ ?= _)%Q; [destruct (Z.even _)| |]; lia.
Qed.

Lemma rint_le (k : Z) (y : Q) : (y <= inject_Z k)%Q -> (rint y <= k)%Z.
Proof.
  intros H. pose proof (Qfloor_resp_le _ _ H) as Hf. rewrite Qfloor_Z in Hf.
  destruct (decide (Qfloor y = k)) as [Heq|Hne].
  - assert (Hlt : (y - inject_Z (Qfloor y) < 1 # 2)%Q) by (rewrite Heq; lra).
    unfold rint. destruct (_ ?= _)%Q eqn:E; [| lia |].
    + apply Qeq_alt in E. lra.
    + apply Qgt_alt in E. lra.
  - unfold rint. destruct (_ ?= _)%Q; [destruct (Z.even _)| |]; lia.
Qed.

Lemma round1_between (kl kh : Z) (lo hi m : Q) :
  (lo == inject_Z kl / 10)%Q -> (hi == inject_Z kh / 10)%Q ->
  (lo <= m <= hi)%Q ->
  exists a, round1 (Some m) = Some a /\ (lo <= a <= hi)%Q.
Proof.
  intros Hlo Hhi [H1 H2]. eexists. split; [done|].
  assert (Elo : (inject_Z kl / 10 == inject_Z kl * (1 # 10))%Q) by field.
  assert (Ehi : (inject_Z kh / 10 == inject_Z kh * (1 # 10))%Q) by field.
  assert (Hk1 : (kl <= rint (m * 10))%Z) by (apply rint_ge; lra).
  assert (Hk2 : (rint (m * 10) <= kh)%Z) by (apply rint_le; lra).
  rewrite Zle_Qle in Hk1, Hk2.
  assert (E : (inject_Z (rint (m * 10)) / 10
               == inject_Z (rint (m * 10)) * (1 # 10))%Q) by field.
  rewrite E. split; lra.
Qed.


Lemma rint_near (y : Q) :
  (y - (1 # 2) <= inject_Z (rint y) <= y + (1 # 2))%Q.
Proof.
  pose proof (Qfloor_le y) as Hlo. pose proof (Qlt_floor y) as Hhi.
  rewrite inject_Z_plus in Hhi. change (inject_Z 1) with 1%Q in Hhi.
  unfold rint. destruct (_ ?= _)%Q eqn:E.
  - apply Qeq_alt in E. destruct (Z.even (Qfloor y)).
    + split; lra.
    + rewrite inject_Z_plus. change (inject_Z 1) with 1%Q. split; lra.
  - apply Qlt_alt in E. split; lra.
  - apply Qgt_alt in E. rewrite inject_Z_plus.
    change (inject_Z 1) with 1%Q. split; lra.
Qed.

(** ** The arithmetic that does not round, and one that does *)

Lemma dropna_Some (xs : list Q) : pd.dropna (Some <$> xs) = xs.
Proof.
  unfold pd.dropna. induction xs as [|x xs IH]; [done|].
  rewrite fmap_cons. cbn [omap list_omap id]. by rewrite IH.
Qed.

Lemma mean_with_exact (col : list cell) : mean_with exact_ops col = pd.mean col.
Proof. unfold mean_with, pd.mean. by destruct (pd.dropna col). Qed.

Lemma median_with_exact (col : list cell) :
  median_with exact_ops col = pd.median col.
Proof.
  unfold median_with, pd.median. cbn [series_median exact_ops].
  unfold exact_median.
  pose proof (sort_values_perm (pd.dropna col)) as Hp.
  destruct (pd.dropna col) as [|x xs]; [reflexivity|].
  set (l := x :: xs) in *. cbv zeta.
  destruct (pd.sort_values l) as [|y ys];
    [|by destruct (Nat.odd (length (y :: ys)))].
  by apply Permutation_nil_cons in Hp.
Qed.

Lemma get_temperature_stats_with_exact (df : DataFrame) :
  get_temperature_stats_with exact_ops df = get_temperature_stats df.
Proof.
  unfold get_temperature_stats_with, get_temperature_stats.
  by rewrite mean_with_exact, median_with_exact.
Qed.

Lemma get_wind_stats_with_exact (df : DataFrame) :
  get_wind_stats_with exact_ops df = get_wind_stats df.
Proof.
  unfold get_wind_stats_with, get_wind_stats. by rewrite mean_with_exact.
Qed.

Lemma exact_mean_between (lo hi : Q) (xs : list Q) :
  xs <> [] -> (forall x, x ∈ xs -> (lo <= x <= hi)%Q) ->
  (lo <= exact_mean xs <= hi)%Q.
Proof.
  intros Hne Hb. unfold exact_mean. split.
  - apply Qle_shift_div_l; [by apply length_pos_Q|].
    apply sum_lower. intros y Hy. by apply Hb.
  - apply Qle_shift_div_r; [by apply length_pos_Q|].
    apply sum_upper. intros y Hy. by apply Hb.
Qed.

Lemma exact_median_between (lo hi : Q) (xs : list Q) :
  xs <> [] -> (forall x, x ∈ xs -> (lo <= x <= hi)%Q) ->
  (lo <= exact_median xs <= hi)%Q.
Proof.
  intros Hne Hb.
  destruct (median_between lo hi (Some <$> xs)) as (m & Hm & Hmb).
  { by rewrite dropna_Some. }
  { by rewrite dropna_Some. }
  rewrite <- median_with_exact in Hm. unfold median_with in Hm.
  rewrite dropna_Some in Hm. destruct xs as [|x xs]; [done|].
  by injection Hm as <-.
Qed.

Lemma exact_round1_near (y : Q) :
  exists j : Z, (exact_round1 y == inject_Z j / 10)%Q /\
    (y - (1 # 20) - eps <= inject_Z j / 10 <= y + (1 # 20) + eps)%Q.
Proof.
  exists (rint (y * 10)). split; [reflexivity|].
  pose proof (rint_near (y * 10)) as [H1 H2].
  assert (E : (inject_Z (rint (y * 10)) / 10
               == inject_Z (rint (y * 10)) * (1 # 10))%Q) by field.
  rewrite E. unfold eps. split; lra.
Qed.

Lemma exact_ops_accurate (B : Q) (N : nat) : accurate exact_ops B N.
Proof.
  constructor; cbn [fl series_mean series_median np_round1 py_round1 exact_ops].
  - done.
  - intros x _. unfold eps. split; lra.
  - intros xs lo hi Hne _ _ _ Hb.
    destruct (exact_mean_between lo hi xs Hne Hb). unfold eps. split; lra.
  - intros xs lo hi Hne _ _ _ Hb.
    destruct (exact_median_between lo hi xs Hne Hb). unfold eps. split; lra.
  - intros y _. apply exact_round1_near.
  - intros y _. apply exact_round1_near.
Qed.

Lemma low_ops_accurate (B : Q) (N : nat) : accurate low_ops B N.
Proof.
  constructor; cbn [fl series_mean series_median np_round1 py_round1 low_ops].
  - done.
  - intros x _. unfold eps. split; lra.
  - intros xs lo hi Hne _ _ _ Hb.
    destruct (exact_mean_between lo hi xs Hne Hb). unfold eps. split; lra.
  - intros xs lo hi Hne _ _ _ Hb.
    destruct (exact_median_between lo hi xs Hne Hb). unfold eps. split; lra.
  - intros y _. apply exact_round1_near.
  - intros y _. apply exact_round1_near.
Qed.

(** ** Rounding in an accurate arithmetic stays between the bounds *)

Lemma tenth_le (a b : Z) :
  (inject_Z a / 10 - (9 # 100) <= inject_Z b / 10)%Q -> (a <= b)%Z.
Proof.
  intros H.
  assert (Ea : (inject_Z a / 10 == inject_Z a * (1 # 10))%Q) by field.
  assert (Eb : (inject_Z b / 10 == inject_Z b * (1 # 10))%Q) by field.
  rewrite Ea, Eb in H.
  destruct (Z_le_gt_dec a b) as [Hle|Hgt]; [done|].
  assert (Hz : (b + 1 <= a)%Z) by lia.
  rewrite Zle_Qle, inject_Z_plus in Hz. change (inject_Z 1) with 1%Q in Hz. lra.
Qed.

Lemma tenth_mono (a b : Z) :
  (a <= b)%Z -> (inject_Z a / 10 <= inject_Z b / 10)%Q.
Proof.
  intros H. rewrite Zle_Qle in H.
  assert (Ea : (inject_Z a / 10 == inject_Z a * (1 # 10))%Q) by field.
  assert (Eb : (inject_Z b / 10 == inject_Z b * (1 # 10))%Q) by field.
  rewrite Ea, Eb. lra.
Qed.

Lemma one_decimal_float_bounds (ops : float_ops) (B : Q) (N : nat) (q : Q) :
  accurate ops B N -> one_decimal_float ops B q -> (- B <= q <= B)%Q.
Proof.
  intros Hacc (k & Hq & Hk1 & Hk2).
  destruct (fl_near ops B N Hacc (inject_Z k / 10)) as [H1 H2].
  { split; lra. }
  rewrite Hq. unfold eps in *. split; lra.
Qed.

Lemma round1_with_between (ops : float_ops) (B : Q) (N : nat) (lo hi y : Q) :
  accurate ops B N ->
  one_decimal_float ops B lo -> one_decimal_float ops B hi ->
  (lo - eps <= y <= hi + eps)%Q ->
  (lo <= np_round1 ops y <= hi)%Q.
Proof.
  intros Hacc (kl & Hlo & Hl1 & Hl2) (kh & Hhi & Hh1 & Hh2) [Hy1 Hy2].
  destruct (fl_near ops B N Hacc (inject_Z kl / 10)) as [Hfl1 Hfl2].
  { split; lra. }
  destruct (fl_near ops B N Hacc (inject_Z kh / 10)) as [Hfh1 Hfh2].
  { split; lra. }
  rewrite <- Hlo in Hfl1, Hfl2. rewrite <- Hhi in Hfh1, Hfh2.
  unfold eps in *.
  destruct (np_round1_near ops B N Hacc y) as (j & Hj & Hj1 & Hj2).
  { split; lra. }
  unfold eps in *. rewrite Hj, Hlo, Hhi. split.
  - apply (fl_monotone ops B N Hacc), tenth_mono, tenth_le. lra.
  - apply (fl_monotone ops B N Hacc), tenth_mono, tenth_le. lra.
Qed.

(** ** Labels and rows *)

Section rows.
Variable better : Q -> Q -> bool.
Variable g : Row -> cell.

Lemma linked_app (pre : list Row) (r : Row) best bestr :
  linked pre best bestr -> linked (pre ++ [r]) best bestr.
Proof.
  destruct best as [[j b]|], bestr as [[r' b']|]; simpl; try done.
  intros [-> H]. split; [done|]. by apply lookup_app_l_Some.
Qed.

Lemma scan_scan_rows (rows : list Row) :
  forall (pre : list Row) best bestr,
    linked pre best bestr ->
    linked (pre ++ rows)
      (pd.scan better (length pre) best (g <$> rows))
      (scan_rows better g bestr rows).
Proof.
  induction rows as [|r rows IH]; intros pre best bestr Hl.
  - by rewrite app_nil_r.
  - rewrite fmap_cons. cbn [pd.scan scan_rows].
    assert (Hlen : S (length pre) = length (pre ++ [r]))
      by (rewrite length_app; simpl; lia).
    rewrite (cons_middle r pre rows), app_assoc, Hlen.
    assert (Hnew : forall x, linked (pre ++ [r]) (Some (length pre, x)) (Some (r, x))).
    { intros x. split; [done|]. by rewrite lookup_app_r, Nat.sub_diag. }
    destruct (g r) as [x|]; [|by apply IH, linked_app].
    destruct best as [[j b]|], bestr as [[r' b']|]; try done.
    + destruct Hl as [<- Hj]. destruct (better x b).
      * apply IH, Hnew.
      * apply IH, linked_app. by split.
    + apply IH, Hnew.
Qed.

Lemma scan_rows_carrying (rows : list Row) (bestr : option (Row * Q)) :
  scan_rows better g bestr (carrying g rows) = scan_rows better g bestr rows.
Proof.
  unfold carrying. revert bestr; induction rows as [|r rows IH]; intros bestr; [done|].
  rewrite filter_cons. destruct (decide (is_Some (g r))) as [[x Hx]|Hn].
  - cbn [scan_rows]. rewrite Hx.
    destruct bestr as [[r' b]|]; [destruct (better x b)|]; apply IH.
  - cbn [scan_rows]. destruct (g r) as [x|]; [by destruct Hn|]. apply IH.
Qed.

Lemma scan_value_rows (df : DataFrame) :
  snd <$> pd.scan better 0 None (g <$> df) = snd <$> scan_rows better g None df.
Proof.
  pose proof (scan_scan_rows df [] None None I) as H. simpl in H.
  destruct (pd.scan _ _ _ _) as [[j v]|], (scan_rows _ _ _ _) as [[r v']|];
    try done.
  by destruct H as [-> _].
Qed.

Lemma loc_city_rows (df : DataFrame) :
  pd.loc_city df (fst <$> pd.scan better 0 None (g <$> df))
  = match scan_rows better g None df with
    | Some (r, _) => Ok (city r)
    | None => Raise KeyError
    end.
Proof.
  pose proof (scan_scan_rows df [] None None I) as H. simpl in H.
  destruct (pd.scan _ _ _ _) as [[j v]|], (scan_rows _ _ _ _) as [[r v']|];
    try done.
  destruct H as [_ H]. simpl. by rewrite H.
Qed.

Lemma dropna_carrying (df : DataFrame) :
  pd.dropna (g <$> carrying g df) = pd.dropna (g <$> df).
Proof.
  unfold carrying, pd.dropna. induction df as [|r df IH]; [done|].
  rewrite filter_cons. destruct (decide (is_Some (g r))) as [[x Hx]|Hn].
  - rewrite !fmap_cons. cbn [omap list_omap]. rewrite Hx. simpl. by f_equal.
  - rewrite fmap_cons. cbn [omap list_omap].
    destruct (g r) as [x|]; [by destruct Hn|]. done.
Qed.

Lemma scan_rows_is_Some (rows : list Row) (bestr : option (Row * Q)) :
  is_Some bestr \/ carrying g rows <> [] ->
  is_Some (scan_rows better g bestr rows).
Proof.
  unfold carrying. revert bestr; induction rows as [|r rows IH]; intros bestr H.
  - by destruct H.
  - cbn [scan_rows]. rewrite filter_cons in H.
    destruct (g r) as [x|] eqn:E.
    + destruct bestr as [[r' b]|]; [destruct (better x b)|]; apply IH; by left.
    + apply IH. destruct H as [H|H]; [by left|]. right.
      destruct (decide (is_Some None)) as [[? ?]|]; done.
Qed.

Lemma scan_rows_None (rows : list Row) :
  carrying g rows = [] -> scan_rows better g None rows = None.
Proof.
  unfold carrying. induction rows as [|r rows IH]; [done|].
  rewrite filter_cons. cbn [scan_rows].
  destruct (decide (is_Some (g r))) as [|Hn]; [done|].
  destruct (g r) as [x|]; [by destruct Hn|]. apply IH.
Qed.
End rows.

(** ** Frames built from records *)

Lemma empty_false (df : DataFrame) : df <> [] -> empty df = false.
Proof. by destruct df. Qed.

Section frame.
Variable better : Q -> Q -> bool.
Hypothesis scan_best :
  forall col j v, pd.scan better 0 None col = Some (j, v) ->
                  first_best better col j v.
Variable g : Row -> cell.
Variable f : WeatherRecord.t -> Q.
Hypothesis g_f : forall r, g (to_row r) = Some (f r).

Lemma frame_lookup (rs : list WeatherRecord.t) (k : nat) :
  (g <$> frame_of rs) !! k = (fun r => Some (f r)) <$> (rs !! k).
Proof.
  unfold frame_of. rewrite !list_lookup_fmap.
  destruct (rs !! k); simpl; [by rewrite g_f | done].
Qed.

Lemma frame_dropna (rs : list WeatherRecord.t) :
  pd.dropna (g <$> frame_of rs) = f <$> rs.
Proof.
  unfold pd.dropna, frame_of. induction rs as [|r rs IH]; [done|].
  rewrite !fmap_cons. cbn [omap list_omap]. rewrite g_f. simpl. by f_equal.
Qed.

Lemma frame_extremum (r0 : WeatherRecord.t) (rs' : list WeatherRecord.t) :
  let rs := r0 :: rs' in
  exists j r,
    rs !! j = Some r /\
    pd.scan better 0 None (g <$> frame_of rs) = Some (j, f r) /\
    pd.loc_city (frame_of rs) (Some j) = Ok (WeatherRecord.city r) /\
    (forall r', r' ∈ rs -> better (f r') (f r) = false) /\
    (forall k r', (k < j)%nat -> rs !! k = Some r' -> better (f r) (f r') = true).
Proof.
  intros rs.
  destruct (scan_is_Some better (g <$> frame_of rs) 0 None) as [[j v] Hs].
  { right. exists (f r0). unfold rs, frame_of. rewrite !fmap_cons, g_f. left. }
  destruct (scan_best _ _ _ Hs) as (Hj & Hall & Hbefore).
  rewrite frame_lookup in Hj.
  destruct (rs !! j) as [r|] eqn:Hr; [|done]. injection Hj as <-.
  exists j, r. repeat split; [done | done | | |].
  - unfold pd.loc_city, frame_of. by rewrite list_lookup_fmap, Hr.
  - intros r' Hin. apply list_elem_of_lookup in Hin as [k Hk].
    apply (Hall k). by rewrite frame_lookup, Hk.
  - intros k r' Hlt Hk. apply (Hbefore k); [done|].
    by rewrite frame_lookup, Hk.
Qed.
End frame.

Lemma temperature_to_row (r : WeatherRecord.t) :
  temperature (to_row r) = Some (WeatherRecord.temperature r).
Proof. reflexivity. Qed.

Lemma humidity_to_row (r : WeatherRecord.t) :
  humidity (to_row r) = Some (inject_Z (WeatherRecord.humidity r)).
Proof. reflexivity. Qed.

Lemma wind_speed_to_row (r : WeatherRecord.t) :
  wind_speed (to_row r) = Some (WeatherRecord.wind_speed r).
Proof. reflexivity. Qed.

(** The two extremal cities of a column of a frame built from records. *)
Lemma frame_cities (g : Row -> cell) (f : WeatherRecord.t -> Q)
  (r0 : WeatherRecord.t) (rs' : list WeatherRecord.t) :
  (forall r, g (to_row r) = Some (f r)) ->
  let rs := r0 :: rs' in
  exists rh rl,
    pd.max (g <$> frame_of rs) = Some (f rh) /\
    pd.min (g <$> frame_of rs) = Some (f rl) /\
    pd.loc_city (frame_of rs) (pd.idxmax (g <$> frame_of rs))
      = Ok (WeatherRecord.city rh) /\
    pd.loc_city (frame_of rs) (pd.idxmin (g <$> frame_of rs))
      = Ok (WeatherRecord.city rl) /\
    rh ∈ rs /\ rl ∈ rs /\
    (forall r, r ∈ rs -> (f rl <= f r <= f rh)%Q) /\
    first_attaining Qle f rs (WeatherRecord.city rh) /\
    first_attaining (fun x y => (y <= x)%Q) f rs (WeatherRecord.city rl).
Proof.
  intros Hgf rs.
  destruct (frame_extremum pd.gt scan_gt_first_best g f Hgf r0 rs')
    as (jh & rh & Hjh & Hsh & Hch & Hallh & Hbefh).
  destruct (frame_extremum pd.lt scan_lt_first_best g f Hgf r0 rs')
    as (jl & rl & Hjl & Hsl & Hcl & Halll & Hbefl).
  fold rs in Hjh, Hsh, Hch, Hallh, Hbefh, Hjl, Hsl, Hcl, Halll, Hbefl.
  exists rh, rl. unfold pd.max, pd.min, pd.idxmax, pd.idxmin.
  rewrite Hsh, Hsl. repeat split; try done.
  - by apply list_elem_of_lookup_2 with jh.
  - by apply list_elem_of_lookup_2 with jl.
  - by apply lt_false, Halll.
  - by apply gt_false, Hallh.
  - exists jh, rh. repeat split; try done.
    + intros r' Hin. by apply gt_false, Hallh.
    + intros k r' Hlt Hk Heq. apply (Hbefh k r' Hlt) in Hk.
      apply gt_true in Hk. rewrite Heq in Hk. by apply Qlt_irrefl in Hk.
  - exists jl, rl. repeat split; try done.
    + intros r' Hin. by apply lt_false, Halll.
    + intros k r' Hlt Hk Heq. apply (Hbefl k r' Hlt) in Hk.
      apply lt_true in Hk. rewrite Heq in Hk. by apply Qlt_irrefl in Hk.
Qed.

(** ** The categorisation and the temperature ranges *)

Lemma filter_none {A : Type} (P : A -> Prop) `{!forall x, Decision (P x)}
  (l : list A) :
  Forall (fun x => ~ P x) l -> filter P l = [].
Proof.
  induction 1 as [|x l Hx Hl IH]; [done|].
  rewrite filter_cons. by destruct (decide (P x)).
Qed.

(** C1. For every threshold configuration and every non-empty frame, the
    list stored under a range is the cities, in record order, of exactly the
    records whose bucket is that range, and the bucket of a record is the
    first one, in the order very_hot, hot, warm, moderate, cool, whose
    threshold its temperature strictly exceeds, cold when it exceeds none.
    With the default thresholds a temperature of exactly 35 falls into hot
    and a temperature of 35.1 into very_hot. *)
Theorem temperature_ranges_first_exceeded (cfg : TempRanges) (row : Row)
  (rows : DataFrame) :
  let df := row :: rows in
  (forall b, get_temperature_ranges cfg df !! bucket_key b
             = Some (city <$> filter (fun r => row_bucket cfg r = b) df)) /\
  (forall r b, row_bucket cfg r = b <-> first_exceeded cfg (temperature r) b) /\
  (forall c h d w co ts,
     let at35 := mkRow c (Some 35%Q) h d w co ts in
     get_temperature_ranges TEMP_RANGES [at35] !! "hot" = Some [c] /\
     get_temperature_ranges TEMP_RANGES [at35] !! "very_hot" = Some []) /\
  (forall c h d w co ts,
     let at351 := mkRow c (Some 35.1%Q) h d w co ts in
     get_temperature_ranges TEMP_RANGES [at351] !! "very_hot" = Some [c] /\
     get_temperature_ranges TEMP_RANGES [at351] !! "hot" = Some []).
Proof.
  intros df. split; [|split; [|split]].
  - intros b. by apply get_temperature_ranges_lookup.
  - intros r b. apply range_branch_first_exceeded.
  - intros c h d w co ts at35. split.
    + by rewrite (get_temperature_ranges_lookup _ _ b_hot).
    + by rewrite (get_temperature_ranges_lookup _ _ b_very_hot).
  - intros c h d w co ts at351. split.
    + by rewrite (get_temperature_ranges_lookup _ _ b_very_hot).
    + by rewrite (get_temperature_ranges_lookup _ _ b_hot).
Qed.


(** ** Lower-casing and matching regardless of case *)

Lemma nat_of_ascii_inj (a b : ascii) : nat_of_ascii a = nat_of_ascii b -> a = b.
Proof.
  intros H. rewrite <- (ascii_nat_embedding a), <- (ascii_nat_embedding b).
  by rewrite H.
Qed.

Lemma same_letter_lower (x y : ascii) :
  (97 <= nat_of_ascii y <= 122)%nat ->
  same_letter x y <-> Str.lower_char x = y.
Proof.
  intros Hy. unfold same_letter, Str.lower_char. cbv zeta.
  pose proof (nat_ascii_bounded x) as Hx.
  destruct ((65 <=? nat_of_ascii x)%nat && (nat_of_ascii x <=? 90)%nat) eqn:E.
  - apply andb_true_iff in E as [E1%Nat.leb_le E2%Nat.leb_le]. split.
    + intros [H | [[_ H] | [H _]]]; [lia | | lia].
      rewrite <- H. apply ascii_nat_embedding.
    + intros <-. right. left. split; [done|].
      rewrite nat_ascii_embedding; lia.
  - split.
    + intros [H | [[H _] | [H _]]].
      * by apply nat_of_ascii_inj.
      * apply andb_false_iff in E as [E%Nat.leb_gt | E%Nat.leb_gt]; lia.
      * lia.
    + intros ->. by left.
Qed.

Lemma same_ignoring_case_lower (w0 w : string) :
  lowercase w -> same_ignoring_case w0 w <-> Str.lower w0 = w.
Proof.
  revert w; induction w0 as [|x w0 IH]; intros [|y w] Hw; cbn; try done.
  destruct Hw as [Hy Hw]. rewrite (same_letter_lower x y Hy), (IH w Hw).
  split; [by intros [-> ->] | by intros [= -> ->]].
Qed.

Lemma lower_app (a b : string) :
  Str.lower (String.append a b) = String.append (Str.lower a) (Str.lower b).
Proof.
  induction a as [|x a IH]; [done|].
  rewrite append_String. cbn [Str.lower]. by rewrite IH, append_String.
Qed.

Lemma lower_split (d a b : string) :
  Str.lower d = String.append a b ->
  exists d1 d2, d = String.append d1 d2 /\ Str.lower d1 = a /\ Str.lower d2 = b.
Proof.
  revert d; induction a as [|x a IH]; intros d H.
  - by exists EmptyString, d.
  - destruct d as [|y d]; [done|]. rewrite append_String in H.
    cbn [Str.lower] in H. injection H as Hx H.
    destruct (IH d H) as (d1 & d2 & -> & H1 & H2).
    exists (String y d1), d2. rewrite append_String. cbn [Str.lower].
    by rewrite Hx, H1.
Qed.

Lemma substring_ci_iff (w d : string) :
  lowercase w -> Str.is_substring w (Str.lower d) <-> is_substring_ci w d.
Proof.
  intros Hw. unfold Str.is_substring, is_substring_ci. split.
  - intros (pre & post & H).
    apply lower_split in H as (d1 & d23 & -> & H1 & H).
    apply lower_split in H as (d2 & d3 & -> & H2 & H3).
    exists d1, d2, d3. split; [done|]. by apply same_ignoring_case_lower.
  - intros (pre & w0 & post & -> & H).
    apply same_ignoring_case_lower in H; [|done].
    exists (Str.lower pre), (Str.lower post). by rewrite !lower_app, H.
Qed.

Lemma keywords_lowercase (c : category) (w : string) :
  w ∈ keywords c -> lowercase w.
Proof.
  destruct c; cbn [keywords]; intros H;
    repeat (apply elem_of_cons in H as [->|H]; [vm_compute; lia|]);
    by apply elem_of_nil in H.
Qed.

Lemma category_matches_ci_iff (c : category) (d : string) :
  category_matches c (Str.lower d) <-> category_matches_ci c d.
Proof.
  unfold category_matches, category_matches_ci.
  split; (intros [H | (w & Hw & H)]; [by left | right; exists w; split; [done|]]).
  - by apply substring_ci_iff; [eapply keywords_lowercase|].
  - by apply substring_ci_iff; [eapply keywords_lowercase|].
Qed.

Lemma row_category_first_match_ci (r : Row) (c : category) :
  row_category r = c <-> first_match_ci (description r) c.
Proof.
  unfold row_category. rewrite weather_branch_first_match.
  unfold first_match, first_match_ci. rewrite category_matches_ci_iff.
  by setoid_rewrite category_matches_ci_iff.
Qed.

(** C2. For every non-empty frame, the list stored under a category is the
    cities, in record order, of exactly the records classified into it, and
    a record is classified into the first category, in the order clear,
    rain, clouds, snow, other, that matches its lower-cased description: a
    category matches when the description contains one of its keywords as a
    substring, and other matches always.  Said on the description as it is
    written: a category matches when the description contains one of its
    keywords in any mixture of upper and lower case.  A description
    "cloudy with rain" is classified as rain, and so are capitalised and
    upper-case descriptions classified by their keywords. *)
Theorem categorize_weather_first_match (row : Row) (rows : DataFrame) :
  let df := row :: rows in
  (forall c, categorize_weather df !! category_key c
             = Some (city <$> filter (fun r => row_category r = c) df)) /\
  (forall r c, row_category r = c
               <-> first_match (Str.lower (description r)) c) /\
  (forall r c, row_category r = c <-> first_match_ci (description r) c) /\
  (forall x t h w co ts,
     let r := mkRow x t h "cloudy with rain" w co ts in
     row_category r = rain /\
     categorize_weather [r] !! "rain" = Some [x] /\
     categorize_weather [r] !! "clouds" = Some []) /\
  (forall x t h w co ts,
     row_category (mkRow x t h "Clear Sky" w co ts) = clear /\
     row_category (mkRow x t h "SUNNY" w co ts) = clear /\
     row_category (mkRow x t h "Light Rain" w co ts) = rain /\
     row_category (mkRow x t h "Cloudy With RAIN" w co ts) = rain /\
     row_category (mkRow x t h "Overcast Clouds" w co ts) = clouds /\
     row_category (mkRow x t h "Heavy Snow" w co ts) = snow /\
     row_category (mkRow x t h "Mist" w co ts) = other /\
     categorize_weather [mkRow x t h "Clear Sky" w co ts] !! "clear" = Some [x] /\
     categorize_weather [mkRow x t h "Clear Sky" w co ts] !! "other" = Some []).
Proof.
  intros df. split; [|split; [|split; [|split]]].
  - intros c. by apply categorize_weather_lookup.
  - intros r c. apply weather_branch_first_match.
  - apply row_category_first_match_ci.
  - intros x t h w co ts r. split; [done|]. split.
    + by rewrite (categorize_weather_lookup _ rain).
    + by rewrite (categorize_weather_lookup _ clouds).
  - intros x t h w co ts. do 7 (split; [done|]). split.
    + by rewrite (categorize_weather_lookup _ clear).
    + by rewrite (categorize_weather_lookup _ other).
Qed.

(** C10. For every non-empty frame the categories dictionary has exactly the
    keys clear, rain, clouds, snow, other and the ranges dictionary exactly
    the keys very_hot, hot, warm, moderate, cool, cold; a category or range
    that no record falls into is present with an empty list. *)
Theorem categories_and_ranges_keys (cfg : TempRanges) (row : Row)
  (rows : DataFrame) :
  let df := row :: rows in
  dom (categorize_weather df)
    = list_to_set ["clear"; "rain"; "clouds"; "snow"; "other"] /\
  dom (get_temperature_ranges cfg df)
    = list_to_set ["very_hot"; "hot"; "warm"; "moderate"; "cool"; "cold"] /\
  (forall c, Forall (fun r => row_category r <> c) df ->
             categorize_weather df !! category_key c = Some []) /\
  (forall b, Forall (fun r => row_bucket cfg r <> b) df ->
             get_temperature_ranges cfg df !! bucket_key b = Some []).
Proof.
  intros df. split; [|split; [|split]].
  - by apply categorize_weather_dom.
  - by apply get_temperature_ranges_dom.
  - intros c Hc. rewrite categorize_weather_lookup by done.
    by rewrite filter_none.
  - intros b Hb. rewrite get_temperature_ranges_lookup by done.
    by rewrite filter_none.
Qed.

Lemma categories_and_ranges_keys_witness :
  categorize_weather (frame_of sample_records) !! "snow" = Some [] /\
  get_temperature_ranges TEMP_RANGES (frame_of sample_records) !! "warm" = Some [].
Proof.
  split.
  - apply (proj1 (proj2 (proj2 (categories_and_ranges_keys TEMP_RANGES
      (to_row (WeatherRecord.mk "London" 18.5 72 "Light Rain" 4.1 "GB"
                 "2024-05-01 10:00:00"))
      (frame_of (tail sample_records))))) snow).
    repeat constructor; by vm_compute.
  - apply (proj2 (proj2 (proj2 (categories_and_ranges_keys TEMP_RANGES
      (to_row (WeatherRecord.mk "London" 18.5 72 "Light Rain" 4.1 "GB"
                 "2024-05-01 10:00:00"))
      (frame_of (tail sample_records))))) b_warm).
    repeat constructor; by vm_compute.
Defined.

(** C7, refuted as stated: when two records carry the same city under
    different skies, that city is listed under two categories and the
    concatenation of the lists has a duplicate. *)
Lemma categorize_weather_duplicate_city :
  ~ exactly_one_category dup_frame /\
  ~ NoDup (concat (category_lists dup_frame)).
Proof.
  split.
  - intros H. destruct (H "A") as (c & _ & Huniq); [by left|].
    assert (Hclear : clear = c).
    { apply Huniq, in_category_iff. eexists. split; [by left | done]. }
    assert (Hrain : rain = c).
    { apply Huniq, in_category_iff. eexists.
      split; [right; by left | done]. }
    congruence.
  - assert (E : concat (category_lists dup_frame) = ["A"; "A"])
      by (by vm_compute).
    rewrite E. intros Hnd. apply NoDup_cons in Hnd as [Hnotin _].
    apply Hnotin. by left.
Qed.

(** C7, amended.  For every frame, the list of a category is the cities, in
    record order, of the records classified into it (each record is
    classified into one category only), and the concatenation of the five
    lists is a permutation of the input city sequence.  When the input
    cities are pairwise distinct, every city is listed under exactly one
    category and the concatenation has no duplicates. *)
Theorem categorize_weather_partition (df : DataFrame) :
  (forall c, default [] (categorize_weather df !! category_key c)
             = city <$> filter (fun r => row_category r = c) df) /\
  concat (category_lists df) ≡ₚ city <$> df /\
  (NoDup (city <$> df) ->
   exactly_one_category df /\ NoDup (concat (category_lists df))).
Proof.
  split; [|split].
  - intros c. apply categorize_weather_list.
  - apply category_lists_perm.
  - intros Hnd. split; [|by rewrite category_lists_perm].
    intros x Hx. apply list_elem_of_fmap in Hx as (r & -> & Hr).
    exists (row_category r). split.
    + apply in_category_iff. by exists r.
    + intros c' Hc'. apply in_category_iff in Hc' as (r' & Hr' & Hcity & <-).
      f_equal. by apply (NoDup_fmap_elem_inj city df).
Qed.

Lemma categorize_weather_partition_witness :
  NoDup (city <$> frame_of sample_records) /\
  exactly_one_category (frame_of sample_records).
Proof.
  assert (Hnd : NoDup (city <$> frame_of sample_records))
    by (apply (bool_decide_unpack _); by vm_compute).
  split; [exact Hnd|].
  exact (proj1 (proj2 (proj2 (categorize_weather_partition
           (frame_of sample_records))) Hnd)).
Defined.

(** ** The statistics of a frame built from records *)

Lemma frame_of_nonempty (r0 : WeatherRecord.t) (rs' : list WeatherRecord.t) :
  empty (frame_of (r0 :: rs')) = false.
Proof. reflexivity. Qed.

Lemma get_temperature_stats_frame (r0 : WeatherRecord.t)
  (rs' : list WeatherRecord.t) (rh rl : WeatherRecord.t) :
  let df := frame_of (r0 :: rs') in
  let col := temperature <$> df in
  pd.max col = Some (WeatherRecord.temperature rh) ->
  pd.min col = Some (WeatherRecord.temperature rl) ->
  pd.loc_city df (pd.idxmax col) = Ok (WeatherRecord.city rh) ->
  pd.loc_city df (pd.idxmin col) = Ok (WeatherRecord.city rl) ->
  get_temperature_stats df
  = Ok (<["lowest_temp_city" := VStr (WeatherRecord.city rl)]>
        (<["highest_temp_city" := VStr (WeatherRecord.city rh)]>
        (<["highest_temp" := VFloat (Some (WeatherRecord.temperature rh))]>
        (<["lowest_temp" := VFloat (Some (WeatherRecord.temperature rl))]>
        (<["average_temp" := VFloat (round1 (pd.mean col))]>
        (<["median_temp" := VFloat (round1 (pd.median col))]> ∅)))))).
Proof.
  intros df col Hmax Hmin Hh Hl. subst col df. unfold get_temperature_stats.
  rewrite frame_of_nonempty. cbv zeta.
  by rewrite Hh, Hl, Hmax, Hmin.
Qed.

Lemma get_humidity_stats_frame (r0 : WeatherRecord.t)
  (rs' : list WeatherRecord.t) (rh rl : WeatherRecord.t) :
  let df := frame_of (r0 :: rs') in
  let col := humidity <$> df in
  pd.max col = Some (inject_Z (WeatherRecord.humidity rh)) ->
  pd.min col = Some (inject_Z (WeatherRecord.humidity rl)) ->
  pd.loc_city df (pd.idxmax col) = Ok (WeatherRecord.city rh) ->
  pd.loc_city df (pd.idxmin col) = Ok (WeatherRecord.city rl) ->
  get_humidity_stats df
  = Ok (<["highest_humidity" := VFloat (Some (inject_Z (WeatherRecord.humidity rh)))]>
        (<["lowest_humidity" := VFloat (Some (inject_Z (WeatherRecord.humidity rl)))]>
        (<["average_humidity" := VFloat (round1 (pd.mean col))]>
        (<["highest_humidity_city" := VStr (WeatherRecord.city rh)]>
        (<["lowest_humidity_city" := VStr (WeatherRecord.city rl)]> ∅))))).
Proof.
  intros df col Hmax Hmin Hh Hl. subst col df. unfold get_humidity_stats.
  rewrite frame_of_nonempty. cbv zeta.
  by rewrite Hh, Hl, Hmax, Hmin.
Qed.

Lemma get_wind_stats_frame (r0 : WeatherRecord.t)
  (rs' : list WeatherRecord.t) (rh rl : WeatherRecord.t) :
  let df := frame_of (r0 :: rs') in
  let col := wind_speed <$> df in
  pd.max col = Some (WeatherRecord.wind_speed rh) ->
  pd.min col = Some (WeatherRecord.wind_speed rl) ->
  pd.loc_city df (pd.idxmax col) = Ok (WeatherRecord.city rh) ->
  pd.loc_city df (pd.idxmin col) = Ok (WeatherRecord.city rl) ->
  get_wind_stats df
  = Ok (<["highest_wind" := VFloat (Some (WeatherRecord.wind_speed rh))]>
        (<["lowest_wind" := VFloat (Some (WeatherRecord.wind_speed rl))]>
        (<["average_wind" := VFloat (round1 (pd.mean col))]>
        (<["highest_wind_city" := VStr (WeatherRecord.city rh)]>
        (<["lowest_wind_city" := VStr (WeatherRecord.city rl)]> ∅))))).
Proof.
  intros df col Hmax Hmin Hh Hl. subst col df. unfold get_wind_stats.
  rewrite frame_of_nonempty. cbv zeta.
  by rewrite Hh, Hl, Hmax, Hmin.
Qed.

(** C3. For every non-empty RecordSet, each of the six extremal cities
    reported by the temperature, humidity and wind statistics is the city of
    the first record, in input order, whose field attains the maximum
    (respectively the minimum): no record is more extreme and no earlier
    record has an equal value.  For the records A at 30 and B at 30 the
    highest-temperature city is A. *)
Theorem extremal_city_first_occurrence (r0 : WeatherRecord.t)
  (rs' : list WeatherRecord.t) :
  let rs := r0 :: rs' in
  let df := frame_of rs in
  let at_most := Qle in
  let at_least := fun x y => (y <= x)%Q in
  let hum := fun r => inject_Z (WeatherRecord.humidity r) in
  (exists c, stat_city (get_temperature_stats df) "highest_temp_city" c /\
             first_attaining at_most WeatherRecord.temperature rs c) /\
  (exists c, stat_city (get_temperature_stats df) "lowest_temp_city" c /\
             first_attaining at_least WeatherRecord.temperature rs c) /\
  (exists c, stat_city (get_humidity_stats df) "highest_humidity_city" c /\
             first_attaining at_most hum rs c) /\
  (exists c, stat_city (get_humidity_stats df) "lowest_humidity_city" c /\
             first_attaining at_least hum rs c) /\
  (exists c, stat_city (get_wind_stats df) "highest_wind_city" c /\
             first_attaining at_most WeatherRecord.wind_speed rs c) /\
  (exists c, stat_city (get_wind_stats df) "lowest_wind_city" c /\
             first_attaining at_least WeatherRecord.wind_speed rs c) /\
  (forall h1 d1 w1 co1 ts1 h2 d2 w2 co2 ts2,
     stat_city
       (get_temperature_stats
          (frame_of [WeatherRecord.mk "A" 30 h1 d1 w1 co1 ts1;
                     WeatherRecord.mk "B" 30 h2 d2 w2 co2 ts2]))
       "highest_temp_city" "A").
Proof.
  intros rs df at_most at_least hum.
  destruct (frame_cities temperature WeatherRecord.temperature r0 rs'
              temperature_to_row)
    as (th & tl & Htmax & Htmin & Hth & Htl & _ & _ & _ & Htfh & Htfl).
  destruct (frame_cities humidity hum r0 rs' humidity_to_row)
    as (hh & hl & Hhmax & Hhmin & Hhh & Hhl & _ & _ & _ & Hhfh & Hhfl).
  destruct (frame_cities wind_speed WeatherRecord.wind_speed r0 rs'
              wind_speed_to_row)
    as (wh & wl & Hwmax & Hwmin & Hwh & Hwl & _ & _ & _ & Hwfh & Hwfl).
  pose proof (get_temperature_stats_frame r0 rs' th tl Htmax Htmin Hth Htl) as Ht.
  pose proof (get_humidity_stats_frame r0 rs' hh hl Hhmax Hhmin Hhh Hhl) as Hh.
  pose proof (get_wind_stats_frame r0 rs' wh wl Hwmax Hwmin Hwh Hwl) as Hw.
  repeat split.
  - exists (WeatherRecord.city th). split; [|done].
    eexists. split; [exact Ht | by simplify_map_eq].
  - exists (WeatherRecord.city tl). split; [|done].
    eexists. split; [exact Ht | by simplify_map_eq].
  - exists (WeatherRecord.city hh). split; [|done].
    eexists. split; [exact Hh | by simplify_map_eq].
  - exists (WeatherRecord.city hl). split; [|done].
    eexists. split; [exact Hh | by simplify_map_eq].
  - exists (WeatherRecord.city wh). split; [|done].
    eexists. split; [exact Hw | by simplify_map_eq].
  - exists (WeatherRecord.city wl). split; [|done].
    eexists. split; [exact Hw | by simplify_map_eq].
  - intros h1 d1 w1 co1 ts1 h2 d2 w2 co2 ts2.
    eexists. split; [reflexivity | by simplify_map_eq].
Qed.

(** C6, refuted as stated: for a single reading of 20.26 the highest
    temperature is 20.26 and the average, rounded to one decimal, is 20.3. *)
Lemma average_exceeds_highest :
  temperature_stats_of (frame_of two_decimal_records) 20.26 20.26 20.3 20.3 /\
  ~ temperature_stats_ordered (frame_of two_decimal_records).
Proof.
  assert (H : temperature_stats_of (frame_of two_decimal_records)
                20.26 20.26 20.3 20.3).
  { eexists. split; [reflexivity|]. by repeat split. }
  split; [exact H|].
  intros Hord. destruct (Hord _ _ _ _ H) as [[_ Hle] _].
  revert Hle. by vm_compute.
Qed.

Lemma get_temperature_stats_with_frame (ops : float_ops) (r0 : WeatherRecord.t)
  (rs' : list WeatherRecord.t) (rh rl : WeatherRecord.t) :
  let df := frame_of (r0 :: rs') in
  let col := temperature <$> df in
  pd.max col = Some (WeatherRecord.temperature rh) ->
  pd.min col = Some (WeatherRecord.temperature rl) ->
  pd.loc_city df (pd.idxmax col) = Ok (WeatherRecord.city rh) ->
  pd.loc_city df (pd.idxmin col) = Ok (WeatherRecord.city rl) ->
  get_temperature_stats_with ops df
  = Ok (<["lowest_temp_city" := VStr (WeatherRecord.city rl)]>
        (<["highest_temp_city" := VStr (WeatherRecord.city rh)]>
        (<["highest_temp" := VFloat (Some (WeatherRecord.temperature rh))]>
        (<["lowest_temp" := VFloat (Some (WeatherRecord.temperature rl))]>
        (<["average_temp" := VFloat (round1_with ops (mean_with ops col))]>
        (<["median_temp" := VFloat (round1_with ops (median_with ops col))]> ∅)))))).
Proof.
  intros df col Hmax Hmin Hh Hl. subst col df. unfold get_temperature_stats_with.
  rewrite frame_of_nonempty. cbv zeta.
  by rewrite Hh, Hl, Hmax, Hmin.
Qed.

Lemma get_wind_stats_with_frame (ops : float_ops) (r0 : WeatherRecord.t)
  (rs' : list WeatherRecord.t) (rh rl : WeatherRecord.t) :
  let df := frame_of (r0 :: rs') in
  let col := wind_speed <$> df in
  pd.max col = Some (WeatherRecord.wind_speed rh) ->
  pd.min col = Some (WeatherRecord.wind_speed rl) ->
  pd.loc_city df (pd.idxmax col) = Ok (WeatherRecord.city rh) ->
  pd.loc_city df (pd.idxmin col) = Ok (WeatherRecord.city rl) ->
  get_wind_stats_with ops df
  = Ok (<["highest_wind" := VFloat (Some (WeatherRecord.wind_speed rh))]>
        (<["lowest_wind" := VFloat (Some (WeatherRecord.wind_speed rl))]>
        (<["average_wind" := VFloat (round1_with ops (mean_with ops col))]>
        (<["highest_wind_city" := VStr (WeatherRecord.city rh)]>
        (<["lowest_wind_city" := VStr (WeatherRecord.city rl)]> ∅))))).
Proof.
  intros df col Hmax Hmin Hh Hl. subst col df. unfold get_wind_stats_with.
  rewrite frame_of_nonempty. cbv zeta.
  by rewrite Hh, Hl, Hmax, Hmin.
Qed.

(** The rounded mean and the rounded median of a column of one-decimal
    floats lie between the extremes of the column. *)
Lemma frame_rounded_between (ops : float_ops) (B : Q) (N : nat)
  (g : Row -> cell) (f : WeatherRecord.t -> Q)
  (rs : list WeatherRecord.t) (rh rl : WeatherRecord.t) :
  accurate ops B N ->
  (forall r, g (to_row r) = Some (f r)) ->
  rs <> [] -> (length rs <= N)%nat ->
  (forall r, r ∈ rs -> (f rl <= f r <= f rh)%Q) ->
  one_decimal_float ops B (f rh) -> one_decimal_float ops B (f rl) ->
  (exists avg, round1_with ops (mean_with ops (g <$> frame_of rs)) = Some avg /\
               (f rl <= avg <= f rh)%Q) /\
  (exists med, round1_with ops (median_with ops (g <$> frame_of rs)) = Some med /\
               (f rl <= med <= f rh)%Q).
Proof.
  intros Hacc Hgf Hne Hlen Hb Hh Hl.
  assert (Hdrop : pd.dropna (g <$> frame_of rs) = f <$> rs)
    by apply (frame_dropna g f Hgf).
  unfold mean_with, median_with. rewrite Hdrop.
  assert (Hne' : f <$> rs <> []) by by destruct rs.
  assert (Hlen' : (length (f <$> rs) <= N)%nat) by by rewrite length_fmap.
  assert (Hbd : forall x, x ∈ f <$> rs -> (f rl <= x <= f rh)%Q).
  { intros x Hx. apply list_elem_of_fmap in Hx as (r & -> & Hr). by apply Hb. }
  destruct (one_decimal_float_bounds ops B N _ Hacc Hh) as [_ Hhi].
  destruct (one_decimal_float_bounds ops B N _ Hacc Hl) as [Hlo _].
  pose proof (series_mean_near ops B N Hacc _ _ _ Hne' Hlen' Hlo Hhi Hbd) as Hm.
  pose proof (series_median_near ops B N Hacc _ _ _ Hne' Hlen' Hlo Hhi Hbd) as Hd.
  destruct (f <$> rs) as [|x xs]; [done|]. split.
  - eexists. split; [reflexivity|]. by apply (round1_with_between ops B N).
  - eexists. split; [reflexivity|]. by apply (round1_with_between ops B N).
Qed.

(** The rounded average depends on the arithmetic: for the readings 15.2
    and 17.9 it is 16.6 when nothing is rounded before [round], and 16.5
    when the mean comes out just below 16.55. *)
Lemma average_depends_on_arithmetic :
  temperature_stats_with_of exact_ops (frame_of two_readings) 17.9 15.2 16.6 16.6 /\
  temperature_stats_with_of low_ops (frame_of two_readings) 17.9 15.2 16.5 16.5.
Proof.
  split; (eexists; split; [reflexivity|]; by repeat split).
Qed.

(** The temperature statistics of one-decimal floats are ordered. *)
Lemma temperature_stats_with_bounds (ops : float_ops) (B : Q) (N : nat)
  (r0 : WeatherRecord.t) (rs' : list WeatherRecord.t) :
  let rs := r0 :: rs' in
  accurate ops B N ->
  (length rs <= N)%nat ->
  Forall (fun r => one_decimal_float ops B (WeatherRecord.temperature r)) rs ->
  (exists hi lo avg med,
     temperature_stats_with_of ops (frame_of rs) hi lo avg med /\
     (lo <= avg <= hi)%Q /\ (lo <= med <= hi)%Q /\
     (forall r, r ∈ rs -> (lo <= WeatherRecord.temperature r <= hi)%Q) /\
     (exists r, r ∈ rs /\ WeatherRecord.temperature r = hi) /\
     (exists r, r ∈ rs /\ WeatherRecord.temperature r = lo)) /\
  (forall hi lo avg med,
     temperature_stats_with_of ops (frame_of rs) hi lo avg med ->
     (lo <= avg <= hi)%Q /\ (lo <= med <= hi)%Q).
Proof.
  intros rs Hacc Hlen Hdec.
  destruct (frame_cities temperature WeatherRecord.temperature r0 rs'
              temperature_to_row)
    as (rh & rl & Hmax & Hmin & Hh & Hl & Hrh & Hrl & Hb & _ & _).
  pose proof (get_temperature_stats_with_frame ops r0 rs' rh rl Hmax Hmin Hh Hl)
    as Ht.
  fold rs in Hrh, Hrl, Hb, Ht.
  rewrite Forall_forall in Hdec.
  destruct (frame_rounded_between ops B N temperature WeatherRecord.temperature
              rs rh rl Hacc temperature_to_row)
    as [(avg & Havg & Havgb) (med & Hmed & Hmedb)];
    [done | done | done | by apply Hdec | by apply Hdec |].
  rewrite Havg, Hmed in Ht.
  split.
  - exists (WeatherRecord.temperature rh), (WeatherRecord.temperature rl), avg, med.
    split; [|split; [|split; [|split; [|split]]]].
    + eexists. split; [exact Ht|]. by simplify_map_eq.
    + exact Havgb.
    + exact Hmedb.
    + exact Hb.
    + by exists rh.
    + by exists rl.
  - intros hi' lo' avg' med' (m & Hm & H1 & H2 & H3 & H4).
    rewrite Ht in Hm. injection Hm as <-. by simplify_map_eq.
Qed.

(** C6, amended.  In any arithmetic that is accurate on numbers of
    magnitude at most B and columns of at most N values, for every non-empty
    RecordSet of at most N records whose temperatures are the floats of
    numbers with one decimal place of magnitude at most B - 1, the
    temperature statistics succeed and satisfy
    highest >= average >= lowest and highest >= median >= lowest, where
    highest and lowest are the unrounded maximum and minimum of the
    temperature field. *)
Theorem temperature_stats_bounds (ops : float_ops) (B : Q) (N : nat)
  (r0 : WeatherRecord.t) (rs' : list WeatherRecord.t) :
  let rs := r0 :: rs' in
  accurate ops B N ->
  (length rs <= N)%nat ->
  Forall (fun r => one_decimal_float ops B (WeatherRecord.temperature r)) rs ->
  (exists hi lo avg med,
     temperature_stats_with_of ops (frame_of rs) hi lo avg med /\
     (lo <= avg <= hi)%Q /\ (lo <= med <= hi)%Q /\
     (forall r, r ∈ rs -> (lo <= WeatherRecord.temperature r <= hi)%Q) /\
     (exists r, r ∈ rs /\ WeatherRecord.temperature r = hi) /\
     (exists r, r ∈ rs /\ WeatherRecord.temperature r = lo)) /\
  (forall hi lo avg med,
     temperature_stats_with_of ops (frame_of rs) hi lo avg med ->
     (lo <= avg <= hi)%Q /\ (lo <= med <= hi)%Q).
Proof. apply temperature_stats_with_bounds. Qed.

Lemma temperature_stats_bounds_witness :
  accurate low_ops 1000 10 /\
  (length two_readings <= 10)%nat /\
  Forall (fun r => one_decimal_float low_ops 1000 (WeatherRecord.temperature r))
    two_readings /\
  exists hi lo avg med,
    temperature_stats_with_of low_ops (frame_of two_readings) hi lo avg med /\
    (lo <= avg <= hi)%Q /\ (lo <= med <= hi)%Q.
Proof.
  assert (H1 : (length two_readings <= 10)%nat) by (cbn; lia).
  assert (H2 : Forall (fun r => one_decimal_float low_ops 1000
                                  (WeatherRecord.temperature r)) two_readings).
  { constructor; [exists 152%Z; by vm_compute|].
    constructor; [exists 179%Z; by vm_compute|].
    constructor. }
  split; [apply low_ops_accurate|]. split; [exact H1|]. split; [exact H2|].
  destruct (proj1 (temperature_stats_bounds low_ops 1000 10
              (WeatherRecord.mk "Bergen" 15.2 80 "Light Rain" 5.2 "NO"
                 "2024-05-01 10:00:00")
              (tail two_readings) (low_ops_accurate 1000 10) H1 H2))
    as (hi & lo & avg & med & Hs & Ha & Hm & _).
  by exists hi, lo, avg, med.
Defined.


(** ** Missing cells *)

Lemma dropna_nonempty (g : Row -> cell) (df : DataFrame) :
  carrying g df <> [] -> pd.dropna (g <$> df) <> [].
Proof.
  rewrite <- dropna_carrying. unfold carrying.
  destruct (filter _ df) as [|r l] eqn:E; [done|]. intros _.
  assert (Hr : r ∈ filter (fun r => is_Some (g r)) df) by (rewrite E; left).
  apply list_elem_of_filter in Hr as [[x Hx] _].
  rewrite fmap_cons. unfold pd.dropna. cbn [omap list_omap]. by rewrite Hx.
Qed.

Lemma median_is_Some (col : list cell) :
  pd.dropna col <> [] -> is_Some (pd.median col).
Proof.
  intros Hne. unfold pd.median.
  pose proof (sort_values_perm (pd.dropna col)) as Hp.
  destruct (pd.sort_values (pd.dropna col)) as [|x xs] eqn:E.
  - by apply Permutation_nil in Hp.
  - by destruct (Nat.odd _).
Qed.

Lemma column_components (g : Row -> cell) (df : DataFrame) :
  carrying g df <> [] ->
  exists rh vh rl vl mu md,
    pd.max (g <$> df) = Some vh /\ pd.min (g <$> df) = Some vl /\
    pd.mean (g <$> df) = Some mu /\ pd.median (g <$> df) = Some md /\
    pd.loc_city df (pd.idxmax (g <$> df)) = Ok (city rh) /\
    pd.loc_city df (pd.idxmin (g <$> df)) = Ok (city rl).
Proof.
  intros Hne.
  destruct (scan_rows_is_Some pd.gt g df None (or_intror Hne)) as [[rh vh] Hh].
  destruct (scan_rows_is_Some pd.lt g df None (or_intror Hne)) as [[rl vl] Hl].
  pose proof (dropna_nonempty g df Hne) as Hd.
  destruct (median_is_Some (g <$> df) Hd) as [md Hmd].
  assert (Hmu : is_Some (pd.mean (g <$> df))).
  { unfold pd.mean. by destruct (pd.dropna (g <$> df)). }
  destruct Hmu as [mu Hmu].
  exists rh, vh, rl, vl, mu, md. unfold pd.max, pd.min, pd.idxmax, pd.idxmin.
  by rewrite !scan_value_rows, !loc_city_rows, Hh, Hl.
Qed.

Lemma column_carrying (g : Row -> cell) (df : DataFrame) :
  let kept := carrying g df in
  pd.max (g <$> kept) = pd.max (g <$> df) /\
  pd.min (g <$> kept) = pd.min (g <$> df) /\
  pd.mean (g <$> kept) = pd.mean (g <$> df) /\
  pd.median (g <$> kept) = pd.median (g <$> df) /\
  pd.loc_city kept (pd.idxmax (g <$> kept))
    = pd.loc_city df (pd.idxmax (g <$> df)) /\
  pd.loc_city kept (pd.idxmin (g <$> kept))
    = pd.loc_city df (pd.idxmin (g <$> df)).
Proof.
  intros kept. subst kept.
  unfold pd.max, pd.min, pd.idxmax, pd.idxmin, pd.mean, pd.median.
  by rewrite !scan_value_rows, !loc_city_rows, !scan_rows_carrying,
    !dropna_carrying.
Qed.

Lemma column_all_NaN (g : Row -> cell) (df : DataFrame) :
  carrying g df = [] ->
  pd.loc_city df (pd.idxmax (g <$> df)) = Raise KeyError.
Proof.
  intros H. unfold pd.idxmax. by rewrite loc_city_rows, scan_rows_None.
Qed.

Lemma carrying_nonempty (g : Row -> cell) (df : DataFrame) :
  carrying g df <> [] -> df <> [].
Proof. by intros H ->. Qed.

Lemma no_NaN_insert_float (k : string) (x : Q) (m : gmap string value) :
  no_NaN m -> no_NaN (<[k := VFloat (Some x)]> m).
Proof.
  intros Hm k' y Hk'. apply lookup_insert_Some in Hk' as [[_ [= <-]]|[_ Hk']];
    [done | by apply (Hm k')].
Qed.

Lemma no_NaN_insert_str (k s : string) (m : gmap string value) :
  no_NaN m -> no_NaN (<[k := VStr s]> m).
Proof.
  intros Hm k' y Hk'. apply lookup_insert_Some in Hk' as [[_ [=]]|[_ Hk']].
  by apply (Hm k').
Qed.

Lemma no_NaN_empty : no_NaN ∅.
Proof. intros k x Hk. by rewrite lookup_empty in Hk. Qed.

Lemma get_temperature_stats_skips (df : DataFrame) :
  carrying temperature df <> [] ->
  get_temperature_stats df = get_temperature_stats (carrying temperature df) /\
  exists m, get_temperature_stats df = Ok m /\ no_NaN m.
Proof.
  intros Hne. pose proof (carrying_nonempty _ _ Hne) as Hdf.
  destruct (column_carrying temperature df) as (E1 & E2 & E3 & E4 & E5 & E6).
  destruct (column_components temperature df Hne)
    as (rh & vh & rl & vl & mu & md & H1 & H2 & H3 & H4 & H5 & H6).
  unfold get_temperature_stats. rewrite !empty_false by done. cbv zeta.
  rewrite E1, E2, E3, E4, E5, E6. split; [done|].
  rewrite H1, H2, H3, H4, H5, H6. eexists. split; [done|].
  repeat first [apply no_NaN_insert_float | apply no_NaN_insert_str].
  apply no_NaN_empty.
Qed.

Lemma get_humidity_stats_skips (df : DataFrame) :
  carrying humidity df <> [] ->
  get_humidity_stats df = get_humidity_stats (carrying humidity df) /\
  exists m, get_humidity_stats df = Ok m /\ no_NaN m.
Proof.
  intros Hne. pose proof (carrying_nonempty _ _ Hne) as Hdf.
  destruct (column_carrying humidity df) as (E1 & E2 & E3 & E4 & E5 & E6).
  destruct (column_components humidity df Hne)
    as (rh & vh & rl & vl & mu & md & H1 & H2 & H3 & H4 & H5 & H6).
  unfold get_humidity_stats. rewrite !empty_false by done. cbv zeta.
  rewrite E1, E2, E3, E5, E6. split; [done|].
  rewrite H1, H2, H3, H5, H6. eexists. split; [done|].
  repeat first [apply no_NaN_insert_float | apply no_NaN_insert_str].
  apply no_NaN_empty.
Qed.

Lemma get_wind_stats_skips (df : DataFrame) :
  carrying wind_speed df <> [] ->
  get_wind_stats df = get_wind_stats (carrying wind_speed df) /\
  exists m, get_wind_stats df = Ok m /\ no_NaN m.
Proof.
  intros Hne. pose proof (carrying_nonempty _ _ Hne) as Hdf.
  destruct (column_carrying wind_speed df) as (E1 & E2 & E3 & E4 & E5 & E6).
  destruct (column_components wind_speed df Hne)
    as (rh & vh & rl & vl & mu & md & H1 & H2 & H3 & H4 & H5 & H6).
  unfold get_wind_stats. rewrite !empty_false by done. cbv zeta.
  rewrite E1, E2, E3, E5, E6. split; [done|].
  rewrite H1, H2, H3, H5, H6. eexists. split; [done|].
  repeat first [apply no_NaN_insert_float | apply no_NaN_insert_str].
  apply no_NaN_empty.
Qed.

Lemma get_temperature_stats_all_NaN (df : DataFrame) :
  df <> [] -> carrying temperature df = [] ->
  get_temperature_stats df = Raise KeyError.
Proof.
  intros Hdf H. unfold get_temperature_stats.
  rewrite empty_false by done. cbv zeta. by rewrite column_all_NaN.
Qed.

Lemma get_humidity_stats_all_NaN (df : DataFrame) :
  df <> [] -> carrying humidity df = [] ->
  get_humidity_stats df = Raise KeyError.
Proof.
  intros Hdf H. unfold get_humidity_stats.
  rewrite empty_false by done. cbv zeta. by rewrite column_all_NaN.
Qed.

Lemma get_wind_stats_all_NaN (df : DataFrame) :
  df <> [] -> carrying wind_speed df = [] ->
  get_wind_stats df = Raise KeyError.
Proof.
  intros Hdf H. unfold get_wind_stats.
  rewrite empty_false by done. cbv zeta. by rewrite column_all_NaN.
Qed.





(** ** The distribution of descriptions *)

Lemma Counter_snoc (l : list string) (k : string) :
  Counter (l ++ [k]) = counter_add k (Counter l).
Proof. unfold Counter. by rewrite fold_left_app. Qed.

Lemma count_snoc (d : string) (l : list string) (k : string) :
  count d (l ++ [k]) = if decide (d = k) then S (count d l) else count d l.
Proof.
  unfold count. rewrite filter_app, length_app, filter_cons, filter_nil.
  destruct (decide (d = k)); simpl; lia.
Qed.

Lemma count_zero (d : string) (l : list string) : d ∉ l -> count d l = 0%nat.
Proof.
  intros H. unfold count. rewrite filter_none; [done|].
  apply Forall_forall. intros x Hx ->. by apply H.
Qed.

Lemma keys_add_cons (k a : string) (K : list string) :
  k <> a -> keys_add k (a :: K) = a :: keys_add k K.
Proof.
  intros Hne. unfold keys_add.
  destruct (decide (k ∈ K)) as [Hin|Hnin].
  - rewrite decide_True; [done | by right].
  - rewrite decide_False; [done|]. intros [?|?]%elem_of_cons; done.
Qed.

Lemma counter_add_tally (cnt : string -> nat) (k : string) (K : list string) :
  NoDup K -> (k ∉ K -> cnt k = 0%nat) ->
  counter_add k ((fun d => (d, cnt d)) <$> K)
  = (fun d => (d, if decide (d = k) then S (cnt d) else cnt d)) <$> keys_add k K.
Proof.
  induction K as [|a K IH]; intros Hnd Hk.
  - unfold keys_add. rewrite decide_False by apply not_elem_of_nil.
    simpl. rewrite decide_True by done. rewrite Hk; [done | apply not_elem_of_nil].
  - apply NoDup_cons in Hnd as [Ha Hnd]. rewrite fmap_cons. cbn [counter_add].
    destruct (decide (k = a)) as [->|Hne].
    + unfold keys_add. rewrite decide_True by left.
      rewrite fmap_cons, decide_True by done. f_equal.
      apply Forall_fmap_ext_1, Forall_forall. intros d Hd.
      rewrite decide_False; [done|]. by intros ->.
    + rewrite IH; [|done|].
      * rewrite keys_add_cons by done. rewrite fmap_cons.
        by rewrite (decide_False (P := a = k)).
      * intros Hnin. apply Hk. intros [?|?]%elem_of_cons; done.
Qed.

Lemma first_seen_before_app (l : list string) (k d1 d2 : string) :
  first_seen_before l d1 d2 -> first_seen_before (l ++ [k]) d1 d2.
Proof.
  intros (i & Hi & Hbefore). exists i.
  split; [by apply lookup_app_l_Some|].
  intros j Hj. rewrite lookup_app_l; [by apply Hbefore|].
  apply lookup_lt_Some in Hi. lia.
Qed.

Lemma first_seen_before_new (l : list string) (k d : string) :
  d ∈ l -> k ∉ l -> first_seen_before (l ++ [k]) d k.
Proof.
  intros Hd Hk. apply list_elem_of_lookup in Hd as [i Hi]. exists i.
  split; [by apply lookup_app_l_Some|].
  intros j Hj. pose proof (lookup_lt_Some _ _ _ Hi) as Hlt.
  rewrite lookup_app_l by lia. intros Hjk. apply Hk.
  by apply list_elem_of_lookup_2 with j.
Qed.

(** The counter lists the distinct elements in first-seen order, each with
    its number of occurrences. *)
Lemma Counter_shape (l : list string) :
  exists K,
    NoDup K /\ (forall d, d ∈ K <-> d ∈ l) /\
    Counter l = (fun d => (d, count d l)) <$> K /\
    (forall d1 d2, before K d1 d2 -> first_seen_before l d1 d2).
Proof.
  induction l as [|k l IH] using rev_ind.
  - exists []. repeat split; try done; try apply NoDup_nil_2.
    intros d1 d2 (i & j & _ & Hi & _). by rewrite lookup_nil in Hi.
  - destruct IH as (K & Hnd & Hel & Hc & Hord).
    exists (keys_add k K). unfold keys_add.
    split; [|split; [|split]].
    + destruct (decide (k ∈ K)); [done|].
      apply NoDup_app. repeat split; [done | | apply NoDup_singleton].
      intros x Hx ->%list_elem_of_singleton. done.
    + intros d. rewrite elem_of_app, list_elem_of_singleton, <- Hel.
      destruct (decide (k ∈ K)) as [Hin|Hnin].
      * split; [by left | intros [?| ->]; done].
      * by rewrite elem_of_app, list_elem_of_singleton.
    + rewrite Counter_snoc, Hc, counter_add_tally; [|done|].
      * apply list_fmap_ext. intros i d _. by rewrite count_snoc.
      * intros Hnin. apply count_zero. by rewrite <- Hel.
    + intros d1 d2 Hb. destruct (decide (k ∈ K)) as [Hin|Hnin].
      * by apply first_seen_before_app, Hord.
      * destruct Hb as (i & j & Hlt & Hi & Hj).
        apply lookup_snoc_Some in Hj as [[Hjlt Hj] | [-> <-]].
        -- apply first_seen_before_app, Hord. exists i, j.
           repeat split; [done | | done].
           rewrite lookup_app_l in Hi by lia. done.
        -- rewrite lookup_app_l in Hi by lia.
           apply first_seen_before_new.
           ++ apply Hel. by apply list_elem_of_lookup_2 with i.
           ++ by rewrite <- Hel.
Qed.

Lemma insert_desc_perm (x : string * nat) (l : list (string * nat)) :
  insert_desc x l ≡ₚ x :: l.
Proof.
  induction l as [|y l IH]; [done|]. simpl.
  destruct (x.2 <? y.2)%nat; [|done].
  rewrite IH. apply perm_swap.
Qed.

Lemma most_common_perm (c : list (string * nat)) : most_common c ≡ₚ c.
Proof.
  induction c as [|x c IH]; [done|]. simpl.
  by rewrite insert_desc_perm, IH.
Qed.

Lemma before_cons {A : Type} (x a b : A) (l : list A) :
  before l a b -> before (x :: l) a b.
Proof. intros (i & j & Hlt & Hi & Hj). exists (S i), (S j). repeat split; [lia|done..]. Qed.

Lemma StronglySorted_mono {A : Type} (R R' : A -> A -> Prop) (l : list A) :
  (forall a b, R a b -> R' a b) -> StronglySorted R l -> StronglySorted R' l.
Proof.
  intros HR. induction 1 as [|a l Hs IH Hall]; constructor; [done|].
  eapply Forall_impl; [exact Hall | apply HR].
Qed.

Lemma insert_desc_ranked (c : list (string * nat)) (x : string * nat)
  (l : list (string * nat)) :
  StronglySorted (ranked (x :: c)) l -> (forall z, z ∈ l -> z ∈ c) ->
  StronglySorted (ranked (x :: c)) (insert_desc x l).
Proof.
  induction l as [|y l IH]; intros Hs Hin; simpl.
  - repeat constructor.
  - apply StronglySorted_cons in Hs as [Hy Hs].
    destruct (x.2 <? y.2)%nat eqn:E.
    + apply Nat.ltb_lt in E. apply StronglySorted_cons. split.
      * rewrite insert_desc_perm. constructor; [by left | done].
      * apply IH; [done|]. intros z Hz. apply Hin. by right.
    + apply Nat.ltb_ge in E. apply StronglySorted_cons. split.
      * assert (Hle : Forall (fun z => (z.2 <= x.2)%nat) (y :: l)).
        { constructor; [done|]. eapply Forall_impl; [exact Hy|].
          intros z [Hz | [Hz _]]; simpl in *; lia. }
        rewrite Forall_forall in Hle. apply Forall_forall. intros z Hz.
        destruct (decide (z.2 = x.2)) as [Heq|Hne].
        -- right. split; [done|].
           apply Hin, list_elem_of_lookup in Hz as [j Hj].
           exists 0%nat, (S j). repeat split; [lia | done..].
        -- left. specialize (Hle z Hz). simpl in Hle. lia.
      * by apply StronglySorted_cons.
Qed.

Lemma most_common_ranked (c : list (string * nat)) :
  StronglySorted (ranked c) (most_common c).
Proof.
  induction c as [|x c IH]; [constructor|]. simpl.
  apply insert_desc_ranked.
  - eapply StronglySorted_mono; [|exact IH].
    intros a b [H | [H1 H2]]; [by left|]. right. split; [done|].
    by apply before_cons.
  - intros z Hz. by rewrite most_common_perm in Hz.
Qed.

Lemma StronglySorted_lookup {A : Type} (R : A -> A -> Prop) (l : list A)
  (i j : nat) (a b : A) :
  StronglySorted R l -> (i < j)%nat -> l !! i = Some a -> l !! j = Some b ->
  R a b.
Proof.
  intros Hs. revert i j. induction Hs as [|x l Hs IH Hall]; intros i j Hlt Hi Hj.
  - by rewrite lookup_nil in Hi.
  - destruct j as [|j]; [lia|]. destruct i as [|i].
    + injection Hi as ->. rewrite Forall_forall in Hall.
      apply Hall. by apply list_elem_of_lookup_2 with j.
    + apply (IH i j); [lia | done..].
Qed.

Lemma tally_keys (cnt : string -> nat) (K : list string) :
  ((fun d => (d, cnt d)) <$> K).*1 = K.
Proof.
  induction K as [|a K IH]; [done|]. rewrite !fmap_cons. simpl. by f_equal.
Qed.

Lemma before_fmap {A B : Type} (f : A -> B) (l : list A) (a b : A) :
  before l a b -> before (f <$> l) (f a) (f b).
Proof.
  intros (i & j & Hlt & Hi & Hj). exists i, j.
  rewrite !list_lookup_fmap, Hi, Hj. by repeat split.
Qed.

(** C5. For every non-empty frame the distribution has one item per
    distinct description, compared as exact strings, carrying the number of
    records with that description; the items are in descending order of
    count, and of two items with equal counts the one whose description is
    seen first in the input comes first.  Differently capitalised
    descriptions are distinct keys, and for counts Clear Sky 3, Rain 3,
    Cloudy 1 first seen in that order, Clear Sky precedes Rain. *)
Theorem weather_distribution_counts_and_order (row : Row) (rows : DataFrame) :
  let df := row :: rows in
  let ds := description <$> df in
  let out := get_weather_distribution df in
  NoDup out.*1 /\
  (forall d n, (d, n) ∈ out <-> d ∈ ds /\ n = count d ds) /\
  (forall i j a b, (i < j)%nat -> out !! i = Some a -> out !! j = Some b ->
     (b.2 <= a.2)%nat /\ (b.2 = a.2 -> first_seen_before ds a.1 b.1)) /\
  get_weather_distribution
    [observed "Oslo" "Clear Sky"; observed "Bergen" "clear sky"]
  = [("Clear Sky", 1%nat); ("clear sky", 1%nat)] /\
  get_weather_distribution
    [observed "A" "Clear Sky"; observed "B" "Rain"; observed "C" "Cloudy";
     observed "D" "Rain"; observed "E" "Clear Sky"; observed "F" "Rain";
     observed "G" "Clear Sky"]
  = [("Clear Sky", 3%nat); ("Rain", 3%nat); ("Cloudy", 1%nat)].
Proof.
  intros df ds out.
  assert (Hout : out = most_common (Counter ds)) by reflexivity.
  destruct (Counter_shape ds) as (K & Hnd & Hel & Hc & Hord).
  pose proof (most_common_perm (Counter ds)) as Hperm.
  pose proof (most_common_ranked (Counter ds)) as Hsorted.
  rewrite <- Hout in Hperm, Hsorted.
  split; [|split; [|split; [|split]]].
  - rewrite Hperm, Hc, tally_keys. done.
  - intros d n. rewrite Hperm, Hc, list_elem_of_fmap. split.
    + intros (d' & [= -> ->] & Hd'). split; [by apply Hel | done].
    + intros [Hd ->]. exists d. split; [done | by apply Hel].
  - intros i j a b Hlt Hi Hj.
    destruct (StronglySorted_lookup _ _ _ _ _ _ Hsorted Hlt Hi Hj)
      as [Hgt | [Heq Hbefore]].
    + split; [lia|]. intros Heq. lia.
    + split; [lia|]. intros _. apply Hord.
      apply (before_fmap fst) in Hbefore.
      by rewrite Hc, tally_keys in Hbefore.
  - reflexivity.
  - reflexivity.
Qed.


(** ** The empty RecordSet *)

(** C4. On the empty RecordSet the three statistics, the categorisation,
    the distribution and the temperature ranges return an empty mapping and
    raise nothing, and the comprehensive analysis reports a total of 0. *)
Theorem empty_record_set_results (cfg : TempRanges) :
  let df := frame_of [] in
  get_temperature_stats df = Ok ∅ /\
  get_humidity_stats df = Ok ∅ /\
  get_wind_stats df = Ok ∅ /\
  categorize_weather df = ∅ /\
  get_weather_distribution df = [] /\
  get_temperature_ranges cfg df = ∅ /\
  get_comprehensive_analysis cfg df
  = Ok {| temperature_stats := ∅; humidity_stats := ∅; wind_stats := ∅;
          weather_categories := ∅; weather_distribution := [];
          temperature_ranges := ∅; total_cities := 0 |}.
Proof. by repeat split. Qed.

(** ** The CSV round trip *)

(** C9, at the failing input: whatever the float printer and parser are,
    saving a reading from Namibia and loading it back succeeds and gives a
    frame whose country cell is NaN where the record has the string NA, so
    the round trip loses the field. *)
Theorem csv_round_trip_loses_country_NA (repr_float : Q -> string)
  (repr_int : Z -> string) (parse_number : string -> option Q)
  (data_file : string) (fs : gmap string csv.file) :
  let saved := csv.save_to_csv repr_float repr_int data_file [windhoek] fs in
  saved.1 = true /\
  (exists fr,
     csv.load_from_csv parse_number data_file saved.2 = Some fr /\
     csv.rows fr !! 0%nat ≫= (fun row => row !! 5%nat) = Some csv.LNaN) /\
  csv.rows (csv.expected [windhoek]) !! 0%nat ≫= (fun row => row !! 5%nat)
    = Some (csv.LStr "NA") /\
  ~ csv.round_trip repr_float repr_int parse_number data_file [windhoek].
Proof.
  intros saved.
  assert (Hload : csv.load_from_csv parse_number data_file saved.2
                  = Some (csv.read_csv parse_number
                            (csv.to_csv repr_float repr_int [windhoek]))).
  { unfold saved, csv.load_from_csv, csv.save_to_csv. cbn [snd].
    by rewrite lookup_insert_eq. }
  assert (Hcell : csv.rows (csv.read_csv parse_number
                              (csv.to_csv repr_float repr_int [windhoek]))
                    !! 0%nat ≫= (fun row => row !! 5%nat) = Some csv.LNaN)
    by reflexivity.
  split; [done|]. split; [|split].
  - eexists. split; [exact Hload | exact Hcell].
  - reflexivity.
  - intros Hrt. specialize (Hrt fs). fold saved in Hrt.
    rewrite Hload in Hrt.
    apply (f_equal (fun o => fr ← o; csv.rows fr !! 0%nat ≫= (fun row => row !! 5%nat)))
      in Hrt.
    cbn [mbind option_bind] in Hrt. rewrite Hcell in Hrt. discriminate Hrt.
Qed.

(** A country code that is neither an NA marker nor a number comes back as
    the string it was. *)
Lemma csv_round_trip_keeps_country_GB (repr_float : Q -> string)
  (repr_int : Z -> string) (parse_number : string -> option Q)
  (data_file : string) (fs : gmap string csv.file) :
  parse_number "GB" = None ->
  let london :=
    WeatherRecord.mk "London" 18.5 72 "Light Rain" 4.1 "GB" "2024-05-01 10:00:00" in
  let saved := csv.save_to_csv repr_float repr_int data_file [london] fs in
  exists fr,
    csv.load_from_csv parse_number data_file saved.2 = Some fr /\
    csv.rows fr !! 0%nat ≫= (fun row => row !! 5%nat) = Some (csv.LStr "GB").
Proof.
  intros Hparse london saved. eexists. split.
  - unfold saved, csv.load_from_csv, csv.save_to_csv. cbn [snd].
    by rewrite lookup_insert_eq.
  - cbn. unfold csv.infer_column. cbn. rewrite ?Hparse.
    change (csv.is_na "GB") with false. cbn. by rewrite ?Hparse.
Qed.

(** * Properties of the remaining code *)

(** ** The temperature ranges partition the records *)

Lemma bucket_cons {K : Type} `{EqDecision K} (f : Row -> K) (a : Row)
  (l : list Row) (ks : list K) :
  NoDup ks ->
  concat ((fun k => city <$> filter (fun r => f r = k) (a :: l)) <$> ks)
  ≡ₚ (if decide (f a ∈ ks) then [city a] else [])
     ++ concat ((fun k => city <$> filter (fun r => f r = k) l) <$> ks).
Proof.
  induction ks as [|k0 ks IH]; intros Hnd.
  - rewrite decide_False by apply not_elem_of_nil. done.
  - apply NoDup_cons in Hnd as [Hk0 Hnd]. specialize (IH Hnd).
    rewrite !fmap_cons. cbn [concat]. rewrite filter_cons.
    destruct (decide (f a = k0)) as [Heq|Hne].
    + rewrite decide_True by (rewrite Heq; left).
      rewrite decide_False in IH by (by rewrite Heq).
      rewrite IH. done.
    + rewrite IH. destruct (decide (f a ∈ ks)) as [Hin|Hnin].
      * rewrite decide_True by (by right). cbn [app].
        by rewrite Permutation_middle.
      * rewrite decide_False; [done|].
        intros [?|?]%elem_of_cons; done.
Qed.

Lemma bucket_nil {K : Type} `{EqDecision K} (f : Row -> K) (ks : list K) :
  concat ((fun k => city <$> filter (fun r => f r = k) []) <$> ks) = [].
Proof. induction ks as [|k0 ks IH]; [done|]. by rewrite fmap_cons. Qed.

Lemma bucket_split {K : Type} `{EqDecision K} (f : Row -> K) (ks : list K)
  (l : list Row) :
  NoDup ks -> (forall r, f r ∈ ks) ->
  concat ((fun k => city <$> filter (fun r => f r = k) l) <$> ks)
  ≡ₚ city <$> l.
Proof.
  intros Hnd Hall. induction l as [|a l IH].
  - by rewrite bucket_nil.
  - rewrite bucket_cons by done. rewrite decide_True by apply Hall.
    rewrite IH. done.
Qed.

Lemma get_temperature_ranges_list (cfg : TempRanges) (df : DataFrame) (b : bucket) :
  default [] (get_temperature_ranges cfg df !! bucket_key b)
  = city <$> filter (fun r => row_bucket cfg r = b) df.
Proof.
  destruct df as [|r0 df]; [done|].
  by rewrite get_temperature_ranges_lookup.
Qed.

(** Every record of a frame is listed under exactly one range: the six
    lists together are a rearrangement of the input cities, so their
    lengths add up to the number of records. *)
Theorem temperature_ranges_partition (cfg : TempRanges) (df : DataFrame) :
  concat (range_lists cfg df) ≡ₚ city <$> df /\
  length (concat (range_lists cfg df)) = length df.
Proof.
  assert (H : concat (range_lists cfg df) ≡ₚ city <$> df).
  { unfold range_lists. rewrite <- (bucket_split (row_bucket cfg)
      [b_very_hot; b_hot; b_warm; b_moderate; b_cool; b_cold] df).
    - cbn [fmap list_fmap]. by rewrite !get_temperature_ranges_list.
    - apply (bool_decide_unpack _). by vm_compute.
    - intros r. destruct (row_bucket cfg r); set_solver. }
  split; [exact H|]. by rewrite H, length_fmap.
Qed.

(** ** The ranges as intervals *)

(** A hotter reading never falls into a colder range, whatever the
    thresholds are. *)
Theorem range_branch_monotone (cfg : TempRanges) (q1 q2 : Q) :
  (q1 <= q2)%Q ->
  (bucket_rank (range_branch cfg (Some q2))
   <= bucket_rank (range_branch cfg (Some q1)))%nat.
Proof.
  intros Hle. unfold range_branch, float_gt.
  repeat (destruct (Qlt_le_dec _ _)); simpl; try lia; exfalso; lra.
Qed.

Lemma range_branch_monotone_witness :
  (30 <= 35.1)%Q /\
  (bucket_rank (range_branch TEMP_RANGES (Some 35.1%Q))
   <= bucket_rank (range_branch TEMP_RANGES (Some 30%Q)))%nat.
Proof.
  assert (H : (30 <= 35.1)%Q) by (by vm_compute).
  split; [exact H|]. exact (range_branch_monotone TEMP_RANGES 30 35.1 H).
Defined.

(** When the thresholds go down from very_hot to cool, each range is the
    interval between its threshold (excluded) and the next higher one
    (included), very_hot is everything above its threshold and cold
    everything up to the cool threshold; a missing temperature is cold. *)
Theorem range_branch_intervals (cfg : TempRanges) (q : Q) :
  descending cfg ->
  (range_branch cfg (Some q) = b_very_hot <-> (very_hot cfg < q)%Q) /\
  (range_branch cfg (Some q) = b_hot <-> (hot cfg < q <= very_hot cfg)%Q) /\
  (range_branch cfg (Some q) = b_warm <-> (warm cfg < q <= hot cfg)%Q) /\
  (range_branch cfg (Some q) = b_moderate <-> (moderate cfg < q <= warm cfg)%Q) /\
  (range_branch cfg (Some q) = b_cool <-> (cool cfg < q <= moderate cfg)%Q) /\
  (range_branch cfg (Some q) = b_cold <-> (q <= cool cfg)%Q) /\
  range_branch cfg None = b_cold.
Proof.
  intros (H1 & H2 & H3 & H4). unfold range_branch, float_gt.
  repeat (destruct (Qlt_le_dec _ _));
    repeat split; try done; try (intros; exfalso; lra); try lra;
    intros [? ?]; exfalso; lra.
Qed.

Lemma range_branch_intervals_witness :
  descending TEMP_RANGES /\
  (range_branch TEMP_RANGES (Some 32%Q) = b_hot <-> (30 < 32 <= 35)%Q).
Proof.
  assert (H : descending TEMP_RANGES) by (by vm_compute).
  split; [exact H|].
  exact (proj1 (proj2 (range_branch_intervals TEMP_RANGES 32 H))).
Defined.

(** ** Humidity and wind statistics *)

Lemma frame_average_between (g : Row -> cell) (f : WeatherRecord.t -> Q)
  (rs : list WeatherRecord.t) (rh rl : WeatherRecord.t) :
  (forall r, g (to_row r) = Some (f r)) ->
  rs <> [] ->
  (forall r, r ∈ rs -> (f rl <= f r <= f rh)%Q) ->
  one_decimal (f rh) -> one_decimal (f rl) ->
  exists avg, round1 (pd.mean (g <$> frame_of rs)) = Some avg /\
              (f rl <= avg <= f rh)%Q.
Proof.
  intros Hgf Hne Hb [kh Hkh] [kl Hkl].
  set (col := g <$> frame_of rs).
  assert (Hdrop : pd.dropna col = f <$> rs) by apply (frame_dropna g f Hgf).
  assert (Hne' : pd.dropna col <> []).
  { rewrite Hdrop. by destruct rs. }
  assert (Hbd : forall x, x ∈ pd.dropna col -> (f rl <= x <= f rh)%Q).
  { intros x Hx. rewrite Hdrop in Hx.
    apply list_elem_of_fmap in Hx as (r & -> & Hr). by apply Hb. }
  destruct (mean_between _ _ col Hne' Hbd) as (mu & Hmu & Hmub).
  destruct (round1_between kl kh _ _ mu Hkl Hkh Hmub) as (avg & Havg & Havgb).
  exists avg. by rewrite Hmu.
Qed.

Lemma one_decimal_inject_Z (z : Z) : one_decimal (inject_Z z).
Proof.
  exists (10 * z)%Z. rewrite inject_Z_mult.
  change (inject_Z 10) with 10%Q. field.
Qed.

(** Humidity is an integer, so rounding the mean to one decimal cannot take
    it outside the extremes: for every non-empty RecordSet the humidity
    statistics succeed, highest and lowest are the maximum and the minimum
    of the humidity field, and lowest <= average <= highest. *)
Theorem humidity_stats_bounds (r0 : WeatherRecord.t)
  (rs' : list WeatherRecord.t) :
  let rs := r0 :: rs' in
  exists (hi lo : Z) (avg : Q),
    humidity_stats_of (frame_of rs) (inject_Z hi) (inject_Z lo) avg /\
    (inject_Z lo <= avg <= inject_Z hi)%Q /\
    (forall r, r ∈ rs -> (lo <= WeatherRecord.humidity r <= hi)%Z) /\
    (exists r, r ∈ rs /\ WeatherRecord.humidity r = hi) /\
    (exists r, r ∈ rs /\ WeatherRecord.humidity r = lo).
Proof.
  intros rs.
  destruct (frame_cities humidity
              (fun r => inject_Z (WeatherRecord.humidity r)) r0 rs'
              humidity_to_row)
    as (rh & rl & Hmax & Hmin & Hh & Hl & Hrh & Hrl & Hb & _ & _).
  pose proof (get_humidity_stats_frame r0 rs' rh rl Hmax Hmin Hh Hl) as Hs.
  fold rs in Hrh, Hrl, Hb, Hs. cbv beta in Hb.
  destruct (frame_average_between humidity
              (fun r => inject_Z (WeatherRecord.humidity r)) rs rh rl
              humidity_to_row) as (avg & Havg & Havgb);
    [done | done | apply one_decimal_inject_Z | apply one_decimal_inject_Z |].
  rewrite Havg in Hs.
  exists (WeatherRecord.humidity rh), (WeatherRecord.humidity rl), avg.
  split; [|split; [|split; [|split]]].
  - eexists. split; [exact Hs|]. by simplify_map_eq.
  - exact Havgb.
  - intros r Hr. destruct (Hb r Hr) as [H1 H2].
    rewrite <- Zle_Qle in H1, H2. done.
  - by exists rh.
  - by exists rl.
Qed.

(** In any arithmetic that is accurate on numbers of magnitude at most B
    and columns of at most N values, for every non-empty RecordSet of at
    most N records whose wind speeds are the floats of numbers with one
    decimal place of magnitude at most B - 1, the wind statistics succeed,
    highest and lowest are the maximum and the minimum of the wind speed
    field, and lowest <= average <= highest. *)
Theorem wind_stats_bounds (ops : float_ops) (B : Q) (N : nat)
  (r0 : WeatherRecord.t) (rs' : list WeatherRecord.t) :
  let rs := r0 :: rs' in
  accurate ops B N ->
  (length rs <= N)%nat ->
  Forall (fun r => one_decimal_float ops B (WeatherRecord.wind_speed r)) rs ->
  exists hi lo avg,
    wind_stats_with_of ops (frame_of rs) hi lo avg /\
    (lo <= avg <= hi)%Q /\
    (forall r, r ∈ rs -> (lo <= WeatherRecord.wind_speed r <= hi)%Q) /\
    (exists r, r ∈ rs /\ WeatherRecord.wind_speed r = hi) /\
    (exists r, r ∈ rs /\ WeatherRecord.wind_speed r = lo).
Proof.
  intros rs Hacc Hlen Hdec. rewrite Forall_forall in Hdec.
  destruct (frame_cities wind_speed WeatherRecord.wind_speed r0 rs'
              wind_speed_to_row)
    as (rh & rl & Hmax & Hmin & Hh & Hl & Hrh & Hrl & Hb & _ & _).
  pose proof (get_wind_stats_with_frame ops r0 rs' rh rl Hmax Hmin Hh Hl) as Hs.
  fold rs in Hrh, Hrl, Hb, Hs.
  destruct (frame_rounded_between ops B N wind_speed WeatherRecord.wind_speed
              rs rh rl Hacc wind_speed_to_row) as [(avg & Havg & Havgb) _];
    [done | done | done | by apply Hdec | by apply Hdec |].
  rewrite Havg in Hs.
  exists (WeatherRecord.wind_speed rh), (WeatherRecord.wind_speed rl), avg.
  split; [|split; [|split; [|split]]].
  - eexists. split; [exact Hs|]. by simplify_map_eq.
  - exact Havgb.
  - exact Hb.
  - by exists rh.
  - by exists rl.
Qed.

Lemma wind_stats_bounds_witness :
  accurate low_ops 1000 10 /\
  (length two_readings <= 10)%nat /\
  Forall (fun r => one_decimal_float low_ops 1000 (WeatherRecord.wind_speed r))
    two_readings /\
  exists hi lo avg,
    wind_stats_with_of low_ops (frame_of two_readings) hi lo avg /\
    (lo <= avg <= hi)%Q.
Proof.
  assert (H1 : (length two_readings <= 10)%nat) by (cbn; lia).
  assert (H2 : Forall (fun r => one_decimal_float low_ops 1000
                                  (WeatherRecord.wind_speed r)) two_readings).
  { constructor; [exists 52%Z; by vm_compute|].
    constructor; [exists 33%Z; by vm_compute|].
    constructor. }
  split; [apply low_ops_accurate|]. split; [exact H1|]. split; [exact H2|].
  destruct (wind_stats_bounds low_ops 1000 10
              (WeatherRecord.mk "Bergen" 15.2 80 "Light Rain" 5.2 "NO"
                 "2024-05-01 10:00:00")
              (tail two_readings) (low_ops_accurate 1000 10) H1 H2)
    as (hi & lo & avg & Hs & Hb & _).
  by exists hi, lo, avg.
Defined.

(** ** The distribution counts every record once *)

Lemma counter_add_sum (k : string) (c : list (string * nat)) :
  sum_list (counter_add k c).*2 = S (sum_list c.*2).
Proof.
  induction c as [|[k' n] c IH]; [done|]. cbn [counter_add].
  destruct (decide (k = k')); [done|].
  rewrite !fmap_cons. cbn [sum_list sum_list_with snd]. rewrite IH. lia.
Qed.

Lemma Counter_sum (l : list string) : sum_list (Counter l).*2 = length l.
Proof.
  induction l as [|k l IH] using rev_ind; [done|].
  rewrite Counter_snoc, counter_add_sum, IH, length_app. cbn [length]. lia.
Qed.

Lemma insert_desc_sum (x : string * nat) (l : list (string * nat)) :
  sum_list (insert_desc x l).*2 = (x.2 + sum_list l.*2)%nat.
Proof.
  induction l as [|y l IH]; [done|]. cbn [insert_desc].
  destruct (x.2 <? y.2)%nat; [|done].
  rewrite !fmap_cons. cbn [sum_list sum_list_with] in *. rewrite IH.
  unfold id. lia.
Qed.

Lemma most_common_sum (c : list (string * nat)) :
  sum_list (most_common c).*2 = sum_list c.*2.
Proof.
  induction c as [|x c IH]; [done|]. simpl.
  by rewrite insert_desc_sum, IH.
Qed.

(** The counts of the weather distribution add up to the number of records
    of the frame, the number the comprehensive analysis reports as
    total_cities. *)
Theorem weather_distribution_total (cfg : TempRanges) (df : DataFrame) :
  sum_list (get_weather_distribution df).*2 = length df /\
  (forall a, get_comprehensive_analysis cfg df = Ok a ->
             sum_list (weather_distribution a).*2 = total_cities a).
Proof.
  assert (H : sum_list (get_weather_distribution df).*2 = length df).
  { destruct df as [|r0 df]; [done|]. unfold get_weather_distribution.
    cbn [empty]. by rewrite most_common_sum, Counter_sum, length_fmap. }
  split; [exact H|]. intros a Ha. unfold get_comprehensive_analysis in Ha.
  destruct (get_temperature_stats df); [|done].
  destruct (get_humidity_stats df); [|done].
  destruct (get_wind_stats df); [|done].
  cbn in Ha. injection Ha as <-. exact H.
Qed.

Lemma weather_distribution_total_witness :
  exists a,
    get_comprehensive_analysis TEMP_RANGES (frame_of sample_records) = Ok a /\
    sum_list (weather_distribution a).*2 = total_cities a.
Proof.
  eexists. split; [reflexivity|].
  exact (proj2 (weather_distribution_total TEMP_RANGES
           (frame_of sample_records)) _ eq_refl).
Defined.

(** ** When the comprehensive analysis succeeds *)



(** ** Title case, lower case and whitespace *)

Lemma lower_char_idem (c : ascii) :
  Str.lower_char (Str.lower_char c) = Str.lower_char c.
Proof. destruct c as [[] [] [] [] [] [] [] []]; reflexivity. Qed.

Lemma lower_upper_char (c : ascii) :
  Str.lower_char (PyStr.upper_char c) = Str.lower_char c.
Proof. destruct c as [[] [] [] [] [] [] [] []]; reflexivity. Qed.

Lemma lower_title_from (b : bool) (s : string) :
  Str.lower (PyStr.title_from b s) = Str.lower s.
Proof.
  revert b; induction s as [|c s IH]; intros b; [done|].
  cbn [PyStr.title_from Str.lower]. rewrite IH.
  by destruct b; rewrite ?lower_char_idem, ?lower_upper_char.
Qed.

Lemma rstrip_cons (c : ascii) (s : string) :
  PyStr.rstrip (String c s)
  = match PyStr.rstrip s with
    | EmptyString =>
        if PyStr.is_space c then EmptyString else String c EmptyString
    | t => String c t
    end.
Proof. reflexivity. Qed.

Lemma rstrip_idem (s : string) : PyStr.rstrip (PyStr.rstrip s) = PyStr.rstrip s.
Proof.
  induction s as [|c s IH]; [done|]. rewrite rstrip_cons.
  destruct (PyStr.rstrip s) as [|d t] eqn:E.
  - destruct (PyStr.is_space c) eqn:Hc; [done|].
    rewrite rstrip_cons. cbn [PyStr.rstrip]. by rewrite Hc.
  - rewrite rstrip_cons, IH. done.
Qed.

Lemma lstrip_head (s : string) : PyStr.head_not_space (PyStr.lstrip s).
Proof.
  induction s as [|c s IH]; [done|]. cbn [PyStr.lstrip].
  by destruct (PyStr.is_space c) eqn:Hc.
Qed.

Lemma rstrip_head (s : string) :
  PyStr.head_not_space s -> PyStr.head_not_space (PyStr.rstrip s).
Proof.
  destruct s as [|c s]; [done|]. intros Hc. rewrite rstrip_cons.
  destruct (PyStr.rstrip s); [|done].
  simpl in Hc. by rewrite Hc.
Qed.

Lemma lstrip_fix (s : string) : PyStr.head_not_space s -> PyStr.lstrip s = s.
Proof. destruct s as [|c s]; [done|]. simpl. by intros ->. Qed.

Lemma strip_head (s : string) : PyStr.head_not_space (PyStr.strip s).
Proof. apply rstrip_head, lstrip_head. Qed.

Lemma strip_idem (s : string) : PyStr.strip (PyStr.strip s) = PyStr.strip s.
Proof.
  unfold PyStr.strip at 1. rewrite (lstrip_fix _ (strip_head s)).
  unfold PyStr.strip. apply rstrip_idem.
Qed.

(** ** read_cities_file *)

Lemma strip_empty_iff (s : string) :
  PyStr.strip s = EmptyString <-> PyStr.all_space s = true.
Proof.
  unfold PyStr.strip. induction s as [|c s IH]; [done|].
  cbn [PyStr.lstrip PyStr.all_space].
  destruct (PyStr.is_space c) eqn:Hc; [exact IH|].
  rewrite rstrip_cons, Hc. split; [|done].
  by destruct (PyStr.rstrip s).
Qed.

Lemma rstrip_last (s : string) : PyStr.last_not_space (PyStr.rstrip s).
Proof.
  induction s as [|c s IH]; [done|]. rewrite rstrip_cons.
  destruct (PyStr.rstrip s) as [|d t].
  - by destruct (PyStr.is_space c) eqn:Hc.
  - exact IH.
Qed.

Lemma read_cities_file_lines (cities_file : string)
  (fs : gmap string (list string)) (lines : list string) :
  read_cities_file cities_file (<[cities_file := lines]> fs)
  = PyStr.strip <$> filter (fun l => PyStr.all_space l = false) lines.
Proof.
  unfold read_cities_file. rewrite lookup_insert_eq.
  induction lines as [|l lines IH]; [done|].
  cbn [omap list_omap]. rewrite filter_cons.
  destruct (decide (PyStr.strip l = EmptyString)) as [He|Hne].
  - apply strip_empty_iff in He. rewrite decide_False by (by rewrite He).
    exact IH.
  - rewrite decide_True.
    + by rewrite fmap_cons, IH.
    + destruct (PyStr.all_space l) eqn:E; [|done].
      by apply strip_empty_iff in E.
Qed.



(** ** _parse_weather_data *)

Lemma is_cased_lower_char (c : ascii) :
  PyStr.is_cased (Str.lower_char c) = PyStr.is_cased c.
Proof. destruct c as [[] [] [] [] [] [] [] []]; reflexivity. Qed.

Lemma is_cased_upper_char (c : ascii) :
  PyStr.is_cased (PyStr.upper_char c) = PyStr.is_cased c.
Proof. destruct c as [[] [] [] [] [] [] [] []]; reflexivity. Qed.

Lemma upper_char_idem (c : ascii) :
  PyStr.upper_char (PyStr.upper_char c) = PyStr.upper_char c.
Proof. destruct c as [[] [] [] [] [] [] [] []]; reflexivity. Qed.

Lemma title_from_idem (b : bool) (s : string) :
  PyStr.title_from b (PyStr.title_from b s) = PyStr.title_from b s.
Proof.
  revert b; induction s as [|c s IH]; intros b; [done|].
  cbn [PyStr.title_from]. destruct b.
  - by rewrite lower_char_idem, is_cased_lower_char, IH.
  - by rewrite upper_char_idem, is_cased_upper_char, IH.
Qed.

Lemma parse_weather_data_Some (ops : float_ops) (now : string)
  (data : weather_api.payload) (city : string) (r : WeatherRecord.t) :
  weather_api._parse_weather_data ops now data city = Some r ->
  exists temp hum desc speed ctry,
    weather_api.main_temp data = Some temp /\
    weather_api.main_humidity data = Some hum /\
    weather_api.weather_0_description data = Some desc /\
    weather_api.wind_dot_speed data = Some speed /\
    weather_api.sys_country data = Some ctry /\
    r = WeatherRecord.mk city (py_round1 ops temp) hum (PyStr.title desc)
          (py_round1 ops speed) ctry now.
Proof.
  unfold weather_api._parse_weather_data. intros H.
  destruct (weather_api.main_temp data) as [temp|]; [|done].
  destruct (weather_api.main_humidity data) as [hum|]; [|done].
  destruct (weather_api.weather_0_description data) as [desc|]; [|done].
  destruct (weather_api.wind_dot_speed data) as [speed|]; [|done].
  destruct (weather_api.sys_country data) as [ctry|]; [|done].
  cbn in H. injection H as <-. by exists temp, hum, desc, speed, ctry.
Qed.

Lemma fetch_weather_data_status (ops : float_ops) (code : Z)
  (json : option weather_api.payload) (now city : string) :
  weather_api.fetch_weather_data ops (weather_api.Response code json) now city
  = if decide (code = 200%Z)
    then data ← json; weather_api._parse_weather_data ops now data city
    else None.
Proof.
  destruct (decide (code = 200%Z)) as [->|Hne]; [by destruct json|].
  unfold weather_api.fetch_weather_data.
  destruct code as [|p|p]; try done.
  do 8 (destruct p as [p|p|]; try done).
Qed.

(** The body of a response parses exactly when the five leaves it reads
    are all present; a missing one makes [fetch_weather_data] return nothing,
    as does any status code other than 200 and any request exception. *)
Theorem fetch_weather_data_Some_iff (ops : float_ops)
  (got : weather_api.http_result) (now city : string) :
  is_Some (weather_api.fetch_weather_data ops got now city) <->
  exists data,
    got = weather_api.Response 200 (Some data) /\
    is_Some (weather_api.main_temp data) /\
    is_Some (weather_api.main_humidity data) /\
    is_Some (weather_api.weather_0_description data) /\
    is_Some (weather_api.wind_dot_speed data) /\
    is_Some (weather_api.sys_country data).
Proof.
  split.
  - intros [r Hr]. destruct got as [|code json]; [done|].
    rewrite fetch_weather_data_status in Hr.
    destruct (decide (code = 200%Z)) as [->|Hne]; [|done].
    destruct json as [data|]; [|done]. cbn in Hr.
    apply parse_weather_data_Some in Hr
      as (temp & hum & desc & speed & ctry & Ht & Hh & Hd & Hs & Hc & _).
    exists data. rewrite Ht, Hh, Hd, Hs, Hc. by repeat split.
  - intros (data & -> & [t Ht] & [h Hh] & [d Hd] & [s Hs] & [c Hc]).
    unfold weather_api.fetch_weather_data, weather_api._parse_weather_data.
    rewrite Ht, Hh, Hd, Hs, Hc. by eexists.
Qed.

Lemma fetch_weather_data_Some_iff_witness :
  is_Some (weather_api.fetch_weather_data exact_ops (steady_net 1 "London")
             (steady_clock 1) "London").
Proof.
  apply (proj2 (fetch_weather_data_Some_iff exact_ops (steady_net 1 "London")
                  (steady_clock 1) "London")).
  exists steady_body. by repeat split.
Defined.

(** Title-casing the description at ingestion does not change how the
    analyzer classifies the record: its category is the one of the
    description the API sent. *)
Theorem parsed_record_category (ops : float_ops) (now : string)
  (data : weather_api.payload) (city desc : string) (r : WeatherRecord.t) :
  weather_api._parse_weather_data ops now data city = Some r ->
  weather_api.weather_0_description data = Some desc ->
  row_category (to_row r) = weather_branch (Str.lower desc).
Proof.
  intros H Hdesc.
  apply parse_weather_data_Some in H
    as (temp & hum & desc' & speed & ctry & _ & _ & Hd & _ & _ & ->).
  rewrite Hdesc in Hd. injection Hd as <-.
  unfold row_category. cbn. unfold PyStr.title. by rewrite lower_title_from.
Qed.

Lemma parsed_record_category_witness :
  exists r,
    weather_api._parse_weather_data exact_ops (steady_clock 1) steady_body
      "London" = Some r /\
    row_category (to_row r) = rain.
Proof.
  eexists. split; [reflexivity|].
  exact (parsed_record_category exact_ops (steady_clock 1) steady_body "London"
           "light rain" _ eq_refl eq_refl).
Defined.

(** ** fetch_multiple_cities *)

Lemma fetch_loop_cons (ops : float_ops)
  (net : nat -> string -> weather_api.http_result)
  (clock : nat -> string) (i total : nat) (city : string) (rest : list string) :
  weather_api.fetch_loop ops net clock i total (city :: rest)
  = (match weather_api.fetch_weather_data ops (net i (PyStr.strip city))
             (clock i) (PyStr.strip city) with
     | Some d => [d]
     | None => []
     end ++ (weather_api.fetch_loop ops net clock (S i) total rest).1,
     weather_api.Request (PyStr.strip city)
       :: (if (i <? total)%nat then [weather_api.Sleep] else [])
       ++ (weather_api.fetch_loop ops net clock (S i) total rest).2).
Proof.
  cbn [weather_api.fetch_loop].
  by destruct (weather_api.fetch_loop ops net clock (S i) total rest).
Qed.

(** What a fetched record holds, and when there is one. *)
Lemma fetch_weather_data_answered (ops : float_ops)
  (got : weather_api.http_result) (now city : string) :
  match weather_api.fetch_weather_data ops got now city with
  | Some r =>
      answered got = true /\ WeatherRecord.city r = city /\
      WeatherRecord.timestamp r = now /\
      PyStr.title (WeatherRecord.description r) = WeatherRecord.description r /\
      exists data temp,
        got = weather_api.Response 200 (Some data) /\
        weather_api.main_temp data = Some temp /\
        WeatherRecord.temperature r = py_round1 ops temp
  | None => answered got = false
  end.
Proof.
  destruct got as [|code json]; [done|].
  rewrite fetch_weather_data_status. unfold answered.
  destruct (decide (code = 200%Z)) as [->|Hne];
    [|by rewrite bool_decide_eq_false_2].
  rewrite bool_decide_eq_true_2 by done. cbn [andb].
  destruct json as [data|]; [|done]. cbn [mbind option_bind].
  destruct (weather_api._parse_weather_data ops now data city) as [r|] eqn:E.
  - apply parse_weather_data_Some in E
      as (temp & hum & desc & speed & ctry & Ht & Hh & Hd & Hs & Hc & ->).
    rewrite Ht, Hh, Hd, Hs, Hc. cbn.
    split; [done|]. split; [done|]. split; [done|].
    split; [apply title_from_idem|]. by exists data, temp.
  - unfold weather_api._parse_weather_data in E.
    destruct (weather_api.main_temp data); [|done].
    destruct (weather_api.main_humidity data); [|done].
    destruct (weather_api.weather_0_description data); [|done].
    destruct (weather_api.wind_dot_speed data); [|done].
    destruct (weather_api.sys_country data); done.
Qed.

Lemma fetch_loop_records (ops : float_ops)
  (net : nat -> string -> weather_api.http_result)
  (clock : nat -> string) (total : nat) (cities : list string) (i : nat) :
  let data := (weather_api.fetch_loop ops net clock i total cities).1 in
  let asked := zip (seq i (length cities)) (PyStr.strip <$> cities) in
  data = omap (fun ic => weather_api.fetch_weather_data ops (net ic.1 ic.2)
                           (clock ic.1) ic.2) asked /\
  WeatherRecord.city <$> data
  = snd <$> filter (fun ic => answered (net ic.1 ic.2) = true) asked /\
  WeatherRecord.timestamp <$> data
  = (fun ic => clock ic.1)
      <$> filter (fun ic => answered (net ic.1 ic.2) = true) asked /\
  Forall (fun r => PyStr.title (WeatherRecord.description r)
                   = WeatherRecord.description r) data.
Proof.
  revert i; induction cities as [|city rest IH]; intros i.
  - by repeat split.
  - cbv zeta. rewrite fetch_loop_cons. cbn [fst].
    destruct (IH (S i)) as (Hd & Hc & Ht & Hf). cbv zeta in Hd, Hc, Ht, Hf.
    change (zip (seq i (length (city :: rest))) (PyStr.strip <$> city :: rest))
      with ((i, PyStr.strip city)
              :: zip (seq (S i) (length rest)) (PyStr.strip <$> rest)).
    cbn [omap list_omap fst snd]. rewrite filter_cons. cbn [fst snd].
    pose proof (fetch_weather_data_answered ops (net i (PyStr.strip city))
                  (clock i) (PyStr.strip city)) as Hone.
    destruct (weather_api.fetch_weather_data ops _ _ _) as [d|].
    + destruct Hone as (Ha & Hcity & Hts & Htitle & _).
      rewrite decide_True by done. cbn [app]. rewrite !fmap_cons.
      cbn [fst snd]. rewrite Hcity, Hts, <- Hd, Hc, Ht.
      split; [done|]. split; [done|]. split; [done|]. by constructor.
    + rewrite decide_False by (by rewrite Hone). cbn [app].
      by rewrite <- Hd.
Qed.

(** The records fetched for a list of cities are those of the cities whose
    request was answered, in the order of the list: with the cities numbered
    from 1 and their names stripped, the result is what
    [fetch_weather_data] returns for each of them, the failures left out; a
    city is kept exactly when its request was answered with status 200 and
    a body holding the five values read; a record carries the stripped name
    asked for and the clock of its own request, and its description is in
    title case.  So there are at most as many records as cities. *)
Theorem fetch_multiple_cities_records (ops : float_ops)
  (net : nat -> string -> weather_api.http_result) (clock : nat -> string)
  (cities : list string) :
  let data := (weather_api.fetch_multiple_cities ops net clock cities).1 in
  let asked := zip (seq 1 (length cities)) (PyStr.strip <$> cities) in
  let kept := filter (fun ic => answered (net ic.1 ic.2) = true) asked in
  data = omap (fun ic => weather_api.fetch_weather_data ops (net ic.1 ic.2)
                           (clock ic.1) ic.2) asked /\
  WeatherRecord.city <$> data = snd <$> kept /\
  WeatherRecord.timestamp <$> data = (fun ic => clock ic.1) <$> kept /\
  Forall (fun r => PyStr.title (WeatherRecord.description r)
                   = WeatherRecord.description r) data /\
  length data = length kept /\
  (length data <= length cities)%nat.
Proof.
  intros data asked kept.
  destruct (fetch_loop_records ops net clock (length cities) cities 1)
    as (Hd & Hc & Ht & Hf).
  fold data asked in Hd, Hc, Ht, Hf. fold kept in Hc, Ht.
  assert (Hlen : length data = length kept).
  { pose proof (f_equal length Hc) as Hl. by rewrite !length_fmap in Hl. }
  split; [exact Hd|]. split; [exact Hc|]. split; [exact Ht|].
  split; [exact Hf|]. split; [exact Hlen|].
  rewrite Hlen. unfold kept. etrans; [apply length_filter|].
  unfold asked. rewrite length_zip, length_seq, length_fmap. lia.
Qed.

Lemma fetch_loop_events (ops : float_ops)
  (net : nat -> string -> weather_api.http_result)
  (clock : nat -> string) (total : nat) (cities : list string) (i : nat) :
  (i + length cities = S total)%nat ->
  (weather_api.fetch_loop ops net clock i total cities).2
  = between weather_api.Sleep (weather_api.Request <$> (PyStr.strip <$> cities)).
Proof.
  revert i; induction cities as [|city rest IH]; intros i Hi; [done|].
  rewrite fetch_loop_cons. cbn [snd]. cbn [length] in Hi.
  destruct rest as [|city' rest'].
  - cbn [length] in Hi. assert (Hlt : (i <? total)%nat = false)
      by (apply Nat.ltb_ge; lia).
    rewrite Hlt. done.
  - assert (Hlt : (i <? total)%nat = true)
      by (apply Nat.ltb_lt; cbn [length] in Hi; lia).
    rewrite Hlt, (IH (S i)) by (cbn [length] in *; lia).
    by rewrite !fmap_cons.
Qed.

Lemma between_cons_cons {A : Type} (sep x y : A) (l : list A) :
  between sep (x :: y :: l) = x :: sep :: between sep (y :: l).
Proof. reflexivity. Qed.

Lemma last_between {A : Type} (sep : A) (l : list A) :
  last (between sep l) = last l.
Proof.
  induction l as [|x l IH]; [done|]. destruct l as [|y l]; [done|].
  rewrite between_cons_cons, last_cons_cons.
  destruct (between sep (y :: l)) as [|z zs] eqn:E; [by destruct l|].
  by rewrite last_cons_cons, IH, last_cons_cons.
Qed.

Lemma requests_between (cs : list string) :
  requests (between weather_api.Sleep (weather_api.Request <$> cs)) = cs.
Proof.
  induction cs as [|c [|c' cs] IH]; [done | done |].
  rewrite !fmap_cons in *. cbn [between] in *. unfold requests in *.
  cbn [omap list_omap] in *. by rewrite IH.
Qed.

Lemma sleeps_between (cs : list string) :
  sleeps (between weather_api.Sleep (weather_api.Request <$> cs))
  = (length cs - 1)%nat.
Proof.
  induction cs as [|c [|c' cs] IH]; [done | done |].
  rewrite !fmap_cons in *. cbn [between] in *. unfold sleeps in *.
  cbn [List.filter length] in *. rewrite IH. lia.
Qed.

(** Fetching a list of cities sends exactly one request per city, for the
    stripped name and in the order of the list (nothing is retried), and
    sleeps once between every two consecutive requests and nowhere else:
    the actions are the requests with one sleep put between each two of
    them.  So the number of sleeps is one less than the number of cities,
    the first action is a request and the last action is the request of the
    last city. *)
Theorem fetch_multiple_cities_events (ops : float_ops)
  (net : nat -> string -> weather_api.http_result) (clock : nat -> string)
  (cities : list string) :
  let events := (weather_api.fetch_multiple_cities ops net clock cities).2 in
  events = between weather_api.Sleep
             (weather_api.Request <$> (PyStr.strip <$> cities)) /\
  requests events = PyStr.strip <$> cities /\
  sleeps events = (length cities - 1)%nat /\
  head events = weather_api.Request <$> head (PyStr.strip <$> cities) /\
  last events = weather_api.Request <$> last (PyStr.strip <$> cities).
Proof.
  intros events.
  assert (H : events = between weather_api.Sleep
                         (weather_api.Request <$> (PyStr.strip <$> cities))).
  { apply fetch_loop_events. lia. }
  split; [exact H|]. rewrite H. split; [apply requests_between|].
  split; [by rewrite sleeps_between, length_fmap|].
  split.
  - by destruct cities as [|c [|c' cs]].
  - by rewrite last_between, fmap_last.
Qed.

(** ** Fetched data and the temperature statistics *)

Lemma fetch_loop_one_decimal (ops : float_ops) (B : Q) (N : nat)
  (net : nat -> string -> weather_api.http_result)
  (clock : nat -> string) (total : nat) (cities : list string) (i : nat) :
  accurate ops B N -> bounded_net B net ->
  Forall (fun r => one_decimal_float ops B (WeatherRecord.temperature r))
    (weather_api.fetch_loop ops net clock i total cities).1.
Proof.
  intros Hacc Hnet. revert i; induction cities as [|city rest IH]; intros i.
  - constructor.
  - rewrite fetch_loop_cons. cbn [fst].
    pose proof (fetch_weather_data_answered ops (net i (PyStr.strip city))
                  (clock i) (PyStr.strip city)) as Hone.
    destruct (weather_api.fetch_weather_data ops _ _ _) as [d|]; [|apply IH].
    destruct Hone as (_ & _ & _ & _ & data & temp & Hgot & Htemp & Hd).
    constructor; [|apply IH].
    destruct (Hnet _ _ _ _ Hgot Htemp) as [Hb1 Hb2].
    destruct (py_round1_near ops B N Hacc temp) as (j & Hj & Hj1 & Hj2).
    { split; lra. }
    exists j. rewrite Hd. split; [exact Hj|]. unfold eps in *. split; lra.
Qed.

(** Fetched temperatures are rounded to one decimal place at ingestion, so
    the statistics of fetched data are ordered, whatever the network
    answers: in an arithmetic that is accurate on numbers of magnitude at
    most B and columns of at most N values, when at most N cities are asked
    for, the temperatures answered have magnitude at most B - 2 and at
    least one city is fetched, the temperature statistics of the fetched
    records succeed with highest >= average >= lowest and
    highest >= median >= lowest. *)
Theorem fetched_temperature_stats_ordered (ops : float_ops) (B : Q) (N : nat)
  (net : nat -> string -> weather_api.http_result) (clock : nat -> string)
  (cities : list string) :
  let data := (weather_api.fetch_multiple_cities ops net clock cities).1 in
  accurate ops B N ->
  (length cities <= N)%nat ->
  bounded_net B net ->
  data <> [] ->
  exists hi lo avg med,
    temperature_stats_with_of ops (frame_of data) hi lo avg med /\
    (lo <= avg <= hi)%Q /\ (lo <= med <= hi)%Q.
Proof.
  intros data Hacc Hlen Hnet Hne.
  assert (Hdec : Forall (fun r => one_decimal_float ops B
                                    (WeatherRecord.temperature r)) data)
    by by apply (fetch_loop_one_decimal ops B N).
  assert (Hlen' : (length data <= N)%nat).
  { destruct (fetch_loop_records ops net clock (length cities) cities 1)
      as (_ & Hc & _).
    pose proof (f_equal length Hc) as Hl. rewrite !length_fmap in Hl.
    unfold data, weather_api.fetch_multiple_cities. rewrite Hl.
    etrans; [apply length_filter|].
    rewrite length_zip, length_seq, length_fmap. lia. }
  destruct data as [|r0 rs']; [done|].
  destruct (temperature_stats_with_bounds ops B N r0 rs' Hacc Hlen' Hdec)
    as [(hi & lo & avg & med & Hs & Ha & Hm & _) _].
  by exists hi, lo, avg, med.
Qed.

Lemma fetched_temperature_stats_ordered_witness :
  accurate low_ops 1000 10 /\
  (length [" London"; "Oslo "] <= 10)%nat /\
  bounded_net 1000 steady_net /\
  (weather_api.fetch_multiple_cities low_ops steady_net steady_clock
     [" London"; "Oslo "]).1 <> [] /\
  exists hi lo avg med,
    temperature_stats_with_of low_ops
      (frame_of (weather_api.fetch_multiple_cities low_ops steady_net
                   steady_clock [" London"; "Oslo "]).1) hi lo avg med /\
    (lo <= avg <= hi)%Q /\ (lo <= med <= hi)%Q.
Proof.
  assert (H1 : (length [" London"; "Oslo "] <= 10)%nat) by (cbn; lia).
  assert (H2 : bounded_net 1000 steady_net).
  { intros i c data t Hgot Ht. injection Hgot as <-. injection Ht as <-.
    by vm_compute. }
  assert (H3 : (weather_api.fetch_multiple_cities low_ops steady_net
                  steady_clock [" London"; "Oslo "]).1 <> []) by (by vm_compute).
  split; [apply low_ops_accurate|]. split; [exact H1|]. split; [exact H2|].
  split; [exact H3|].
  exact (fetched_temperature_stats_ordered low_ops 1000 10 steady_net
           steady_clock [" London"; "Oslo "] (low_ops_accurate 1000 10)
           H1 H2 H3).
Defined.

(** ** Loading what was saved *)

Lemma load_after_save (repr_float : Q -> string) (repr_int : Z -> string)
  (parse_number : string -> option Q) (data_file : string)
  (r0 : WeatherRecord.t) (rs' : list WeatherRecord.t)
  (fs : gmap string csv.file) :
  csv.load_from_csv parse_number data_file
    (csv.save_to_csv repr_float repr_int data_file (r0 :: rs') fs).2
  = Some (csv.read_csv parse_number (csv.to_csv repr_float repr_int (r0 :: rs'))).
Proof.
  unfold csv.load_from_csv, csv.save_to_csv. cbn [snd].
  by rewrite lookup_insert_eq.
Qed.

(** ** A lossless round trip *)

Lemma seq_fmap_lookup {A B : Type} (F : nat -> B) (G : A -> B) (l : list A) :
  (forall i r, l !! i = Some r -> F i = G r) ->
  F <$> seq 0 (length l) = G <$> l.
Proof.
  intros H. apply list_eq. intros i. rewrite !list_lookup_fmap.
  destruct (l !! i) as [r|] eqn:E.
  - rewrite lookup_seq_lt by (by apply lookup_lt_Some in E). cbn.
    f_equal. by apply H.
  - rewrite lookup_seq_ge by (by apply lookup_ge_None in E). done.
Qed.

Lemma filter_not_na (texts : list string) :
  Forall (fun t => csv.is_na t = false) texts ->
  List.filter (fun t => negb (csv.is_na t)) texts = texts.
Proof.
  induction 1 as [|t ts Ht _ IH]; [done|]. cbn. by rewrite Ht, IH.
Qed.

Lemma infer_column_text (parse_number : string -> option Q) (texts : list string) :
  Forall (text_safe parse_number) texts ->
  csv.infer_column parse_number texts = csv.LStr <$> texts.
Proof.
  intros H. unfold csv.infer_column.
  rewrite filter_not_na by (eapply Forall_impl; [exact H | by intros t []]).
  destruct H as [|t ts (Hna & Hp & Hb & _) Hts]; [done|].
  cbn [forallb]. rewrite Hp, Hb. cbn [andb].
  rewrite bool_decide_eq_false_2 by (by intros [? ?]). cbn [andb].
  apply Forall_fmap_ext_1. constructor; [by rewrite Hna|].
  eapply Forall_impl; [exact Hts|]. by intros t' [-> _].
Qed.

Lemma infer_column_number {A : Type} (parse_number : string -> option Q)
  (repr : A -> string) (val : A -> Q) (l : list A) :
  Forall (fun a => number_safe parse_number (repr a) (val a)) l ->
  csv.infer_column parse_number (repr <$> l) = (fun a => csv.LNum (val a)) <$> l.
Proof.
  intros H. unfold csv.infer_column.
  rewrite filter_not_na
    by (apply Forall_fmap; eapply Forall_impl; [exact H | by intros a []]).
  assert (Hall : forallb (fun t => bool_decide (is_Some (parse_number t)))
                   (repr <$> l) = true).
  { induction H as [|a l' [_ Hp] _ IH]; [done|].
    rewrite fmap_cons. cbn [forallb]. rewrite Hp, IH.
    by rewrite bool_decide_eq_true_2. }
  rewrite Hall, <- list_fmap_compose.
  apply Forall_fmap_ext_1. eapply Forall_impl; [exact H|].
  intros a [Hna Hp]. cbn. by rewrite Hna, Hp.
Qed.

Lemma column_to_csv (repr_float : Q -> string) (repr_int : Z -> string)
  (rs : list WeatherRecord.t) :
  let ls := csv.lines (csv.to_csv repr_float repr_int rs) in
  csv.column 0 ls = WeatherRecord.city <$> rs /\
  csv.column 1 ls = (fun r => repr_float (WeatherRecord.temperature r)) <$> rs /\
  csv.column 2 ls = (fun r => repr_int (WeatherRecord.humidity r)) <$> rs /\
  csv.column 3 ls = WeatherRecord.description <$> rs /\
  csv.column 4 ls = (fun r => repr_float (WeatherRecord.wind_speed r)) <$> rs /\
  csv.column 5 ls = WeatherRecord.country <$> rs /\
  csv.column 6 ls = WeatherRecord.timestamp <$> rs.
Proof.
  intros ls. unfold ls, csv.column. cbn [csv.to_csv csv.lines].
  rewrite <- !list_fmap_compose. by repeat split.
Qed.

Lemma read_csv_to_csv (repr_float : Q -> string) (repr_int : Z -> string)
  (parse_number : string -> option Q) (rs : list WeatherRecord.t) :
  Forall (record_safe repr_float repr_int parse_number) rs ->
  csv.read_csv parse_number (csv.to_csv repr_float repr_int rs)
  = csv.expected rs.
Proof.
  intros H. unfold csv.read_csv, csv.expected.
  destruct (column_to_csv repr_float repr_int rs)
    as (C0 & C1 & C2 & C3 & C4 & C5 & C6).
  assert (Hlen : length (csv.lines (csv.to_csv repr_float repr_int rs))
                 = length rs) by apply length_fmap.
  assert (Hhead : seq 0 (length (csv.header (csv.to_csv repr_float repr_int rs)))
                  = [0; 1; 2; 3; 4; 5; 6]%nat) by reflexivity.
  rewrite Hlen, Hhead. cbn [fmap list_fmap].
  rewrite C0, C1, C2, C3, C4, C5, C6. f_equal.
  rewrite (infer_column_text parse_number (WeatherRecord.city <$> rs))
    by (apply Forall_fmap; eapply Forall_impl; [exact H | by intros r (?&?)]).
  rewrite (infer_column_number parse_number
             (fun r => repr_float (WeatherRecord.temperature r))
             WeatherRecord.temperature rs)
    by (eapply Forall_impl; [exact H | by intros r (?&?&?)]).
  rewrite (infer_column_number parse_number
             (fun r => repr_int (WeatherRecord.humidity r))
             (fun r => inject_Z (WeatherRecord.humidity r)) rs)
    by (eapply Forall_impl; [exact H | by intros r (?&?&?&?)]).
  rewrite (infer_column_text parse_number (WeatherRecord.description <$> rs))
    by (apply Forall_fmap; eapply Forall_impl;
        [exact H | by intros r (?&?&?&?&?)]).
  rewrite (infer_column_number parse_number
             (fun r => repr_float (WeatherRecord.wind_speed r))
             WeatherRecord.wind_speed rs)
    by (eapply Forall_impl; [exact H | by intros r (?&?&?&?&?&?)]).
  rewrite (infer_column_text parse_number (WeatherRecord.country <$> rs))
    by (apply Forall_fmap; eapply Forall_impl;
        [exact H | by intros r (?&?&?&?&?&?&?)]).
  rewrite (infer_column_text parse_number (WeatherRecord.timestamp <$> rs))
    by (apply Forall_fmap; eapply Forall_impl;
        [exact H | by intros r (?&?&?&?&?&?&?)]).
  apply seq_fmap_lookup. intros i r Hi.
  rewrite !list_lookup_fmap, Hi. done.
Qed.

(** A city whose name is a boolean literal comes back as a boolean, not as
    the string it was. *)
Lemma csv_reads_True_as_boolean (repr_float : Q -> string)
  (repr_int : Z -> string) (parse_number : string -> option Q) :
  parse_number "True" = None ->
  let r := WeatherRecord.mk "True" 18.5 72 "Light Rain" 4.1 "GB"
             "2024-05-01 10:00:00" in
  csv.rows (csv.read_csv parse_number (csv.to_csv repr_float repr_int [r]))
    !! 0%nat ≫= (fun row => row !! 0%nat) = Some (csv.LBool true).
Proof.
  intros Hparse r. cbn. unfold csv.infer_column. cbn.
  change (csv.is_na "True") with false.
  change (csv.parse_bool "True") with (Some true). cbn.
  rewrite Hparse. cbn.
  reflexivity.
Qed.



(** ** The report *)

Lemma startswith_append (p x : string) : Str.startswith p (p +:+ x) = true.
Proof.
  induction p as [|a p IH]; [done|].
  rewrite append_String. cbn [Str.startswith]. by rewrite decide_True.
Qed.

Lemma filter_bullets (cities : list string) :
  List.filter report.is_bullet (report.bullet <$> cities)
  = report.bullet <$> cities.
Proof.
  induction cities as [|c cities IH]; [done|].
  rewrite fmap_cons. cbn [List.filter].
  unfold report.is_bullet at 1, report.bullet at 1.
  by rewrite startswith_append, IH.
Qed.

Lemma filter_city_block (heading : nat -> string) (cities : list string) :
  (forall n, report.is_bullet (heading n) = false) ->
  List.filter report.is_bullet (report.city_block heading cities)
  = report.bullet <$> cities.
Proof.
  intros Hh. destruct cities as [|c cities]; [done|].
  unfold report.city_block. cbn [List.filter]. rewrite Hh.
  rewrite List.filter_app, filter_bullets. cbn [List.filter].
  change (report.is_bullet EmptyString) with false. by rewrite app_nil_r.
Qed.

Lemma filter_range_block (str_int : nat -> string) (cfg : TempRanges)
  (df : DataFrame) (b : bucket) :
  List.filter report.is_bullet
    (report.range_block str_int (get_temperature_ranges cfg df) b)
  = report.bullet <$> default [] (get_temperature_ranges cfg df !! bucket_key b).
Proof.
  unfold report.range_block.
  destruct (get_temperature_ranges cfg df !! bucket_key b) as [cities|]; [|done].
  apply filter_city_block. intros n. by destruct b.
Qed.

Lemma range_lists_perm (cfg : TempRanges) (df : DataFrame) :
  concat (range_lists cfg df) ≡ₚ city <$> df.
Proof.
  unfold range_lists. rewrite <- (bucket_split (row_bucket cfg)
    [b_very_hot; b_hot; b_warm; b_moderate; b_cool; b_cold] df).
  - cbn [fmap list_fmap]. by rewrite !get_temperature_ranges_list.
  - apply (bool_decide_unpack _). by vm_compute.
  - intros r. destruct (row_bucket cfg r); set_solver.
Qed.

(** In the report of a non-empty frame, the bullet lines of the TEMPERATURE
    RANGES section are the bullets of the six range lists, in the order
    very_hot to cold: every record's city is listed there exactly once,
    whatever the thresholds and the number format are. *)
Theorem report_ranges_list_every_city (str_int : nat -> string)
  (cfg : TempRanges) (row : Row) (rows : DataFrame) :
  let df := row :: rows in
  let section := report.ranges_lines str_int (get_temperature_ranges cfg df) in
  List.filter report.is_bullet section
    = report.bullet <$> concat (range_lists cfg df) /\
  List.filter report.is_bullet section ≡ₚ report.bullet <$> (city <$> df).
Proof.
  intros df section.
  assert (H : List.filter report.is_bullet section
              = report.bullet <$> concat (range_lists cfg df)).
  { unfold section, report.ranges_lines.
    assert (Hne : get_temperature_ranges cfg df <> ∅).
    { intros He. pose proof (get_temperature_ranges_lookup cfg df b_cold) as Hl.
      rewrite He, lookup_empty in Hl. by specialize (Hl ltac:(done)). }
    rewrite decide_False by done.
    rewrite List.filter_app. cbn [fmap list_fmap concat].
    rewrite !List.filter_app, !filter_range_block.
    unfold range_lists. cbn [fmap list_fmap concat List.filter].
    change (report.is_bullet "TEMPERATURE RANGES") with false.
    change (report.is_bullet (report.times 30 "-")) with false.
    cbn [app]. by rewrite !fmap_app. }
  split; [exact H|]. by rewrite H, range_lists_perm.
Qed.

(** The report does not depend on the cities classified as snow or other:
    with any other lists under these two categories the report of an
    analysis is the same text, so these cities are listed nowhere in the
    WEATHER CONDITIONS section. *)
Theorem report_ignores_snow_and_other (str_value : value -> string)
  (str_cell : cell -> string) (str_int : nat -> string) (now : string)
  (tabulate : list (list string) -> string) (a : Analysis)
  (raw_data : option (list Row)) (snow_cities other_cities : list string) :
  weather_categories a <> ∅ ->
  report.generate_report str_value str_cell str_int now tabulate
    (with_snow_other snow_cities other_cities a) raw_data
  = report.generate_report str_value str_cell str_int now tabulate a raw_data.
Proof.
  intros Hne.
  assert (Hw : report.weather_lines str_int
                 (<["snow" := snow_cities]>
                    (<["other" := other_cities]> (weather_categories a)))
               = report.weather_lines str_int (weather_categories a)).
  { unfold report.weather_lines.
    rewrite decide_False by apply insert_non_empty.
    rewrite decide_False by done.
    by rewrite !lookup_insert_ne. }
  unfold report.generate_report, report.report_lines.
  cbn [with_snow_other temperature_stats humidity_stats wind_stats
       weather_categories weather_distribution temperature_ranges total_cities].
  by rewrite Hw.
Qed.

Lemma report_ignores_snow_and_other_witness :
  exists a,
    get_comprehensive_analysis TEMP_RANGES (frame_of sample_records) = Ok a /\
    weather_categories a <> ∅ /\
    report.generate_report (fun _ => "v") (fun _ => "c") (fun _ => "n")
      "2024-05-01 12:00:00" (fun _ => "table")
      (with_snow_other ["Tromso"] ["Lima"] a) None
    = report.generate_report (fun _ => "v") (fun _ => "c") (fun _ => "n")
        "2024-05-01 12:00:00" (fun _ => "table") a None.
Proof.
  eexists. split; [reflexivity|].
  match goal with |- ?P /\ _ => assert (H : P) end.
  { cbn [weather_categories]. intros He.
    pose proof (categorize_weather_lookup (frame_of sample_records) rain) as Hl.
    rewrite He, lookup_empty in Hl. by specialize (Hl ltac:(done)). }
  split; [exact H|].
  exact (report_ignores_snow_and_other (fun _ => "v") (fun _ => "c")
           (fun _ => "n") "2024-05-01 12:00:00" (fun _ => "table") _ None
           ["Tromso"] ["Lima"] H).
Defined.

